(** * Universal Data Cleaner: profiling and rule-based cleaning engine

    A shallow embedding of [utils/helpers.py], [profiler/profiler.py] and
    [rules/rule_engine.py], together with the fragment of pandas those
    files call.

    Numbers are exact rationals ([Q]); a pandas float is [option Q] with
    [None] standing for NaN.  Python objects that the engine mutates (the
    data frames) live in a heap indexed by references, so that aliasing
    between the caller's frame and the engine's working copy is visible. *)

From Stdlib Require Import QArith Qround Lqa Sorted.
From Stdlib Require Import Ascii String.
From stdpp Require Import base option list strings gmap pretty.

Local Open Scope string_scope.
Local Open Scope list_scope.

(** ** Exceptions and fallible computations *)

(** The Python exceptions the embedded code can raise.  [NotModelled]
    marks the places where pandas does something this development does
    not describe: reductions of timestamp columns, and [df[col]] for a
    label carried by several columns. *)
Inductive exn :=
  | KeyError
  | TypeError
  | ZeroDivisionError
  | NotModelled.

Inductive result (A : Type) :=
  | Ok (a : A)
  | Raise (e : exn).
Arguments Ok {A} a.
Arguments Raise {A} e.

#[export] Instance result_ret : MRet result := fun A a => Ok a.

#[export] Instance result_bind : MBind result := fun A B k m =>
  match m with
  | Ok a => k a
  | Raise e => Raise e
  end.

(** ** Cells, floats and series *)

(** One cell of a column.  [NA] is the missing marker (NaN, None, NaT). *)
Inductive cell :=
  | NA
  | Num (q : Q)
  | Str (s : string)
  | Time (ns : Z). (* a Timestamp, as nanoseconds since the epoch *)

(** A Python float: [None] is NaN.  The arithmetic below is that of the
    rationals: it is the arithmetic of the code's doubles on the inputs
    where no operation rounds or overflows (see [exact_cell]); infinite
    values are not represented. *)
Definition float := option Q.

Definition fsub (a b : float) : float :=
  match a, b with
  | Some x, Some y => Some (Qred (x - y))
  | _, _ => None
  end.

Definition fadd (a b : float) : float :=
  match a, b with
  | Some x, Some y => Some (Qred (x + y))
  | _, _ => None
  end.

Definition fmul (a b : float) : float :=
  match a, b with
  | Some x, Some y => Some (Qred (x * y))
  | _, _ => None
  end.

(** [a >= b] on floats; a comparison with NaN is false. *)
Definition fge (a b : float) : bool :=
  match a, b with
  | Some x, Some y => Qle_bool y x
  | _, _ => false
  end.

Inductive dtype :=
  | Int64
  | UInt64
  | Float64
  | Object
  | Datetime64
  | Category.

(** [dtype.kind] *)
Definition kind (d : dtype) : Ascii.ascii :=
  match d with
  | Int64 => "i"
  | UInt64 => "u"
  | Float64 => "f"
  | Object => "O"
  | Datetime64 => "M"
  | Category => "O"
  end%char.

(** [str(dtype)] *)
Definition dtype_name (d : dtype) : string :=
  match d with
  | Int64 => "int64"
  | UInt64 => "uint64"
  | Float64 => "float64"
  | Object => "object"
  | Datetime64 => "datetime64[ns]"
  | Category => "category"
  end.

Record Series := { dtype_of : dtype; values : list cell }.

(** [c in s] for a one-character string [c] *)
Fixpoint char_in (c : Ascii.ascii) (s : string) : bool :=
  match s with
  | EmptyString => false
  | String d s' => Ascii.eqb c d || char_in c s'
  end.

Definition isna (c : cell) : bool :=
  match c with
  | NA => true
  | _ => false
  end.

Definition notna (c : cell) : bool := negb (isna c).

(** Equality of cells, as pandas' hash tables see it: missing equals
    missing, numbers are compared by value. *)
Definition cell_eqb (a b : cell) : bool :=
  match a, b with
  | NA, NA => true
  | Num x, Num y => Qeq_bool x y
  | Str s, Str t => String.eqb s t
  | Time x, Time y => Z.eqb x y
  | _, _ => false
  end.

(** [series.dropna()] *)
Definition dropna (s : Series) : Series :=
  {| dtype_of := dtype_of s; values := filter (fun c => notna c = true) (values s) |}.

(** [series.isna().sum()] *)
Definition isna_sum (s : Series) : nat :=
  length (filter (fun c => isna c = true) (values s)).

(** Mean of a boolean mask: the fraction of [true], NaN on an empty mask.
    The fraction is exact; compared with a threshold such as 0.7 it
    decides as the rounded double does for any column that fits in
    memory. *)
Definition mask_mean (m : list bool) : float :=
  match m with
  | [] => None
  | _ => Some (Qred (Z.of_nat (length (filter (fun b => b = true) m))
                      # Pos.of_nat (length m)))
  end.

(** Distinct values in order of first appearance. *)
Fixpoint unique_from (seen : list cell) (l : list cell) : list cell :=
  match l with
  | [] => []
  | c :: l' =>
      if existsb (cell_eqb c) seen then unique_from seen l'
      else c :: unique_from (c :: seen) l'
  end.

Definition unique (l : list cell) : list cell := unique_from [] l.

(** [series.nunique(dropna=True)] *)
Definition nunique (s : Series) : nat := length (unique (values (dropna s))).

(** ** The parts of pandas and Python that work on text or round floats *)

Class Pandas := {
  (** the date parser behind [pd.to_datetime] on one string *)
  parse_datetime : string -> option Z;
  (** the number parser behind [pd.to_numeric] on one string *)
  parse_numeric : string -> option Q;
  (** Python's [round(x, ndigits)] on a float *)
  round_ndigits : float -> nat -> float
}.

(** Bounds of a Timestamp in nanoseconds. *)
Definition Timestamp_min : Z := (-9223372036854775807)%Z.
Definition Timestamp_max : Z := 9223372036854775807%Z.

Definition Qtrunc (q : Q) : Z := Z.quot (Qnum q) (Z.pos (Qden q)).

Section Helpers.
Context `{Pandas}.

(** [pd.to_datetime(x, errors="coerce")] on one value.  Numbers are
    read as nanoseconds since the epoch; what cannot be converted
    becomes NaT.  The format pandas settles on for a whole column of
    mixed strings and numbers is not modelled. *)
Definition to_datetime_cell (c : cell) : cell :=
  match c with
  | NA => NA
  | Time t => Time t
  | Num q =>
      let t := Qtrunc q in
      if (Timestamp_min <=? t)%Z && (t <=? Timestamp_max)%Z then Time t else NA
  | Str s =>
      match parse_datetime s with
      | Some t => Time t
      | None => NA
      end
  end.

Definition to_datetime (s : Series) : Series :=
  {| dtype_of := Datetime64; values := map to_datetime_cell (values s) |}.

(** helpers.py: try_parse_datetime *)
Definition try_parse_datetime (series : Series) (threshold : float) : bool :=
  let parsed := to_datetime series in
  fge (mask_mean (map notna (values parsed))) threshold.

Definition default_threshold : float := Some (7 # 10).

(** helpers.py: infer_column_type *)
Definition infer_column_type (series : Series) : string :=
  if try_parse_datetime series default_threshold then "datetime"
  else if char_in (kind (dtype_of series)) "iuf" then "numeric"
  else if Nat.leb (nunique series) 20 then "categorical"
  else "text".

End Helpers.

(** ** Numeric reductions of pandas *)

(** The numbers a reduction works on: missing cells are skipped, text
    makes the reduction raise. *)
Fixpoint numbers (l : list cell) : result (list Q) :=
  match l with
  | [] => Ok []
  | NA :: l' => numbers l'
  | Num q :: l' => qs ← numbers l'; mret (q :: qs)
  | Str _ :: _ => Raise TypeError
  | Time _ :: _ => Raise NotModelled
  end.

Definition numeric_values (s : Series) : result (list Q) :=
  match dtype_of s with
  | Category => Raise TypeError
  | Datetime64 => Raise NotModelled
  | _ => numbers (values s)
  end.

Fixpoint insert_sorted (x : Q) (l : list Q) : list Q :=
  match l with
  | [] => [x]
  | y :: l' => if Qle_bool x y then x :: y :: l' else y :: insert_sorted x l'
  end.

Definition sort_Q (l : list Q) : list Q := foldr insert_sorted [] l.

Definition Qsum (l : list Q) : Q := foldr Qplus 0%Q l.

(** Quantile of sorted data with linear interpolation: the value at
    position [q * (n - 1)]. *)
Definition quantile_sorted (q : Q) (xs : list Q) : float :=
  match xs with
  | [] => None
  | x0 :: _ =>
      let h := (q * inject_Z (Z.of_nat (length xs) - 1))%Q in
      let lo := Qfloor h in
      let frac := (h - inject_Z lo)%Q in
      let vlo := nth (Z.to_nat lo) xs x0 in
      let vhi := nth (Z.to_nat lo + 1) xs vlo in
      Some (Qred (vlo + frac * (vhi - vlo)))
  end.

(** [series.quantile(q)] *)
Definition quantile (s : Series) (q : Q) : result float :=
  xs ← numeric_values s; mret (quantile_sorted q (sort_Q xs)).

(** [series.mean()] *)
Definition mean (s : Series) : result float :=
  xs ← numeric_values s;
  mret (match xs with
        | [] => None
        | _ => Some (Qred (Qsum xs / inject_Z (Z.of_nat (length xs))))
        end).

Definition median_sorted (xs : list Q) : float :=
  match xs with
  | [] => None
  | x0 :: _ =>
      let n := length xs in
      if Nat.even n
      then Some (Qred ((nth (n / 2 - 1) xs x0 + nth (n / 2) xs x0) / 2))
      else Some (Qred (nth (n / 2) xs x0))
  end.

(** [series.median()] *)
Definition median (s : Series) : result float :=
  xs ← numeric_values s; mret (median_sorted (sort_Q xs)).

(** Order used to sort the modes; it is only applied to cells of one type. *)
Definition cell_leb (a b : cell) : bool :=
  match a, b with
  | Num x, Num y => Qle_bool x y
  | Str s, Str t => String.leb s t
  | Time x, Time y => Z.leb x y
  | _, _ => true
  end.

Definition same_type (a b : cell) : bool :=
  match a, b with
  | NA, NA | Num _, Num _ | Str _, Str _ | Time _, Time _ => true
  | _, _ => false
  end.

Definition homogeneous (l : list cell) : bool :=
  match l with
  | [] => true
  | c :: l' => forallb (same_type c) l'
  end.

Fixpoint insert_cell (x : cell) (l : list cell) : list cell :=
  match l with
  | [] => [x]
  | y :: l' => if cell_leb x y then x :: y :: l' else y :: insert_cell x l'
  end.

(** [np.sort] on the modes.  Values of mixed types cannot be sorted; the
    order pandas leaves them in is not modelled, they are kept here in
    order of first appearance. *)
Definition sort_modes (l : list cell) : list cell :=
  if homogeneous l then foldr insert_cell [] l else l.

Definition count_cell (c : cell) (l : list cell) : nat :=
  length (filter (fun d => cell_eqb c d = true) l).

Definition max_count (l : list cell) : nat :=
  foldr Nat.max 0 (map (fun c => count_cell c l) l).

(** [series.mode()]: the most frequent non-missing values, sorted. *)
Definition mode (s : Series) : list cell :=
  let vals := values (dropna s) in
  sort_modes (filter (fun c => count_cell c vals = max_count vals) (unique vals)).

(** [series[0]] on the result of [mode()] *)
Definition first_label (l : list cell) : result cell :=
  match l with
  | [] => Raise KeyError
  | c :: _ => Ok c
  end.

Definition is_numeric_dtype (d : dtype) : bool :=
  match d with
  | Int64 | UInt64 | Float64 => true
  | _ => false
  end.

(** dtype of a column after its missing cells were filled with [v] *)
Definition fill_dtype (d : dtype) (v : cell) : dtype :=
  match d, v with
  | (Int64 | UInt64 | Float64), Num _ => d
  | Datetime64, Time _ => d
  | Category, _ => d
  | _, _ => Object
  end.

(** [series.fillna(v)] for a scalar [v]; filling with NaN leaves every
    cell as it is, and a categorical column only takes one of its own
    values.  The dtype given here is the one of numeric, datetime and
    categorical storage; the dtype pandas chooses for an object column
    after a fill is not tracked. *)
Definition fillna (s : Series) (v : cell) : result Series :=
  match v with
  | NA => Ok s
  | _ =>
      match dtype_of s with
      | Category =>
          if existsb (cell_eqb v) (values s)
          then Ok {| dtype_of := Category;
                     values := map (fun c => if isna c then v else c) (values s) |}
          else Raise TypeError
      | d =>
          Ok {| dtype_of := if existsb isna (values s) then fill_dtype d v else d;
                values := map (fun c => if isna c then v else c) (values s) |}
      end
  end.

(** helpers.py: calculate_iqr_bounds *)
Definition calculate_iqr_bounds (series : Series) : result (float * float) :=
  q1 ← quantile series (1 # 4);
  q3 ← quantile series (3 # 4);
  let iqr := fsub q3 q1 in
  let lower := fsub q1 (fmul (Some (3 # 2)) iqr) in
  let upper := fadd q3 (fmul (Some (3 # 2)) iqr) in
  mret (lower, upper).

(** Elementwise comparison of a series with a float; a missing cell or a
    NaN bound compares false. *)
Definition compare_cell (op : Q -> Q -> bool) (x : float) (c : cell) : result bool :=
  match c with
  | NA => Ok false
  | Num v =>
      Ok (match x with
          | Some b => op v b
          | None => false
          end)
  | Str _ | Time _ => Raise TypeError
  end.

Definition compare (op : Q -> Q -> bool) (s : Series) (x : float) : result (list bool) :=
  match dtype_of s with
  | Category | Datetime64 => Raise TypeError
  | _ => mapM (compare_cell op x) (values s)
  end.

Definition Qlt_bool (a b : Q) : bool := negb (Qle_bool b a).
Definition Qge_bool (a b : Q) : bool := Qle_bool b a.
Definition Qgt_bool (a b : Q) : bool := negb (Qle_bool a b).

(** Boolean indexing: the entries of [l] whose mask entry is [true]. *)
Fixpoint bool_index {A} (l : list A) (mask : list bool) : list A :=
  match l, mask with
  | x :: l', b :: mask' => if b then x :: bool_index l' mask' else bool_index l' mask'
  | _, _ => []
  end.

(** ** Data frames *)

(** A frame is its labelled, typed columns and its rows; every row has
    one cell per column. *)
Record DataFrame := { schema : list (string * dtype); rows : list (list cell) }.

(** [df.columns] *)
Definition columns (df : DataFrame) : list string := (schema df).*1.

(** [len(df)] *)
Definition len (df : DataFrame) : nat := length (rows df).

(** [df.shape] *)
Definition shape (df : DataFrame) : nat * nat := (len df, length (schema df)).

(** [df.empty] *)
Definition empty (df : DataFrame) : bool :=
  Nat.eqb (len df) 0 || Nat.eqb (length (schema df)) 0.

Fixpoint index_of (col : string) (l : list string) : option nat :=
  match l with
  | [] => None
  | c :: l' => if String.eqb col c then Some 0 else S <$> index_of col l'
  end.

Definition count_label (col : string) (l : list string) : nat :=
  length (filter (fun c => String.eqb col c = true) l).

(** [col in df.columns] *)
Definition has_column (df : DataFrame) (col : string) : bool :=
  existsb (String.eqb col) (columns df).

(** [df[col]].  With a repeated label pandas returns a frame instead of
    a series; that case is left out of the model. *)
Definition get_column (df : DataFrame) (col : string) : result Series :=
  match index_of col (columns df) with
  | None => Raise KeyError
  | Some j =>
      if Nat.eqb (count_label col (columns df)) 1
      then Ok {| dtype_of := default Object (snd <$> schema df !! j);
                 values := map (fun r => nth j r NA) (rows df) |}
      else Raise NotModelled
  end.

(** A Python dict with string keys: insertion order, one entry per key. *)
Fixpoint dict_set {V} (k : string) (v : V) (d : list (string * V)) : list (string * V) :=
  match d with
  | [] => [(k, v)]
  | (k', v') :: d' => if String.eqb k k' then (k, v) :: d' else (k', v') :: dict_set k v d'
  end.

Fixpoint dict_get {V} (k : string) (d : list (string * V)) : option V :=
  match d with
  | [] => None
  | (k', v') :: d' => if String.eqb k k' then Some v' else dict_get k d'
  end.

(** Python's [a / b] on lengths *)
Definition py_div (a b : nat) : result float :=
  match b with
  | O => Raise ZeroDivisionError
  | S _ => Ok (Some (Qred (Z.of_nat a # Pos.of_nat b)))
  end.

(** ** profiler.py *)

Record OutlierInfo := { outlier_count : nat; outlier_percent : float }.

Record ColumnProfile := {
  dtype_str : string;
  detected_type : string;
  missing_count : nat;
  missing_percent : float;
  unique_count : nat;
  sample_value : option cell;
  is_constant : bool;
  outlier_info : option OutlierInfo
}.

Record DatasetProfile := {
  profile_shape : nat * nat;
  profile_columns : list (string * ColumnProfile)
}.

Section Profiler.
Context `{Pandas}.

(** DataProfiler._outlier_info *)
Definition _outlier_info (series : Series) : result (option OutlierInfo) :=
  if negb (char_in (kind (dtype_of series)) "iuf") then mret None
  else
    '(lower, upper) ← calculate_iqr_bounds (dropna series);
    below ← compare Qlt_bool series lower;
    above ← compare Qgt_bool series upper;
    let outliers := bool_index (values series) (zip_with orb below above) in
    ratio ← py_div (length outliers) (length (values series));
    mret (Some {| outlier_count := length (filter (fun c => notna c = true) outliers);
                  outlier_percent := fmul (round_ndigits ratio 4) (Some (100 # 1)) |}).

Definition column_profile (series : Series) : result ColumnProfile :=
  info ← _outlier_info series;
  mret {| dtype_str := dtype_name (dtype_of series);
          detected_type := infer_column_type series;
          missing_count := isna_sum series;
          missing_percent :=
            round_ndigits (fmul (mask_mean (map isna (values series))) (Some (100 # 1))) 2;
          unique_count := nunique series;
          sample_value := head (values (dropna series));
          is_constant := Nat.eqb (nunique series) 1;
          outlier_info := info |}.

Fixpoint profile_loop (df : DataFrame) (cols : list string)
    (acc : list (string * ColumnProfile)) : result (list (string * ColumnProfile)) :=
  match cols with
  | [] => Ok acc
  | col :: cols' =>
      series ← get_column df col;
      p ← column_profile series;
      profile_loop df cols' (dict_set col p acc)
  end.

(** DataProfiler.profile *)
Definition profile (df : DataFrame) : result DatasetProfile :=
  cs ← profile_loop df (columns df) [];
  mret {| profile_shape := shape df; profile_columns := cs |}.

End Profiler.

(** ** Frame operations used by the engine *)

(** [df.drop(columns=[col])]: every column carrying the label goes. *)
Definition drop_column (col : string) (df : DataFrame) : DataFrame :=
  let keep := map (fun c => negb (String.eqb col c)) (columns df) in
  {| schema := bool_index (schema df) keep;
     rows := map (fun r => bool_index r keep) (rows df) |}.

Fixpoint set_cells (j : nat) (rs : list (list cell)) (vals : list cell) : list (list cell) :=
  match rs with
  | [] => []
  | r :: rs' => <[j := hd NA vals]> r :: set_cells j rs' (tl vals)
  end.

(** [df[col] = series] for a label the frame already has. *)
Definition set_column (col : string) (s : Series) (df : DataFrame) : DataFrame :=
  match index_of col (columns df) with
  | None => df
  | Some j =>
      {| schema := <[j := (col, dtype_of s)]> (schema df);
         rows := set_cells j (rows df) (values s) |}
  end.

(** [df[mask]] for a boolean mask over the rows *)
Definition select_rows (df : DataFrame) (mask : list bool) : DataFrame :=
  {| schema := schema df; rows := bool_index (rows df) mask |}.

(** [df.dropna(subset=[col])] *)
Definition dropna_subset (col : string) (df : DataFrame) : DataFrame :=
  match index_of col (columns df) with
  | None => df
  | Some j =>
      {| schema := schema df;
         rows := filter (fun r => notna (nth j r NA) = true) (rows df) |}
  end.

Fixpoint row_eqb (r1 r2 : list cell) : bool :=
  match r1, r2 with
  | [], [] => true
  | a :: r1', b :: r2' => cell_eqb a b && row_eqb r1' r2'
  | _, _ => false
  end.

(** Rows that do not repeat a row seen before. *)
Fixpoint first_occurrences (seen : list (list cell)) (rs : list (list cell)) : list (list cell) :=
  match rs with
  | [] => []
  | r :: rs' =>
      if existsb (row_eqb r) seen then first_occurrences seen rs'
      else r :: first_occurrences (r :: seen) rs'
  end.

(** [df.drop_duplicates()]; pandas returns an empty frame as it is. *)
Definition drop_duplicates (df : DataFrame) : DataFrame :=
  if empty df then df
  else {| schema := schema df; rows := first_occurrences [] (rows df) |}.

(** *** Column labels

    Labels are taken to be ASCII text: [strip] removes ASCII white space,
    [lower] maps A-Z to a-z, and the word characters kept by the last
    step are the letters, the digits and the underscore. *)

Definition is_space (c : Ascii.ascii) : bool :=
  let n := nat_of_ascii c in
  (Nat.leb 9 n && Nat.leb n 13) || (Nat.leb 28 n && Nat.leb n 32).

Definition is_word (c : Ascii.ascii) : bool :=
  let n := nat_of_ascii c in
  (Nat.leb 48 n && Nat.leb n 57) || (Nat.leb 65 n && Nat.leb n 90)
  || (Nat.leb 97 n && Nat.leb n 122) || Nat.eqb n 95.

Definition lower_char (c : Ascii.ascii) : Ascii.ascii :=
  let n := nat_of_ascii c in
  if Nat.leb 65 n && Nat.leb n 90 then ascii_of_nat (n + 32) else c.

Fixpoint lstrip (s : string) : string :=
  match s with
  | String c s' => if is_space c then lstrip s' else s
  | EmptyString => EmptyString
  end.

Fixpoint rstrip (s : string) : string :=
  match s with
  | EmptyString => EmptyString
  | String c s' =>
      match rstrip s' with
      | EmptyString => if is_space c then EmptyString else String c EmptyString
      | t => String c t
      end
  end.

Fixpoint map_string (f : Ascii.ascii -> Ascii.ascii) (s : string) : string :=
  match s with
  | EmptyString => EmptyString
  | String c s' => String (f c) (map_string f s')
  end.

Fixpoint filter_string (f : Ascii.ascii -> bool) (s : string) : string :=
  match s with
  | EmptyString => EmptyString
  | String c s' => if f c then String c (filter_string f s') else filter_string f s'
  end.

(** [.str.strip().str.lower().str.replace(" ", "_").str.replace(r"[^\w_]", "")],
    on ASCII labels. *)
Definition standardize_label (s : string) : string :=
  filter_string is_word
    (map_string (fun c => if Ascii.eqb c " " then "_"%char else c)
       (map_string lower_char (rstrip (lstrip s)))).

(** ** Rules *)

Record MissingRule := { m_strategy : option string; m_value : option cell }.

Record OutlierRule := { o_method : option string }.

(** One entry of [rules["columns"]]; an absent key is [None]. *)
Record Rule := {
  r_drop : option bool;
  r_type : option string;
  r_missing : option MissingRule;
  r_outliers : option OutlierRule
}.

Record GlobalRules := {
  g_standardize_column_names : option bool;
  g_drop_duplicates : option bool
}.

Record RuleSet := {
  global_rules : option GlobalRules;
  rule_columns : option (list (string * Rule))
}.

(** Truth value of [d.get(key)] for a boolean entry. *)
Definition truthy (b : option bool) : bool := default false b.

(** Truth value of [rule.get("outliers")]: a non-empty mapping. *)
Definition outliers_truthy (o : option OutlierRule) : bool :=
  match o with
  | Some {| o_method := Some _ |} => true
  | _ => false
  end.

Definition float_cell (x : float) : cell :=
  match x with
  | Some q => Num q
  | None => NA
  end.

(** ** The heap of frames and the engine's state *)

Definition loc := positive.

#[export] Instance DataFrame_inhabited : Inhabited DataFrame :=
  populate {| schema := []; rows := [] |}.

(** [heap] is the program's memory of frames; [self_df] and
    [self_audit_log] are the fields of the RuleEngine object. *)
Record State := {
  heap : gmap loc DataFrame;
  self_df : loc;
  self_audit_log : list string
}.

(** Computations of the engine: they change the state and return or
    raise.  An exception leaves the state as it was when raised. *)
Definition M (A : Type) : Type := State -> State * result A.

#[export] Instance M_ret : MRet M := fun A a st => (st, Ok a).

#[export] Instance M_bind : MBind M := fun A B k m st =>
  match m st with
  | (st', Ok a) => k a st'
  | (st', Raise e) => (st', Raise e)
  end.

Definition lift {A} (r : result A) : M A := fun st => (st, r).

(** Read the frame a reference points to. *)
Definition load (l : loc) : M DataFrame := fun st => (st, Ok (heap st !!! l)).

(** Overwrite, in place, the frame a reference points to. *)
Definition store (l : loc) (df : DataFrame) : M unit := fun st =>
  ({| heap := <[l := df]> (heap st);
      self_df := self_df st;
      self_audit_log := self_audit_log st |}, Ok ()).

(** Create a new frame object. *)
Definition alloc (df : DataFrame) : M loc := fun st =>
  let l := fresh (dom (heap st)) in
  ({| heap := <[l := df]> (heap st);
      self_df := self_df st;
      self_audit_log := self_audit_log st |}, Ok l).

Definition get_self_df : M loc := fun st => (st, Ok (self_df st)).

Definition set_self_df (l : loc) : M unit := fun st =>
  ({| heap := heap st; self_df := l; self_audit_log := self_audit_log st |}, Ok ()).

(** [self.audit_log.append(msg)] *)
Definition audit (msg : string) : M unit := fun st =>
  ({| heap := heap st;
      self_df := self_df st;
      self_audit_log := self_audit_log st ++ [msg] |}, Ok ()).

Definition get_audit_log : M (list string) := fun st => (st, Ok (self_audit_log st)).

(** [for x in xs: body(x)] *)
Fixpoint for_each {A} (xs : list A) (body : A -> M unit) : M unit :=
  match xs with
  | [] => mret ()
  | x :: xs' => body x;; for_each xs' body
  end.

(** ** helpers.py and rule_engine.py *)

Section Engine.
Context `{Pandas}.

(** helpers.py: standardize_column_names: works on a copy. *)
Definition standardize_column_names (df : loc) : M loc :=
  d ← load df;
  df' ← alloc d;
  store df' {| schema := map (fun '(c, t) => (standardize_label c, t)) (schema d);
               rows := rows d |};;
  mret df'.

Definition is_integer (q : Q) : bool := Pos.eqb (Qden (Qred q)) 1.

Definition to_numeric_cell (c : cell) : cell :=
  match c with
  | NA => NA
  | Num q => Num q
  | Str s =>
      match parse_numeric s with
      | Some q => Num q
      | None => NA
      end
  | Time t => Num (inject_Z t)
  end.

Definition int64_min : Z := (- 2 ^ 63)%Z.
Definition int64_max : Z := (2 ^ 63 - 1)%Z.
Definition uint64_max : Z := (2 ^ 64 - 1)%Z.

(** A datetime column is read as its int64 nanoseconds; NaT is stored as
    the least int64 and comes out as that number. *)
Definition datetime_as_int64 (c : cell) : cell :=
  match c with
  | NA => Num (inject_Z int64_min)
  | c => to_numeric_cell c
  end.

Definition cell_in_range (lo hi : Z) (c : cell) : bool :=
  match c with
  | Num q => is_integer q && Z.leb lo (Qnum (Qred q)) && Z.leb (Qnum (Qred q)) hi
  | _ => false
  end.

(** dtype of the numbers read from an object column: int64 when all are
    integers of that range, uint64 when all are non-negative integers
    and some exceed int64, float64 otherwise. *)
Definition converted_dtype (vals : list cell) : dtype :=
  if forallb (cell_in_range int64_min int64_max) vals then Int64
  else if forallb (cell_in_range 0 uint64_max) vals then UInt64
  else Float64.

(** helpers.py: safe_to_numeric, [pd.to_numeric(series, errors="coerce")] *)
Definition safe_to_numeric (series : Series) : Series :=
  match dtype_of series with
  | Datetime64 =>
      {| dtype_of := Int64; values := map datetime_as_int64 (values series) |}
  | d =>
      let vals := map to_numeric_cell (values series) in
      {| dtype_of := if is_numeric_dtype d then d else converted_dtype vals;
         values := vals |}
  end.

(** [series.astype("category")] *)
Definition astype_category (series : Series) : Series :=
  {| dtype_of := Category; values := values series |}.

(** [self.df[col]] *)
Definition self_column (col : string) : M Series :=
  l ← get_self_df; df ← load l; lift (get_column df col).

(** [self.df[col] = series] *)
Definition self_set_column (col : string) (series : Series) : M unit :=
  l ← get_self_df; df ← load l; store l (set_column col series df).

(** RuleEngine._apply_global_rules *)
Definition _apply_global_rules (rules : RuleSet) : M unit :=
  g ← lift (from_option Ok (Raise KeyError) (global_rules rules));
  (if truthy (g_standardize_column_names g) then
     l ← get_self_df;
     l' ← standardize_column_names l;
     set_self_df l';;
     audit "Standardized column names"
   else mret ());;
  (if truthy (g_drop_duplicates g) then
     l ← get_self_df; df ← load l;
     let before := len df in
     l' ← alloc (drop_duplicates df);
     set_self_df l';;
     df' ← load l';
     audit ("Dropped " +:+ pretty (before - len df') +:+ " duplicate rows")
   else mret ()).

(** RuleEngine._handle_type_cast *)
Definition _handle_type_cast (col : string) (rule : Rule) : M unit :=
  let target_type := r_type rule in
  if bool_decide (target_type = Some "numeric") then
    s ← self_column col;
    self_set_column col (safe_to_numeric s);;
    audit (col +:+ ": cast to numeric")
  else if bool_decide (target_type = Some "datetime") then
    s ← self_column col;
    self_set_column col (to_datetime s);;
    audit (col +:+ ": cast to datetime")
  else if bool_decide (target_type = Some "categorical") then
    s ← self_column col;
    self_set_column col (astype_category s);;
    audit (col +:+ ": cast to categorical")
  else mret ().

(** RuleEngine._handle_missing *)
Definition _handle_missing (col : string) (rule : Rule) : M unit :=
  match r_missing rule ≫= m_strategy with
  | None | Some "" => mret ()
  | Some strategy =>
      s0 ← self_column col;
      let before := isna_sum s0 in
      (if String.eqb strategy "mean" then
         s ← self_column col;
         m ← lift (mean s);
         filled ← lift (fillna s (float_cell m));
         self_set_column col filled
       else if String.eqb strategy "median" then
         s ← self_column col;
         m ← lift (median s);
         filled ← lift (fillna s (float_cell m));
         self_set_column col filled
       else if String.eqb strategy "mode" then
         s ← self_column col;
         m ← lift (first_label (mode s));
         filled ← lift (fillna s m);
         self_set_column col filled
       else if String.eqb strategy "constant" then
         let value := default (Str "Unknown") (r_missing rule ≫= m_value) in
         s ← self_column col;
         filled ← lift (fillna s value);
         self_set_column col filled
       else if String.eqb strategy "drop" then
         l ← get_self_df; df ← load l;
         l' ← alloc (dropna_subset col df);
         set_self_df l'
       else mret ());;
      s1 ← self_column col;
      let after := isna_sum s1 in
      audit (col +:+ ": missing handled (" +:+ pretty before +:+ " → "
             +:+ pretty after +:+ ") using " +:+ strategy)
  end.

(** RuleEngine._handle_outliers *)
Definition _handle_outliers (col : string) (rule : Rule) : M unit :=
  if negb (outliers_truthy (r_outliers rule)) then mret ()
  else
    s ← self_column col;
    '(lower, upper) ← lift (calculate_iqr_bounds (dropna s));
    l ← get_self_df; df ← load l;
    let before := len df in
    s ← self_column col;
    ge ← lift (compare Qge_bool s lower);
    le ← lift (compare Qle_bool s upper);
    l' ← alloc (select_rows df (zip_with andb ge le));
    set_self_df l';;
    df' ← load l';
    let removed := before - len df' in
    audit (col +:+ ": removed " +:+ pretty removed +:+ " outliers using IQR").

(** The body of the loop of RuleEngine.apply *)
Definition apply_column (entry : string * Rule) : M unit :=
  let '(col, rule) := entry in
  l ← get_self_df; df ← load l;
  if negb (has_column df col) then mret ()
  else if truthy (r_drop rule) then
    store l (drop_column col df);;
    audit ("Dropped column: " +:+ col)
  else
    _handle_type_cast col rule;;
    _handle_missing col rule;;
    _handle_outliers col rule.

(** RuleEngine.apply *)
Definition apply (rules : RuleSet) : M (loc * list string) :=
  _apply_global_rules rules;;
  for_each (default [] (rule_columns rules)) apply_column;;
  l ← get_self_df;
  log ← get_audit_log;
  mret (l, log).

(** RuleEngine.__init__: [self.df = df.copy()], [self.audit_log = []] *)
Definition __init__ (h : gmap loc DataFrame) (df : loc) : State :=
  let l := fresh (dom h) in
  {| heap := <[l := h !!! df]> h; self_df := l; self_audit_log := [] |}.

(** [RuleEngine(df, rules).apply()], run in memory [h] *)
Definition run (h : gmap loc DataFrame) (df : loc) (rules : RuleSet)
    : State * result (loc * list string) :=
  apply rules (__init__ h df).

End Engine.

(** ** A concrete text layer

    ISO calendar dates [YYYY-MM-DD], decimal integers, and rounding in
    exact arithmetic (half to even).  It is used to run the model on
    concrete data. *)

Module Text.

Definition digit (c : Ascii.ascii) : option Z :=
  let n := nat_of_ascii c in
  if Nat.leb 48 n && Nat.leb n 57 then Some (Z.of_nat (n - 48)) else None.

Fixpoint digits_from (acc : Z) (s : string) : option Z :=
  match s with
  | EmptyString => Some acc
  | String c s' => d ← digit c; digits_from (10 * acc + d)%Z s'
  end.

(** a non-empty run of decimal digits *)
Definition natural (s : string) : option Z :=
  match s with
  | EmptyString => None
  | _ => digits_from 0%Z s
  end.

Definition integer (s : string) : option Q :=
  match s with
  | String "-" s' => z ← natural s'; Some (inject_Z (- z))
  | _ => z ← natural s; Some (inject_Z z)
  end.

Definition is_leap (y : Z) : bool :=
  ((y mod 4 =? 0) && negb (y mod 100 =? 0) || (y mod 400 =? 0))%Z.

Definition days_in_month (y m : Z) : Z :=
  (if m =? 2 then (if is_leap y then 29 else 28)
   else if (m =? 4) || (m =? 6) || (m =? 9) || (m =? 11) then 30
   else 31)%Z.

(** days between 1970-01-01 and the civil date *)
Definition days_from_civil (y m d : Z) : Z :=
  (let y' := if m <=? 2 then y - 1 else y in
   let era := y' / 400 in
   let yoe := y' - era * 400 in
   let mp := (m + 9) mod 12 in
   let doy := (153 * mp + 2) / 5 + d - 1 in
   let doe := yoe * 365 + yoe / 4 - yoe / 100 + doy in
   era * 146097 + doe - 719468)%Z.

Definition iso_date (s : string) : option Z :=
  match s with
  | String y1 (String y2 (String y3 (String y4 (String "-"
      (String m1 (String m2 (String "-" (String d1 (String d2 EmptyString))))))))) =>
      y ← natural (String y1 (String y2 (String y3 (String y4 EmptyString))));
      m ← natural (String m1 (String m2 EmptyString));
      d ← natural (String d1 (String d2 EmptyString));
      if ((1 <=? m) && (m <=? 12) && (1 <=? d) && (d <=? days_in_month y m))%Z
      then Some (days_from_civil y m d * 86400000000000)%Z
      else None
  | _ => None
  end.

Definition round_half_even (x : float) (ndigits : nat) : float :=
  q ← x;
  let scale := inject_Z (10 ^ Z.of_nat ndigits) in
  let y := (q * scale)%Q in
  let lo := Qfloor y in
  let twice := (2 * (y - inject_Z lo))%Q in
  let r :=
    if Qle_bool twice 1 && negb (Qeq_bool twice 1) then lo
    else if Qeq_bool twice 1 then (if Z.even lo then lo else lo + 1)%Z
    else (lo + 1)%Z in
  Some (Qred (inject_Z r / scale)).

#[export] Instance pandas : Pandas := {|
  parse_datetime := iso_date;
  parse_numeric := integer;
  round_ndigits := round_half_even
|}.

End Text.

(** ** Notions used to state the properties *)

(** Number of values [pd.to_datetime] turns into a timestamp. *)
Definition parsed_count `{Pandas} (s : Series) : nat :=
  length (filter (fun c => notna c = true) (values (to_datetime s))).

(** The fraction the specification describes: parsed values over the
    non-missing values only. *)
Definition parsed_fraction_of_present `{Pandas} (s : Series) : float :=
  mask_mean (map notna (values (to_datetime (dropna s)))).

Definition below_bound (lower : float) (c : cell) : bool :=
  match c, lower with
  | Num v, Some b => Qlt_bool v b
  | _, _ => false
  end.

Definition above_bound (upper : float) (c : cell) : bool :=
  match c, upper with
  | Num v, Some b => Qgt_bool v b
  | _, _ => false
  end.

(** A cell strictly outside [[lower, upper]]; a missing cell never is. *)
Definition strictly_outside (lower upper : float) (c : cell) : bool :=
  below_bound lower c || above_bound upper c.

(** What a call returned: the frame behind the returned reference and
    the audit log; [None] when the call raised. *)
Definition returned (x : State * result (loc * list string))
    : option (DataFrame * list string) :=
  match x.2 with
  | Ok (l, log) => Some (heap x.1 !!! l, log)
  | Raise _ => None
  end.

(** The frames of the memory [h] are still in the state's heap,
    unchanged, and the engine's own frame is not one of them. *)
Definition untouched (h : gmap loc DataFrame) (st : State) : Prop :=
  h ⊆ heap st /\ self_df st ∉ dom h.

(** A computation that keeps the frames of [h] untouched. *)
Definition keeps (h : gmap loc DataFrame) {A} (m : M A) : Prop :=
  forall st, untouched h st -> untouched h (m st).1.

(** A cell the engine's mask keeps: a number inside [[lower, upper]]. *)
Definition within_bounds (lower upper : float) (c : cell) : bool :=
  match c, lower, upper with
  | Num v, Some lo, Some hi => Qge_bool v lo && Qle_bool v hi
  | _, _, _ => false
  end.

Definition outliers_only : Rule :=
  {| r_drop := None; r_type := None; r_missing := None;
     r_outliers := Some {| o_method := Some "iqr" |} |}.

Definition no_global_rules : GlobalRules :=
  {| g_standardize_column_names := None; g_drop_duplicates := None |}.

Definition strategy_only (strategy : string) : Rule :=
  {| r_drop := None; r_type := None;
     r_missing := Some {| m_strategy := Some strategy; m_value := None |};
     r_outliers := None |}.

Definition drop_only : Rule :=
  {| r_drop := Some true; r_type := None; r_missing := None; r_outliers := None |}.

(** The value the specification asks for: the first cell, in column
    order, among the non-missing cells of maximal frequency. *)
Definition first_encountered_mode (s : Series) : option cell :=
  let vals := values (dropna s) in
  head (filter (fun c => count_cell c vals = max_count vals) vals).

(** The head of a list is below all its entries. *)
Definition head_least (l : list cell) : Prop :=
  match l with
  | [] => True
  | v :: _ => forall w, w ∈ l -> cell_leb v w = true
  end.

Definition one_type (l : list cell) : Prop :=
  forall a b, a ∈ l -> b ∈ l -> same_type a b = true.

(** ** Notions used for the further properties *)

(** The frame the engine is working on. *)
Definition current (st : State) : DataFrame := heap st !!! self_df st.

(** Every row has one cell per column. *)
Definition rectangular (df : DataFrame) : Prop :=
  Forall (fun r => length r = length (schema df)) (rows df).

(** Cells on which the arithmetic of the quartiles and of the bounds is
    exact in doubles, so that the rationals of the model are the numbers
    the code computes: missing cells and integers of magnitude at most
    2^40 (positions are multiples of 1/4 and the bounds multiples of
    1/8, all well inside the 53 bits of a double). *)
Definition exact_cell (c : cell) : bool :=
  match c with
  | NA => true
  | Num q => is_integer q && Z.leb (Z.abs (Qnum (Qred q))) (2 ^ 40)
  | _ => false
  end.

(** An integer of magnitude at most 2^40. *)
Definition small_integer (q : Q) : Prop :=
  exists a : Z, (q == inject_Z a)%Q /\ (Z.abs a <= 2 ^ 40)%Z.

(** A multiple of 1/8 of magnitude at most 2^43; every such number is a
    double. *)
Definition exact_eighth (q : Q) : Prop :=
  exists z : Z, (q == inject_Z z / 8)%Q /\ (Z.abs z <= 2 ^ 46)%Z.

Fixpoint string_forall (P : Ascii.ascii -> bool) (s : string) : bool :=
  match s with
  | EmptyString => true
  | String c s' => P c && string_forall P s'
  end.

Definition is_ascii (c : Ascii.ascii) : bool := Nat.ltb (nat_of_ascii c) 128.

(** A character a standardized label is made of: a-z, 0-9 or underscore. *)
Definition is_label_char (c : Ascii.ascii) : bool :=
  let n := nat_of_ascii c in
  (Nat.leb 48 n && Nat.leb n 57) || (Nat.leb 97 n && Nat.leb n 122) || Nat.eqb n 95.

(** The frame [standardize_column_names] produces. *)
Definition standardized (df : DataFrame) : DataFrame :=
  {| schema := map (fun '(c, t) => (standardize_label c, t)) (schema df);
     rows := rows df |}.

(** What every character of a standardized label satisfies. *)
Definition settled (d : Ascii.ascii) : bool :=
  is_label_char d && is_word d && negb (is_space d)
  && Ascii.eqb (lower_char d) d && negb (Ascii.eqb d " ").

(** The value [quantile_sorted] interpolates, before normalisation. *)
Definition interpolate (q : Q) (xs : list Q) (x0 : Q) : Q :=
  let h := (q * inject_Z (Z.of_nat (length xs) - 1))%Q in
  let lo := Qfloor h in
  let frac := (h - inject_Z lo)%Q in
  let vlo := nth (Z.to_nat lo) xs x0 in
  let vhi := nth (Z.to_nat lo + 1) xs vlo in
  (vlo + frac * (vhi - vlo))%Q.

(** [d'] has no more rows and no more columns than [d], and is
    rectangular if [d] is. *)
Definition shrinks (d d' : DataFrame) : Prop :=
  len d' <= len d
  /\ length (schema d') <= length (schema d)
  /\ (rectangular d -> rectangular d').

(** From [st] to [st'] the audit log was only appended to and the
    working frame did not grow. *)
Definition advances (st st' : State) : Prop :=
  self_audit_log st `prefix_of` self_audit_log st'
  /\ shrinks (current st) (current st').

(** A computation that only advances the state, whether it returns or
    raises. *)
Definition progresses {A} (m : M A) : Prop :=
  forall st, advances st (m st).1.

(** A cell after its column was filled with [v]. *)
Definition fill_with (v : cell) (c : cell) : cell := if isna c then v else c.

(** The value a filling strategy fills with. *)
Definition fill_value (rule : Rule) (strategy : string) (s : Series) : result cell :=
  if String.eqb strategy "mean" then m ← mean s; mret (float_cell m)
  else if String.eqb strategy "median" then m ← median s; mret (float_cell m)
  else if String.eqb strategy "mode" then first_label (mode s)
  else Ok (default (Str "Unknown") (r_missing rule ≫= m_value)).

(** No row equals a row before it. *)
Fixpoint distinct_rows (rs : list (list cell)) : Prop :=
  match rs with
  | [] => True
  | r :: rs' => Forall (fun r' => row_eqb r' r = false) rs' /\ distinct_rows rs'
  end.

(** The series a recognised [type] turns a column into. *)
Definition cast_to `{Pandas} (target_type : string) (s : Series) : option Series :=
  if String.eqb target_type "numeric" then Some (safe_to_numeric s)
  else if String.eqb target_type "datetime" then Some (to_datetime s)
  else if String.eqb target_type "categorical" then Some (astype_category s)
  else None.

(** ** app.py: the suggested rules *)

(** [a > b] on floats; a comparison with NaN is false. *)
Definition fgt (a b : float) : bool :=
  match a, b with
  | Some x, Some y => negb (Qle_bool x y)
  | _, _ => false
  end.

(** [a < b] on floats *)
Definition flt (a b : float) : bool := fgt b a.

(** The outcome of a step of the application: a value, or the
    AttributeError of calling [.get] on None. *)
Inductive attempt (A : Type) :=
  | Returned (a : A)
  | AttributeError.
Arguments Returned {A} a.
Arguments AttributeError {A}.

(** app.py: the [drop] and [missing] keys set for one column *)
Definition suggest_missing (info : ColumnProfile) : option bool * option MissingRule :=
  if fgt (missing_percent info) (Some (40 # 1)) then (Some true, None)
  else if String.eqb (detected_type info) "numeric" then
    if flt (missing_percent info) (Some (5 # 1))
    then (None, Some {| m_strategy := Some "mean"; m_value := None |})
    else if flt (missing_percent info) (Some (30 # 1))
    then (None, Some {| m_strategy := Some "median"; m_value := None |})
    else (None, None)
  else
    if fgt (missing_percent info) (Some 0%Q)
    then (None, Some {| m_strategy := Some "mode"; m_value := None |})
    else (None, None).

(** app.py: [info.get("outlier_info", {}).get("outlier_count", 0) > 0],
    evaluated only for a column detected as numeric; the key
    [outlier_info] is always in the profile, with None for "absent". *)
Definition suggest_outliers (info : ColumnProfile) : attempt (option OutlierRule) :=
  if String.eqb (detected_type info) "numeric" then
    match outlier_info info with
    | None => AttributeError
    | Some o =>
        Returned (if Nat.ltb 0 (outlier_count o)
                  then Some {| o_method := Some "iqr" |} else None)
    end
  else Returned None.

(** app.py: the rule built for one column *)
Definition suggest_rule (info : ColumnProfile) : attempt Rule :=
  let '(drop, missing) := suggest_missing info in
  match suggest_outliers info with
  | Returned outliers =>
      Returned {| r_drop := drop; r_type := None; r_missing := missing;
                  r_outliers := outliers |}
  | AttributeError => AttributeError
  end.

Definition has_key {A} (o : option A) : bool :=
  match o with
  | Some _ => true
  | None => false
  end.

(** Truth value of a rule as a Python dict: it has a key. *)
Definition rule_nonempty (rule : Rule) : bool :=
  has_key (r_drop rule) || has_key (r_type rule)
  || has_key (r_missing rule) || has_key (r_outliers rule).

(** app.py: the loop over [profile["columns"].items()] *)
Fixpoint suggest_columns (entries : list (string * ColumnProfile))
    (acc : list (string * Rule)) : attempt (list (string * Rule)) :=
  match entries with
  | [] => Returned acc
  | (col, info) :: entries' =>
      match suggest_rule info with
      | Returned rule =>
          suggest_columns entries'
            (if rule_nonempty rule then dict_set col rule acc else acc)
      | AttributeError => AttributeError
      end
  end.

(** app.py: [suggested_rules] *)
Definition suggest_rules (p : DatasetProfile) : attempt RuleSet :=
  match suggest_columns (profile_columns p) [] with
  | Returned cols =>
      Returned {| global_rules :=
                    Some {| g_standardize_column_names := None;
                            g_drop_duplicates := Some true |};
                  rule_columns := Some cols |}
  | AttributeError => AttributeError
  end.

(** A rule the suggestion step can produce. *)
Definition well_suggested (rule : Rule) : Prop :=
  r_type rule = None
  /\ rule_nonempty rule = true
  /\ (r_drop rule = Some true -> r_missing rule = None)
  /\ (r_drop rule = None \/ r_drop rule = Some true).

(** * Properties *)

(** ** Type inference *)

Section TypeInference.
Context `{Pandas}.

Lemma count_true_map_notna (l : list cell) :
  length (filter (fun b => b = true) (map notna l))
  = length (filter (fun c => notna c = true) l).
Proof.
  induction l as [|c l IH]; [done|].
  simpl. rewrite !filter_cons. destruct (notna c); simpl; by rewrite IH.
Qed.

Lemma mask_mean_ge (m : list bool) (a b : positive) :
  fge (mask_mean m) (Some (Z.pos a # b)) = true
  <-> m <> [] /\
      (Z.pos a * Z.of_nat (length m)
       <= Z.pos b * Z.of_nat (length (filter (fun x => x = true) m)))%Z.
Proof.
  destruct m as [|x m]; simpl.
  - split; [done | by intros [? _]].
  - set (k := length (filter (fun b0 => b0 = true) (x :: m))).
    rewrite Qle_bool_iff, Qred_correct.
    unfold Qle; simpl.
    replace (Z.pos (Pos.of_nat (S (length m)))) with (Z.of_nat (S (length m)))
      by (rewrite <- positive_nat_Z, Nat2Pos.id; done).
    split.
    + intros Hle. split; [done|]. lia.
    + intros [_ Hle]. lia.
Qed.

Lemma try_parse_datetime_spec (s : Series) :
  try_parse_datetime s default_threshold = true
  <-> values s <> [] /\ 7 * length (values s) <= 10 * parsed_count s.
Proof.
  unfold try_parse_datetime, default_threshold, parsed_count.
  rewrite mask_mean_ge, length_map, count_true_map_notna.
  simpl. rewrite length_map.
  split; intros [Hne Hle]; split; try lia.
  - intros E. apply Hne. by rewrite E.
  - intros E. apply Hne. by destruct (values s).
Qed.

Lemma infer_datetime_iff (s : Series) :
  infer_column_type s = "datetime" <-> try_parse_datetime s default_threshold = true.
Proof.
  unfold infer_column_type.
  destruct (try_parse_datetime s default_threshold); [done|].
  split; [|done].
  destruct (char_in _ _); [done|]. by destruct (Nat.leb _ _).
Qed.

(** C3, as the code has it: a column is classified datetime exactly
    when it is not empty and at least 0.7 of ALL its values, the
    missing ones counted in the denominator, are turned into a
    timestamp. *)
Theorem infer_datetime_fraction_of_all (s : Series) :
  infer_column_type s = "datetime"
  <-> values s <> [] /\ 7 * length (values s) <= 10 * parsed_count s.
Proof. rewrite infer_datetime_iff. apply try_parse_datetime_spec. Qed.

Lemma parsed_count_numbers (s : Series) :
  Forall (fun c => exists q, c = Num q
                   /\ (Timestamp_min <= Qtrunc q <= Timestamp_max)%Z) (values s) ->
  parsed_count s = length (values s).
Proof.
  unfold parsed_count. simpl. induction 1 as [|c l (q & -> & Hlo & Hhi) _ IH]; [done|].
  simpl. rewrite filter_cons.
  apply Z.leb_le in Hlo, Hhi. rewrite Hlo, Hhi. simpl. by rewrite IH.
Qed.

(** Every non-empty column of numbers within the range of a Timestamp is
    taken for a datetime column, whatever its dtype. *)
Lemma infer_numbers_datetime (s : Series) :
  values s <> [] ->
  Forall (fun c => exists q, c = Num q
                   /\ (Timestamp_min <= Qtrunc q <= Timestamp_max)%Z) (values s) ->
  infer_column_type s = "datetime".
Proof.
  intros Hne Hall. apply infer_datetime_iff, try_parse_datetime_spec.
  split; [done|]. rewrite (parsed_count_numbers s Hall). lia.
Qed.

(** C2, integer column [1,2,2,3,1]: [pd.to_datetime] reads the numbers
    as nanoseconds since the epoch, the datetime step claims the
    column, and the numeric check that would have accepted it is never
    reached. *)
Theorem infer_integer_column_is_datetime :
  let s := {| dtype_of := Int64; values := [Num 1; Num 2; Num 2; Num 3; Num 1] |} in
  infer_column_type s = "datetime"
  /\ try_parse_datetime s default_threshold = true
  /\ char_in (kind (dtype_of s)) "iuf" = true.
Proof. by vm_compute. Qed.

End TypeInference.

(** C3 fails as stated: two parsable dates and two missing values.  All
    the non-missing values parse, yet the column is not datetime because
    only half of all the values do. *)
Lemma infer_datetime_counts_missing :
  let s := {| dtype_of := Object;
              values := [Str "2024-01-01"; Str "2024-01-02"; NA; NA] |} in
  let infer := @infer_column_type Text.pandas in
  let fraction := @parsed_fraction_of_present Text.pandas in
  fge (fraction s) (Some (7 # 10)) = true
  /\ infer s = "categorical"
  /\ ~ (infer s = "datetime" <-> fge (fraction s) (Some (7 # 10)) = true).
Proof.
  split; [by vm_compute|]. split; [by vm_compute|].
  intros [_ Himp]. specialize (Himp eq_refl). vm_compute in Himp. discriminate.
Qed.

(** ** Reasoning about fallible computations *)

Lemma bind_Ok {A B} (m : result A) (k : A -> result B) (b : B) :
  m ≫= k = Ok b <-> exists a, m = Ok a /\ k a = Ok b.
Proof.
  destruct m as [a|e]; simpl.
  - split; [by exists a | by intros (? & [= <-] & ?)].
  - split; [done | by intros (? & ? & ?)].
Qed.

Ltac inv_bind H :=
  repeat match type of H with
  | _ ≫= _ = Ok _ =>
      let a := fresh "a" in
      let E := fresh "E" in
      apply bind_Ok in H as (a & E & H)
  | mret _ = Ok _ => injection H as H
  | Ok _ = Ok _ => injection H as H
  end.

(** ** The profiler's outlier summary *)

Lemma mapM_compare_cell op x (l : list cell) (m : list bool) :
  mapM (compare_cell op x) l = Ok m ->
  m = map (fun c => match c, x with
                    | Num v, Some b => op v b
                    | _, _ => false
                    end) l.
Proof.
  revert m. induction l as [|c l IH]; intros m Hm; simpl in Hm.
  - by injection Hm as <-.
  - inv_bind Hm. subst m. simpl. f_equal; [|by apply IH].
    destruct c; simpl in E; try discriminate; injection E as <-; by destruct x.
Qed.

Lemma compare_Ok op (s : Series) x (m : list bool) :
  compare op s x = Ok m ->
  m = map (fun c => match c, x with
                    | Num v, Some b => op v b
                    | _, _ => false
                    end) (values s).
Proof.
  unfold compare. destruct (dtype_of s); try discriminate; apply mapM_compare_cell.
Qed.

Lemma bool_index_map_filter {A} (f : A -> bool) (l : list A) :
  bool_index l (map f l) = filter (fun x => f x = true) l.
Proof.
  induction l as [|x l IH]; [done|].
  simpl. rewrite filter_cons. destruct (f x); simpl; by rewrite IH.
Qed.

Lemma zip_with_map_same {A B C D} (g : B -> C -> D) (f1 : A -> B) (f2 : A -> C) (l : list A) :
  zip_with g (map f1 l) (map f2 l) = map (fun x => g (f1 x) (f2 x)) l.
Proof. induction l as [|x l IH]; [done|]. simpl. by rewrite IH. Qed.

Lemma filter_filter_notna_outside lower upper (l : list cell) :
  filter (fun c => notna c = true) (filter (fun c => strictly_outside lower upper c = true) l)
  = filter (fun c => strictly_outside lower upper c = true) l.
Proof.
  induction l as [|c l IH]; [done|].
  rewrite (filter_cons _ c l). destruct c; simpl; try done.
  case_decide; [|done]. rewrite filter_cons. simpl. by rewrite IH.
Qed.

Lemma length_filter_outside_le lower upper (l : list cell) :
  length (filter (fun c => strictly_outside lower upper c = true) l)
  + length (filter (fun c => isna c = true) l) <= length l.
Proof.
  induction l as [|c l IH]; [done|].
  rewrite !filter_cons. destruct c; simpl; repeat case_decide; simpl; try done; lia.
Qed.

Section ProfilerFacts.
Context `{Pandas}.

(** What [_outlier_info] counts: the cells strictly outside the IQR
    bounds of the non-missing values. *)
Lemma outlier_info_count (series : Series) (info : OutlierInfo) :
  _outlier_info series = Ok (Some info) ->
  exists lower upper,
    calculate_iqr_bounds (dropna series) = Ok (lower, upper)
    /\ outlier_count info
       = length (filter (fun c => strictly_outside lower upper c = true) (values series)).
Proof.
  unfold _outlier_info. destruct (negb _); [discriminate|].
  intros Hi. inv_bind Hi. destruct a as [lower upper]. inv_bind Hi.
  exists lower, upper. split; [done|].
  subst info. simpl.
  apply compare_Ok in E0, E1. subst a a0.
  rewrite zip_with_map_same.
  rewrite (bool_index_map_filter (strictly_outside lower upper)).
  by rewrite filter_filter_notna_outside.
Qed.

Lemma outlier_count_le_present (series : Series) (info : OutlierInfo) :
  _outlier_info series = Ok (Some info) ->
  outlier_count info <= length (values series) - isna_sum series.
Proof.
  intros (lower & upper & _ & ->)%outlier_info_count.
  unfold isna_sum.
  pose proof (length_filter_outside_le lower upper (values series)). lia.
Qed.

End ProfilerFacts.

Lemma dict_get_set {V} (k k' : string) (v : V) (d : list (string * V)) :
  dict_get k (dict_set k' v d) = if String.eqb k k' then Some v else dict_get k d.
Proof.
  induction d as [|[k0 v0] d IH]; simpl.
  - done.
  - destruct (String.eqb k' k0) eqn:E0; simpl.
    + apply String.eqb_eq in E0 as <-. by destruct (String.eqb k k').
    + rewrite IH. destruct (String.eqb k k') eqn:E1; [|done].
      apply String.eqb_eq in E1 as ->. by rewrite E0.
Qed.

Lemma get_column_length (df : DataFrame) (col : string) (s : Series) :
  get_column df col = Ok s -> length (values s) = len df.
Proof.
  unfold get_column. destruct (index_of _ _); [|discriminate].
  destruct (Nat.eqb _ 1); [|discriminate].
  intros [= <-]. simpl. by rewrite length_map.
Qed.

Section ProfileFacts.
Context `{Pandas}.

Lemma column_profile_fields (s : Series) (cp : ColumnProfile) :
  column_profile s = Ok cp ->
  missing_count cp = isna_sum s /\ _outlier_info s = Ok (outlier_info cp).
Proof.
  unfold column_profile. intros Hp. inv_bind Hp. by subst cp.
Qed.

(** Every entry of the profile was computed from the column of that
    name, unless it was in the dictionary before the loop. *)
Lemma profile_loop_entry (df : DataFrame) (cols : list string) acc res col cp :
  profile_loop df cols acc = Ok res ->
  dict_get col res = Some cp ->
  dict_get col acc = Some cp
  \/ exists s, get_column df col = Ok s /\ column_profile s = Ok cp.
Proof.
  revert acc. induction cols as [|c cols IH]; intros acc Hl Hg; simpl in Hl.
  - injection Hl as <-. by left.
  - inv_bind Hl. destruct (IH _ Hl Hg) as [Hacc|Hnew]; [|by right].
    rewrite dict_get_set in Hacc.
    destruct (String.eqb col c) eqn:Ec; [|by left].
    apply String.eqb_eq in Ec as ->. injection Hacc as ->.
    right. by exists a.
Qed.

(** C9: in every column profile that carries an outlier summary, the
    outliers counted are non-missing cells, so their number is at most
    the row count minus the missing count. *)
Theorem profile_outlier_count_le_present
    (df : DataFrame) (p : DatasetProfile) (col : string)
    (cp : ColumnProfile) (info : OutlierInfo) :
  profile df = Ok p ->
  dict_get col (profile_columns p) = Some cp ->
  outlier_info cp = Some info ->
  (exists series lower upper,
      get_column df col = Ok series
      /\ calculate_iqr_bounds (dropna series) = Ok (lower, upper)
      /\ outlier_count info
         = length (filter (fun c => strictly_outside lower upper c = true)
                     (values series))
      /\ strictly_outside lower upper NA = false)
  /\ outlier_count info <= fst (profile_shape p) - missing_count cp.
Proof.
  unfold profile. intros Hp Hg Hi. inv_bind Hp. subst p. simpl in *.
  destruct (profile_loop_entry _ _ _ _ _ _ E Hg) as [Hacc|(s & Hs & Hcp)];
    [discriminate|].
  apply column_profile_fields in Hcp as [Hm Ho]. rewrite Hi in Ho.
  split.
  - destruct (outlier_info_count _ _ Ho) as (lower & upper & Hb & Hc).
    by exists s, lower, upper.
  - rewrite Hm, <- (get_column_length _ _ _ Hs).
    by apply outlier_count_le_present.
Qed.

End ProfileFacts.

(** C9, on a frame with one missing cell and one extreme value. *)
Lemma profile_outlier_count_le_present_witness :
  let df := {| schema := [("age", Float64)];
               rows := [[Num 25]; [Num 30]; [NA]; [Num 40]; [Num 1000]] |} in
  exists p cp info,
    @profile Text.pandas df = Ok p
    /\ dict_get "age" (profile_columns p) = Some cp
    /\ outlier_info cp = Some info
    /\ outlier_count info = 1
    /\ outlier_count info <= fst (profile_shape p) - missing_count cp.
Proof.
  intros df. eexists _, _, _.
  split; [reflexivity|]. split; [reflexivity|]. split; [reflexivity|].
  split; [reflexivity|].
  refine (proj2 (profile_outlier_count_le_present df _ "age" _ _ _ _ _));
    reflexivity.
Defined.

(** ** Running the engine symbolically *)

Ltac exec :=
  unfold standardize_column_names, self_column, self_set_column;
  unfold mbind, M_bind, mret, M_ret, lift, load, store, alloc, get_self_df,
    set_self_df, audit, get_audit_log;
  simpl.

(** ** Duplicate removal *)

Lemma first_occurrences_idempotent (seen rs : list (list cell)) :
  first_occurrences seen (first_occurrences seen rs) = first_occurrences seen rs.
Proof.
  revert seen. induction rs as [|r rs IH]; intros seen; simpl; [done|].
  destruct (existsb (row_eqb r) seen) eqn:E; [apply IH|].
  simpl. rewrite E. f_equal. apply IH.
Qed.

Lemma drop_duplicates_idempotent (df : DataFrame) :
  drop_duplicates (drop_duplicates df) = drop_duplicates df.
Proof.
  unfold drop_duplicates. destruct (empty df) eqn:E; [by rewrite E|].
  unfold empty, len in *. simpl.
  destruct (rows df) as [|r rs]; [done|]. simpl in *. rewrite E.
  f_equal. exact (first_occurrences_idempotent [] (r :: rs)).
Qed.

Section DuplicateRemoval.
Context `{Pandas}.

Lemma run_drop_duplicates_only (h : gmap loc DataFrame) (r : loc) (df : DataFrame)
    (rules : RuleSet) (g : GlobalRules) :
  h !! r = Some df ->
  global_rules rules = Some g ->
  truthy (g_standardize_column_names g) = false ->
  truthy (g_drop_duplicates g) = true ->
  default [] (rule_columns rules) = [] ->
  returned (run h r rules)
  = Some (drop_duplicates df,
          ["Dropped " +:+ pretty (len df - len (drop_duplicates df)) +:+ " duplicate rows"]).
Proof.
  intros Hr Hg Hs Hd Hc.
  unfold run, apply, _apply_global_rules, returned.
  rewrite Hg, Hc. unfold __init__. exec. rewrite Hs, Hd. simpl.
  by rewrite !lookup_total_insert_eq, (lookup_total_correct _ _ _ Hr).
Qed.

(** C8: with only [drop_duplicates] switched on, the engine returns the
    frame without repeated rows; run again on that result it returns the
    same frame and logs that zero rows were dropped. *)
Theorem drop_duplicates_twice (h : gmap loc DataFrame) (r : loc) (df : DataFrame)
    (rules : RuleSet) (g : GlobalRules) :
  h !! r = Some df ->
  global_rules rules = Some g ->
  truthy (g_standardize_column_names g) = false ->
  truthy (g_drop_duplicates g) = true ->
  default [] (rule_columns rules) = [] ->
  exists df1 log1,
    returned (run h r rules) = Some (df1, log1)
    /\ df1 = drop_duplicates df
    /\ forall (h' : gmap loc DataFrame) (r' : loc),
         h' !! r' = Some df1 ->
         returned (run h' r' rules) = Some (df1, ["Dropped 0 duplicate rows"]).
Proof.
  intros Hr Hg Hs Hd Hc. eexists _, _.
  split; [by eapply run_drop_duplicates_only|]. split; [done|].
  intros h' r' Hr'.
  rewrite (run_drop_duplicates_only h' r' _ rules g Hr' Hg Hs Hd Hc).
  by rewrite drop_duplicates_idempotent, Nat.sub_diag.
Qed.

End DuplicateRemoval.

(** C8 on a frame whose third row repeats the first. *)
Lemma drop_duplicates_twice_witness :
  let df := {| schema := [("a", Int64); ("b", Object)];
               rows := [[Num 1; Str "x"]; [Num 2; Str "y"]; [Num 1; Str "x"]] |} in
  let rules := {| global_rules :=
                    Some {| g_standardize_column_names := None;
                            g_drop_duplicates := Some true |};
                  rule_columns := None |} in
  exists df1 log1,
    returned (@run Text.pandas {[ 1%positive := df ]} 1%positive rules) = Some (df1, log1)
    /\ df1 = drop_duplicates df
    /\ forall (h' : gmap loc DataFrame) (r' : loc),
         h' !! r' = Some df1 ->
         returned (@run Text.pandas h' r' rules) = Some (df1, ["Dropped 0 duplicate rows"]).
Proof.
  intros df rules.
  apply (@drop_duplicates_twice Text.pandas {[ 1%positive := df ]} 1%positive df rules
           {| g_standardize_column_names := None; g_drop_duplicates := Some true |});
    reflexivity.
Defined.

(** ** Rulesets without a [columns] key *)

Section MissingKeys.
Context `{Pandas}.

Lemma apply_global_rules_returns (rules : RuleSet) (g : GlobalRules) (st : State) :
  global_rules rules = Some g ->
  exists (st' : State) (n : nat),
    _apply_global_rules rules st = (st', Ok ())
    /\ self_audit_log st'
       = self_audit_log st
         ++ (if truthy (g_standardize_column_names g)
             then ["Standardized column names"] else [])
         ++ (if truthy (g_drop_duplicates g)
             then ["Dropped " +:+ pretty n +:+ " duplicate rows"] else []).
Proof.
  intros Hg. unfold _apply_global_rules. rewrite Hg. exec.
  destruct (truthy (g_standardize_column_names g));
    destruct (truthy (g_drop_duplicates g)); simpl;
    [eexists _, _ | eexists _, 0 | eexists _, _ | eexists _, 0];
    (split; [reflexivity|]); simpl;
    rewrite <- ?app_assoc, ?app_nil_r; reflexivity.
Qed.

(** C10: a ruleset with [global_rules] and no [columns] key is accepted:
    the call returns what the global phase left, frame and audit log,
    and the log holds the global entries only.  Without [global_rules]
    the call raises KeyError, whatever [columns] holds. *)
Theorem apply_without_columns_key (h : gmap loc DataFrame) (df : loc) (g : GlobalRules) :
  let rules := {| global_rules := Some g; rule_columns := None |} in
  (exists (st' : State) (n : nat),
      _apply_global_rules rules (__init__ h df) = (st', Ok ())
      /\ run h df rules = (st', Ok (self_df st', self_audit_log st'))
      /\ self_audit_log st'
         = (if truthy (g_standardize_column_names g)
            then ["Standardized column names"] else [])
           ++ (if truthy (g_drop_duplicates g)
               then ["Dropped " +:+ pretty n +:+ " duplicate rows"] else []))
  /\ (forall cols,
        run h df {| global_rules := None; rule_columns := cols |}
        = (__init__ h df, Raise KeyError)).
Proof.
  intros rules. split.
  - destruct (apply_global_rules_returns rules g (__init__ h df) eq_refl)
      as (st' & n & Hrun & Hlog).
    exists st', n. split; [done|]. split; [|done].
    unfold run, apply. simpl.
    unfold mbind at 1. unfold M_bind at 1. rewrite Hrun. by exec.
  - intros cols. reflexivity.
Qed.

End MissingKeys.

(** ** Dropping a column *)

Lemma bool_index_fst {A B} (l : list (A * B)) (mask : list bool) :
  (bool_index l mask).*1 = bool_index (l.*1) mask.
Proof.
  revert mask. induction l as [|x l IH]; intros [|b mask]; simpl; try done.
  destruct b; simpl; by rewrite IH.
Qed.

Lemma columns_drop_column (col : string) (df : DataFrame) :
  columns (drop_column col df)
  = filter (fun c => String.eqb col c = false) (columns df).
Proof.
  unfold drop_column, columns. simpl. rewrite bool_index_fst.
  induction (schema df).*1 as [|c l IH]; [done|].
  simpl. rewrite filter_cons. destruct (String.eqb col c); simpl; by rewrite IH.
Qed.


Section DropColumn.
Context `{Pandas}.


End DropColumn.


(** ** The caller's frames are never written *)

Lemma fresh_not_in_sub (h h' : gmap loc DataFrame) :
  h ⊆ h' -> fresh (dom h') ∉ dom h.
Proof.
  intros Hsub Hin. apply (is_fresh (dom h')).
  by apply (subseteq_dom h h').
Qed.

Lemma untouched_write (h : gmap loc DataFrame) (st : State) (df : DataFrame) log :
  untouched h st ->
  untouched h {| heap := <[self_df st := df]> (heap st);
                 self_df := self_df st; self_audit_log := log |}.
Proof.
  intros [Hsub Hself]. split; [|done]. simpl.
  apply insert_subseteq_r; [|done]. by apply not_elem_of_dom.
Qed.

Lemma untouched_new (h : gmap loc DataFrame) (st : State) (df : DataFrame) log :
  untouched h st ->
  untouched h {| heap := <[fresh (dom (heap st)) := df]> (heap st);
                 self_df := fresh (dom (heap st)); self_audit_log := log |}.
Proof.
  intros [Hsub Hself]. split; simpl; [|by apply fresh_not_in_sub].
  apply insert_subseteq_r; [|done].
  apply not_elem_of_dom. by apply fresh_not_in_sub.
Qed.

Lemma untouched_log (h : gmap loc DataFrame) (st : State) log :
  untouched h st ->
  untouched h {| heap := heap st; self_df := self_df st; self_audit_log := log |}.
Proof. by intros [Hsub Hself]. Qed.

Lemma keeps_bind h {A B} (m : M A) (k : A -> M B) :
  keeps h m -> (forall a, keeps h (k a)) -> keeps h (m ≫= k).
Proof.
  intros Hm Hk st Hst. specialize (Hm st Hst).
  unfold mbind, M_bind. destruct (m st) as [st' [a|e]]; simpl in *; [|done].
  by apply Hk.
Qed.

Lemma keeps_ret h {A} (a : A) : keeps h (mret a).
Proof. by intros st Hst. Qed.

Lemma keeps_for_each h {A} (xs : list A) (body : A -> M unit) :
  (forall x, keeps h (body x)) -> keeps h (for_each xs body).
Proof.
  intros Hbody. induction xs as [|x xs IH]; simpl.
  - apply keeps_ret.
  - apply keeps_bind; [apply Hbody | by intros _].
Qed.

Ltac keep_cases :=
  repeat case_match; simplify_eq/=;
  auto using untouched_write, untouched_new, untouched_log.

Section Frame.
Context `{Pandas}.

Lemma handle_type_cast_keeps h col rule : keeps h (_handle_type_cast col rule).
Proof. intros st Hst. unfold _handle_type_cast. exec. keep_cases. Qed.

Lemma handle_missing_keeps h col rule : keeps h (_handle_missing col rule).
Proof.
  intros st Hst. unfold _handle_missing.
  destruct (r_missing rule ≫= m_strategy) as [[|c strategy]|]; [done| |done].
  repeat match goal with
         | |- context [if String.eqb ?a ?b then _ else _] => destruct (String.eqb a b)
         end; exec; keep_cases.
Qed.

Lemma handle_outliers_keeps h col rule : keeps h (_handle_outliers col rule).
Proof.
  intros st Hst. unfold _handle_outliers.
  destruct (negb _); [done|]. exec. keep_cases.
Qed.

Lemma apply_column_keeps h entry : keeps h (apply_column entry).
Proof.
  destruct entry as [col rule]. intros st Hst. unfold apply_column. exec.
  destruct (has_column _ _); simpl; [|done].
  destruct (truthy _); simpl; [by apply untouched_write|].
  pose proof (handle_type_cast_keeps h col rule st Hst) as H1.
  destruct (_handle_type_cast col rule st) as [st1 [[]|e]]; simpl in *; [|done].
  pose proof (handle_missing_keeps h col rule st1 H1) as H2.
  destruct (_handle_missing col rule st1) as [st2 [[]|e]]; simpl in *; [|done].
  by apply handle_outliers_keeps.
Qed.

Lemma apply_global_rules_keeps h rules : keeps h (_apply_global_rules rules).
Proof.
  intros st Hst. unfold _apply_global_rules.
  destruct (global_rules rules) as [g|]; [|done]. exec.
  assert (Hstd : untouched h
    (if truthy (g_standardize_column_names g)
     then {| heap := <[fresh (dom (heap st)) :=
                        {| schema := map (fun '(c, t) => (standardize_label c, t))
                                       (schema (heap st !!! self_df st));
                           rows := rows (heap st !!! self_df st) |}]>
                       (<[fresh (dom (heap st)) := heap st !!! self_df st]> (heap st));
             self_df := fresh (dom (heap st));
             self_audit_log := self_audit_log st ++ ["Standardized column names"] |}
     else st)).
  { destruct (truthy _); [|done].
    pose proof (untouched_new h st (heap st !!! self_df st) (self_audit_log st) Hst)
      as Hcopy.
    exact (untouched_write h _
             {| schema := map (fun '(c, t) => (standardize_label c, t))
                            (schema (heap st !!! self_df st));
                rows := rows (heap st !!! self_df st) |}
             (self_audit_log st ++ ["Standardized column names"]) Hcopy). }
  destruct (truthy (g_standardize_column_names g)); simpl;
    destruct (truthy (g_drop_duplicates g)); simpl; try done.
  - by apply (untouched_new h _ _ _ Hstd).
  - by apply untouched_new.
Qed.

(** The heap the engine starts from: the caller's memory and a copy of
    the caller's frame. *)
Lemma init_untouched (h : gmap loc DataFrame) (df : loc) : untouched h (__init__ h df).
Proof.
  unfold __init__. split; simpl.
  - apply insert_subseteq_r; [|done]. apply not_elem_of_dom, is_fresh.
  - apply is_fresh.
Qed.

Lemma apply_keeps h rules : keeps h (apply rules).
Proof.
  unfold apply.
  apply keeps_bind; [apply apply_global_rules_keeps|intros _].
  apply keeps_bind; [apply keeps_for_each, apply_column_keeps|intros _].
  by intros st Hst.
Qed.

(** C7: whatever the ruleset, and whether the call returns or raises,
    every frame of the caller's memory, the one passed in among them, is
    the same after [RuleEngine(df, rules).apply()] as before; the frame
    the engine works on and returns is a different object. *)
Theorem apply_never_mutates_caller (h : gmap loc DataFrame) (df : loc) (d : DataFrame)
    (rules : RuleSet) :
  h !! df = Some d ->
  heap (run h df rules).1 !! df = Some d
  /\ h ⊆ heap (run h df rules).1
  /\ self_df (run h df rules).1 <> df.
Proof.
  intros Hdf.
  destruct (apply_keeps h rules (__init__ h df) (init_untouched h df)) as [Hsub Hself].
  fold (run h df rules) in Hsub, Hself.
  split; [by eapply lookup_weaken|]. split; [done|].
  intros Heq. apply Hself. rewrite Heq. by apply elem_of_dom.
Qed.

End Frame.

(** C7 on a run that fills, filters and drops: the caller's frame still
    holds its missing cell, its extreme value and both columns. *)
Lemma apply_never_mutates_caller_witness :
  let d := {| schema := [("age", Float64); ("tmp", Object)];
              rows := [[Num 25; Str "a"]; [Num 30; Str "b"]; [NA; Str "c"];
                       [Num 40; Str "d"]; [Num 1000; Str "e"]] |} in
  let rules :=
    {| global_rules := Some {| g_standardize_column_names := Some true;
                               g_drop_duplicates := Some true |};
       rule_columns := Some [
         ("age", {| r_drop := None; r_type := None;
                    r_missing := Some {| m_strategy := Some "mean"; m_value := None |};
                    r_outliers := Some {| o_method := Some "iqr" |} |});
         ("tmp", {| r_drop := Some true; r_type := None; r_missing := None;
                    r_outliers := None |})] |} in
  let h : gmap loc DataFrame := {[ 1%positive := d ]} in
  heap (@run Text.pandas h 1%positive rules).1 !! 1%positive = Some d
  /\ h ⊆ heap (@run Text.pandas h 1%positive rules).1
  /\ self_df (@run Text.pandas h 1%positive rules).1 <> 1%positive.
Proof.
  intros d rules h.
  apply (@apply_never_mutates_caller Text.pandas h 1%positive d rules).
  reflexivity.
Defined.

(** ** Outlier removal by the engine *)

Section OutlierRemoval.
Context `{Pandas}.

(** The rows [_handle_outliers] retains are those whose cell is a number
    within the bounds; a row whose cell is missing is removed, and with
    undefined bounds every row is. *)
Lemma handle_outliers_rows (col : string) (rule : Rule) (st : State)
    (s : Series) (lower upper : float) :
  outliers_truthy (r_outliers rule) = true ->
  get_column (heap st !!! self_df st) col = Ok s ->
  calculate_iqr_bounds (dropna s) = Ok (lower, upper) ->
  forall st' res,
    _handle_outliers col rule st = (st', res) ->
    res = Ok () ->
    rows (heap st' !!! self_df st')
    = bool_index (rows (heap st !!! self_df st))
        (map (within_bounds lower upper) (values s)).
Proof.
  intros Ht Hs Hb st' res. unfold _handle_outliers. rewrite Ht. exec.
  rewrite Hs, Hb. simpl. rewrite Hs.
  destruct (compare Qge_bool s lower) as [ge|] eqn:Hge; simpl;
    [|by intros [= _ <-]].
  destruct (compare Qle_bool s upper) as [le|] eqn:Hle; simpl;
    [|by intros [= _ <-]].
  intros [= <- _] _. simpl. rewrite lookup_total_insert_eq. simpl.
  apply compare_Ok in Hge, Hle. subst ge le.
  rewrite zip_with_map_same. f_equal.
  apply map_ext. intros [|v| |]; simpl; try done;
    destruct lower, upper; simpl; try done.
  by rewrite andb_false_r.
Qed.

End OutlierRemoval.

(** C1 fails on the code.  A column [1, 2, missing, 3] has bounds
    [[0, 4]], no value lies outside them, yet the engine removes the row
    with the missing cell and reports it as an outlier; on an all-missing
    column it removes every row. *)
Theorem handle_outliers_removes_missing_rows :
  let rules := {| global_rules := Some no_global_rules;
                  rule_columns := Some [("x", outliers_only)] |} in
  let df1 := {| schema := [("x", Float64)];
                rows := [[Num 1]; [Num 2]; [NA]; [Num 3]] |} in
  let df2 := {| schema := [("x", Float64); ("y", Object)];
                rows := [[NA; Str "a"]; [NA; Str "b"]] |} in
  calculate_iqr_bounds {| dtype_of := Float64; values := [Num 1; Num 2; Num 3] |}
  = Ok (Some 0%Q, Some (4 # 1))
  /\ filter (fun r => strictly_outside (Some 0%Q) (Some (4 # 1)) (nth 0 r NA) = true)
       (rows df1) = []
  /\ returned (@run Text.pandas {[ 1%positive := df1 ]} 1%positive rules)
     = Some ({| schema := [("x", Float64)]; rows := [[Num 1]; [Num 2]; [Num 3]] |},
             ["x: removed 1 outliers using IQR"])
  /\ returned (@run Text.pandas {[ 1%positive := df2 ]} 1%positive rules)
     = Some ({| schema := [("x", Float64); ("y", Object)]; rows := [] |},
             ["x: removed 2 outliers using IQR"]).
Proof. repeat split; by vm_compute. Qed.

(** ** Missing-value strategies on a column without values *)

Lemma index_of_lookup (col : string) (l : list string) (j : nat) :
  index_of col l = Some j -> l !! j = Some col.
Proof.
  revert j. induction l as [|c l IH]; intros j; simpl; [done|].
  destruct (String.eqb col c) eqn:E.
  - intros [= <-]. apply String.eqb_eq in E. by subst.
  - destruct (index_of col l) as [i|]; [|done]. intros [= <-]. by apply IH.
Qed.

Lemma insert_nth_same (j : nat) (r : list cell) : <[j := nth j r NA]> r = r.
Proof.
  destruct (nth_lookup_or_length r j NA) as [Hin|Hout].
  - by apply list_insert_id.
  - by apply list_insert_ge.
Qed.

Lemma set_cells_same (j : nat) (rs : list (list cell)) :
  set_cells j rs (map (fun r => nth j r NA) rs) = rs.
Proof.
  induction rs as [|r rs IH]; [done|]. simpl. by rewrite insert_nth_same, IH.
Qed.

(** Writing back the column just read leaves the frame as it is. *)
Lemma set_column_get_column (df : DataFrame) (col : string) (s : Series) :
  get_column df col = Ok s -> set_column col s df = df.
Proof.
  unfold get_column, set_column.
  destruct (index_of col (columns df)) as [j|] eqn:Hj; [|done].
  destruct (Nat.eqb _ 1); [|done]. intros [= <-]. simpl.
  apply index_of_lookup in Hj. unfold columns in Hj.
  rewrite list_lookup_fmap in Hj.
  destruct (schema df !! j) as [[c t]|] eqn:Hs; [|done].
  injection Hj as ->. simpl.
  rewrite set_cells_same, (list_insert_id _ _ _ Hs). by destruct df.
Qed.

Lemma numbers_all_missing (l : list cell) :
  Forall (fun c => c = NA) l -> numbers l = Ok [].
Proof. induction 1 as [|c l -> _ IH]; [done|]. by simpl. Qed.

Lemma isna_sum_all_missing (s : Series) :
  Forall (fun c => c = NA) (values s) -> isna_sum s = length (values s).
Proof.
  unfold isna_sum. induction 1 as [|c l -> _ IH]; [done|].
  rewrite filter_cons. simpl. by rewrite IH.
Qed.

Lemma for_each_app {A} (xs ys : list A) (body : A -> M unit) (st : State) :
  for_each (xs ++ ys) body st
  = match for_each xs body st with
    | (st1, Ok _) => for_each ys body st1
    | (st1, Raise e) => (st1, Raise e)
    end.
Proof.
  revert st. induction xs as [|x xs IH]; intros st; simpl; [done|].
  unfold mbind, M_bind. destruct (body x st) as [st1 [[]|e]]; [apply IH|done].
Qed.

Section MissingStrategies.
Context `{Pandas}.

(** C4, as the code has it.  Mean or median on a float column that holds
    only missing cells fills nothing: the call returns, the state keeps its
    frames and gains the audit entry "(n → n)".  The columns of the
    ruleset are handled in order, each from the state its predecessors
    left; when one of them raises, the call stops there with that
    exception. *)
Theorem handle_missing_on_all_missing_column
    (col : string) (rule : Rule) (st : State) (df : DataFrame) (s : Series)
    (strategy : string) :
  heap st !! self_df st = Some df ->
  r_missing rule ≫= m_strategy = Some strategy ->
  strategy = "mean" \/ strategy = "median" ->
  get_column df col = Ok s ->
  Forall (fun c => c = NA) (values s) ->
  dtype_of s = Float64 ->
  _handle_missing col rule st
  = ({| heap := heap st;
        self_df := self_df st;
        self_audit_log :=
          self_audit_log st
          ++ [col +:+ ": missing handled (" +:+ pretty (len df) +:+ " → "
              +:+ pretty (len df) +:+ ") using " +:+ strategy] |}, Ok ())
  /\ (forall (before after : list (string * Rule)) (entry : string * Rule) (st0 : State),
        match for_each before apply_column st0 with
        | (st1, Ok _) =>
            for_each (before ++ entry :: after) apply_column st0
            = (apply_column entry ≫= fun _ => for_each after apply_column) st1
        | (st1, Raise e) =>
            for_each (before ++ entry :: after) apply_column st0 = (st1, Raise e)
        end).
Proof.
  intros Hdf Hstrat Hwhich Hs Hall Hfloat. split.
  - assert (Hnum : numeric_values s = Ok []).
    { unfold numeric_values. rewrite Hfloat. by apply numbers_all_missing. }
    assert (Hcur : heap st !!! self_df st = df) by by apply lookup_total_correct.
    unfold _handle_missing. rewrite Hstrat.
    destruct Hwhich as [-> | ->]; simpl; exec; rewrite Hcur, Hs; simpl;
      unfold mean, median; rewrite Hnum; simpl;
      rewrite (set_column_get_column _ _ _ Hs), lookup_total_insert_eq, Hs; simpl;
      rewrite (insert_id _ _ _ Hdf), (isna_sum_all_missing _ Hall),
        (get_column_length _ _ _ Hs); done.
  - intros before after entry st0. rewrite for_each_app.
    by destruct (for_each before apply_column st0) as [st1 [[]|e]].
Qed.

End MissingStrategies.

(** C4 at [rule = {missing: {strategy: mean}}] on an all-missing column. *)
Lemma handle_missing_on_all_missing_column_witness :
  let df := {| schema := [("a", Float64); ("b", Object)];
               rows := [[NA; Str "x"]; [NA; Str "y"]] |} in
  let st := {| heap := {[ 1%positive := df ]}; self_df := 1%positive;
               self_audit_log := [] |} in
  _handle_missing "a" (strategy_only "mean") st
  = ({| heap := {[ 1%positive := df ]}; self_df := 1%positive;
        self_audit_log := ["a: missing handled (2 → 2) using mean"] |}, Ok ()).
Proof.
  intros df st.
  refine (proj1 (@handle_missing_on_all_missing_column Text.pandas "a"
                   (strategy_only "mean") st df
                   {| dtype_of := Float64; values := [NA; NA] |} "mean"
                   _ _ _ _ _ _)).
  - reflexivity.
  - reflexivity.
  - left. reflexivity.
  - reflexivity.
  - by repeat constructor.
  - reflexivity.
Defined.

(** C4 fails as stated: [mode] on an all-missing column raises KeyError
    (the list of modes is empty), the call ends there, and the column
    [b] that the ruleset drops next is still in the frame.  The same
    happens when a rule asks for the mean of a text column: TypeError,
    and [b] is not handled. *)
Lemma mode_on_all_missing_column_raises :
  let df := {| schema := [("a", Float64); ("b", Object)];
               rows := [[NA; Str "x"]; [NA; Str "y"]] |} in
  let rules := {| global_rules := Some no_global_rules;
                  rule_columns := Some [("a", strategy_only "mode"); ("b", drop_only)] |} in
  let out := @run Text.pandas {[ 1%positive := df ]} 1%positive rules in
  let df' := {| schema := [("a", Object); ("b", Object)];
                rows := [[Str "u"; Str "x"]; [NA; Str "y"]] |} in
  let rules' := {| global_rules := Some no_global_rules;
                   rule_columns := Some [("a", strategy_only "mean"); ("b", drop_only)] |} in
  let out' := @run Text.pandas {[ 1%positive := df' ]} 1%positive rules' in
  (out.2 = Raise KeyError
   /\ heap out.1 !!! self_df out.1 = df
   /\ self_audit_log out.1 = []
   /\ has_column (heap out.1 !!! self_df out.1) "b" = true)
  /\ (out'.2 = Raise TypeError
      /\ heap out'.1 !!! self_df out'.1 = df'
      /\ self_audit_log out'.1 = []
      /\ has_column (heap out'.1 !!! self_df out'.1) "b" = true).
Proof. repeat split; by vm_compute. Qed.

(** ** The fill value of the [mode] strategy *)

Lemma cell_eqb_refl (a : cell) : cell_eqb a a = true.
Proof.
  destruct a; simpl; auto using Qeq_bool_refl, String.eqb_refl, Z.eqb_refl.
Qed.

Lemma cell_eqb_sym (a b : cell) : cell_eqb a b = cell_eqb b a.
Proof.
  destruct a, b; simpl; auto using Qeq_bool_comm, String.eqb_sym, Z.eqb_sym.
Qed.

Lemma cell_eqb_trans (a b c : cell) :
  cell_eqb a b = true -> cell_eqb b c = true -> cell_eqb a c = true.
Proof.
  destruct a, b, c; simpl; try done.
  - apply Qeq_bool_trans.
  - rewrite !String.eqb_eq. congruence.
  - rewrite !Z.eqb_eq. congruence.
Qed.

Lemma cell_eqb_congr (a b d : cell) :
  cell_eqb a b = true -> cell_eqb a d = cell_eqb b d.
Proof.
  intros Hab. destruct (cell_eqb b d) eqn:Hbd.
  - by eapply cell_eqb_trans.
  - destruct (cell_eqb a d) eqn:Had; [|done].
    rewrite <- Hbd. symmetry. eapply cell_eqb_trans; [|done].
    by rewrite cell_eqb_sym.
Qed.

Lemma count_cell_congr (a b : cell) (l : list cell) :
  cell_eqb a b = true -> count_cell a l = count_cell b l.
Proof.
  intros Hab. unfold count_cell. induction l as [|d l IH]; [done|].
  rewrite !filter_cons, (cell_eqb_congr a b d Hab).
  destruct (cell_eqb b d); simpl; by rewrite IH.
Qed.

Lemma string_compare_cons a s b t :
  String.compare (String a s) (String b t)
  = match (N_of_ascii a ?= N_of_ascii b)%N with
    | Eq => String.compare s t
    | Lt => Lt
    | Gt => Gt
    end.
Proof. reflexivity. Qed.

Lemma string_compare_trans_le (s1 s2 s3 : string) :
  String.compare s1 s2 <> Gt -> String.compare s2 s3 <> Gt ->
  String.compare s1 s3 <> Gt.
Proof.
  revert s2 s3. induction s1 as [|a s1 IH]; intros [|b s2] [|c s3]; try done.
  rewrite !string_compare_cons.
  destruct (N.compare_spec (N_of_ascii a) (N_of_ascii b)) as [Hab|Hab|Hab];
    destruct (N.compare_spec (N_of_ascii b) (N_of_ascii c)) as [Hbc|Hbc|Hbc];
    destruct (N.compare_spec (N_of_ascii a) (N_of_ascii c)) as [Hac|Hac|Hac];
    try done; try lia.
  apply IH.
Qed.

Lemma string_leb_trans (s1 s2 s3 : string) :
  String.leb s1 s2 = true -> String.leb s2 s3 = true -> String.leb s1 s3 = true.
Proof.
  unfold String.leb. intros H12 H23.
  pose proof (string_compare_trans_le s1 s2 s3) as Ht.
  destruct (String.compare s1 s2); destruct (String.compare s2 s3);
    destruct (String.compare s1 s3); try done; by exfalso; apply Ht.
Qed.

Lemma string_leb_refl (s : string) : String.leb s s = true.
Proof. by destruct (String.leb_total s s). Qed.

Lemma Qle_bool_refl (x : Q) : Qle_bool x x = true.
Proof. apply Qle_bool_iff, Qle_refl. Qed.

Lemma cell_leb_refl (a : cell) : cell_leb a a = true.
Proof.
  destruct a; simpl; auto using Qle_bool_refl, string_leb_refl, Z.leb_refl.
Qed.

Lemma cell_leb_total (a b : cell) : cell_leb a b = false -> cell_leb b a = true.
Proof.
  destruct a, b; simpl; try done.
  - intros Hf. apply Qle_bool_iff.
    destruct (Qlt_le_dec q0 q) as [Hlt|Hle]; [by apply Qlt_le_weak|].
    apply Qle_bool_iff in Hle. congruence.
  - intros Hf. destruct (String.leb_total s s0); congruence.
  - rewrite Z.leb_gt, Z.leb_le. lia.
Qed.

Lemma cell_leb_trans (a b c : cell) :
  same_type a b = true -> same_type b c = true ->
  cell_leb a b = true -> cell_leb b c = true -> cell_leb a c = true.
Proof.
  destruct a, b, c; simpl; try done.
  - rewrite !Qle_bool_iff. intros _ _. apply Qle_trans.
  - intros _ _. apply string_leb_trans.
  - rewrite !Z.leb_le. lia.
Qed.

Lemma cell_leb_eqb_r (a b c : cell) :
  cell_leb a b = true -> cell_eqb b c = true -> cell_leb a c = true.
Proof.
  destruct a, b, c; simpl; try done.
  - rewrite !Qle_bool_iff, Qeq_bool_iff. intros Hle Heq. by rewrite <- Heq.
  - rewrite String.eqb_eq. by intros ? <-.
  - rewrite Z.eqb_eq. by intros ? <-.
Qed.

Lemma elem_of_insert_cell (x y : cell) (l : list cell) :
  x ∈ insert_cell y l <-> x = y \/ x ∈ l.
Proof.
  induction l as [|z l IH]; simpl.
  - rewrite list_elem_of_singleton. split; [by left|].
    intros [->|Hx]; [done|]. by apply elem_of_nil in Hx.
  - destruct (cell_leb y z); [by rewrite elem_of_cons|].
    rewrite !elem_of_cons, IH. tauto.
Qed.

Lemma elem_of_sorted (x : cell) (l : list cell) :
  x ∈ foldr insert_cell [] l <-> x ∈ l.
Proof.
  induction l as [|y l IH]; simpl; [done|].
  rewrite elem_of_insert_cell, elem_of_cons, IH. tauto.
Qed.

Lemma one_type_tail (x : cell) (l : list cell) : one_type (x :: l) -> one_type l.
Proof. intros Hty a b Ha Hb. apply Hty; by right. Qed.

Lemma insert_cell_head_least (x : cell) (l : list cell) :
  one_type (x :: l) -> head_least l -> head_least (insert_cell x l).
Proof.
  intros Hty Hl. destruct l as [|y l]; simpl.
  - intros w ->%list_elem_of_singleton. apply cell_leb_refl.
  - destruct (cell_leb x y) eqn:Hxy.
    + intros w [->|Hw]%elem_of_cons; [apply cell_leb_refl|].
      apply (cell_leb_trans x y w); [| |done|by apply Hl].
      * apply Hty; [left|right; left].
      * apply Hty; [right; left|by right].
    + intros w [->|Hw]%elem_of_cons; [apply cell_leb_refl|].
      apply elem_of_insert_cell in Hw as [->|Hw]; [by apply cell_leb_total|].
      apply Hl. by right.
Qed.

Lemma sorted_head_least (l : list cell) :
  one_type l -> head_least (foldr insert_cell [] l).
Proof.
  induction l as [|x l IH]; intros Hty; simpl; [done|].
  apply insert_cell_head_least; [|by eapply IH, one_type_tail].
  intros a b Ha Hb. apply Hty.
  - apply elem_of_cons in Ha as [->|Ha]; [left|right]. by apply elem_of_sorted.
  - apply elem_of_cons in Hb as [->|Hb]; [left|right]. by apply elem_of_sorted.
Qed.

Lemma same_type_sym (a b : cell) : same_type a b = same_type b a.
Proof. by destruct a, b. Qed.

Lemma same_type_trans (a b c : cell) :
  same_type a b = true -> same_type b c = true -> same_type a c = true.
Proof. by destruct a, b, c. Qed.

Lemma homogeneous_one_type (l : list cell) : homogeneous l = true <-> one_type l.
Proof.
  destruct l as [|c l]; simpl.
  - split; [|done]. intros _ a b Ha. by apply elem_of_nil in Ha.
  - rewrite forallb_forall. split.
    + intros Hall a b Ha Hb.
      assert (Hc : forall d, d ∈ c :: l -> same_type c d = true).
      { intros d [->|Hd]%elem_of_cons; [by destruct c|].
        by apply Hall, list_elem_of_In. }
      apply (same_type_trans a c b); [|by apply Hc].
      rewrite same_type_sym. by apply Hc.
    + intros Hty d Hd%list_elem_of_In. apply Hty; [left|by right].
Qed.

Lemma unique_from_sub (seen l : list cell) (c : cell) :
  c ∈ unique_from seen l -> c ∈ l.
Proof.
  revert seen. induction l as [|d l IH]; intros seen; simpl; [done|].
  destruct (existsb (cell_eqb d) seen).
  - intros Hc. right. by eapply IH.
  - intros [->|Hc]%elem_of_cons; [left|right]. by eapply IH.
Qed.

Lemma unique_from_covers (seen l : list cell) (c : cell) :
  c ∈ l ->
  (exists u, u ∈ seen /\ cell_eqb c u = true)
  \/ (exists u, u ∈ unique_from seen l /\ cell_eqb c u = true).
Proof.
  revert seen. induction l as [|d l IH]; intros seen Hc; [by apply elem_of_nil in Hc|].
  simpl. destruct (existsb (cell_eqb d) seen) eqn:Hex.
  - apply elem_of_cons in Hc as [->|Hc]; [|by apply IH].
    left. apply existsb_exists in Hex as (u & Hu%list_elem_of_In & Heq). by exists u.
  - apply elem_of_cons in Hc as [->|Hc].
    + right. exists d. split; [left|apply cell_eqb_refl].
    + destruct (IH (d :: seen) Hc) as [(u & Hu & Heq)|(u & Hu & Heq)].
      * apply elem_of_cons in Hu as [->|Hu].
        -- right. exists d. split; [left|done].
        -- left. by exists u.
      * right. exists u. split; [by right|done].
Qed.

Lemma unique_covers (l : list cell) (c : cell) :
  c ∈ l -> exists u, u ∈ unique l /\ cell_eqb c u = true.
Proof.
  intros Hc. destruct (unique_from_covers [] l c Hc) as [(u & Hu & _)|Hu]; [|done].
  by apply elem_of_nil in Hu.
Qed.

Lemma count_le_max_count (l l' : list cell) (c : cell) :
  c ∈ l -> count_cell c l' <= foldr Nat.max 0 (map (fun d => count_cell d l') l).
Proof.
  induction l as [|d l IH]; intros Hc; [by apply elem_of_nil in Hc|].
  simpl. apply elem_of_cons in Hc as [->|Hc]; [lia|].
  specialize (IH Hc). lia.
Qed.

Lemma max_count_attained (l l' : list cell) :
  l <> [] ->
  exists c, c ∈ l /\ count_cell c l' = foldr Nat.max 0 (map (fun d => count_cell d l') l).
Proof.
  induction l as [|d l IH]; intros Hne; [done|]. simpl.
  destruct l as [|e l].
  - exists d. split; [left|simpl; lia].
  - destruct IH as (c & Hc & Hmax); [done|].
    destruct (Nat.max_spec (count_cell d l')
                (foldr Nat.max 0 (map (fun d0 => count_cell d0 l') (e :: l))))
      as [[_ ->]|[_ ->]].
    + exists c. split; [by right|done].
    + exists d. split; [left|done].
Qed.

(** C5, as the code has it: on a column whose non-missing values are of
    one type, [mode()[0]], the value [_handle_missing] fills with, is a
    non-missing value of the column, no value is more frequent, and among
    the values tied for the highest frequency it is the smallest (the
    modes come back sorted), not the first met. *)
Theorem mode_fill_is_least_most_frequent (s : Series) :
  values (dropna s) <> [] ->
  homogeneous (values (dropna s)) = true ->
  exists v,
    first_label (mode s) = Ok v
    /\ v ∈ values s /\ notna v = true
    /\ (forall w, w ∈ values (dropna s) ->
          count_cell w (values (dropna s)) <= count_cell v (values (dropna s)))
    /\ (forall w, w ∈ values (dropna s) ->
          count_cell w (values (dropna s)) = count_cell v (values (dropna s)) ->
          cell_leb v w = true).
Proof.
  intros Hne Hhom. unfold mode.
  set (vals := values (dropna s)) in *.
  set (modes := filter (fun c => count_cell c vals = max_count vals) (unique vals)).
  assert (Hty : one_type vals) by by apply homogeneous_one_type.
  assert (Hsub : forall c, c ∈ modes -> c ∈ vals /\ count_cell c vals = max_count vals).
  { intros c [Hc Hu]%list_elem_of_filter. split; [|done]. by eapply unique_from_sub. }
  assert (Hin : forall w, w ∈ vals -> count_cell w vals = max_count vals ->
                 exists u, u ∈ modes /\ cell_eqb w u = true).
  { intros w Hw Hcount. destruct (unique_covers vals w Hw) as (u & Hu & Heq).
    exists u. split; [|done]. apply list_elem_of_filter. split; [|done].
    by rewrite <- (count_cell_congr w u vals Heq). }
  assert (Hmodes : homogeneous modes = true).
  { apply homogeneous_one_type. intros a b Ha Hb.
    apply Hty; by apply Hsub. }
  unfold sort_modes. rewrite Hmodes.
  pose proof (sorted_head_least modes (proj1 (homogeneous_one_type modes) Hmodes)) as Hleast.
  destruct (max_count_attained vals vals Hne) as (c & Hc & Hmax).
  destruct (Hin c Hc Hmax) as (u & Hu & _).
  apply elem_of_sorted in Hu.
  destruct (foldr insert_cell [] modes) as [|v rest] eqn:Hsorted;
    [by apply elem_of_nil in Hu|].
  simpl in Hleast.
  assert (Hv : v ∈ modes) by (apply elem_of_sorted; rewrite Hsorted; left).
  destruct (Hsub v Hv) as [Hvin Hvmax].
  exists v. split; [done|].
  unfold vals, dropna in Hvin. simpl in Hvin.
  apply list_elem_of_filter in Hvin as [Hna Hvs].
  split; [done|]. split; [done|]. split.
  - intros w Hw. rewrite Hvmax. by apply count_le_max_count.
  - intros w Hw Hcount. rewrite Hvmax in Hcount.
    destruct (Hin w Hw Hcount) as (u' & Hu' & Heq).
    apply (cell_leb_eqb_r v u' w); [|by rewrite cell_eqb_sym].
    apply Hleast. rewrite <- Hsorted. by apply elem_of_sorted.
Qed.

(** C5 on the column [3, 1, missing, 3, 1]. *)
Lemma mode_fill_is_least_most_frequent_witness :
  let s := {| dtype_of := Float64; values := [Num 3; Num 1; NA; Num 3; Num 1] |} in
  exists v,
    first_label (mode s) = Ok v
    /\ v ∈ values s /\ notna v = true
    /\ (forall w, w ∈ values (dropna s) ->
          count_cell w (values (dropna s)) <= count_cell v (values (dropna s)))
    /\ (forall w, w ∈ values (dropna s) ->
          count_cell w (values (dropna s)) = count_cell v (values (dropna s)) ->
          cell_leb v w = true).
Proof.
  intros s. apply (mode_fill_is_least_most_frequent s).
  - discriminate.
  - reflexivity.
Defined.

(** C5 fails as stated: in [3, 1, missing, 3, 1] the values 3 and 1 both
    occur twice and 3 comes first, but the engine fills with 1. *)
Lemma mode_fill_is_not_first_encountered :
  let s := {| dtype_of := Float64; values := [Num 3; Num 1; NA; Num 3; Num 1] |} in
  let df := {| schema := [("x", Float64)];
               rows := [[Num 3]; [Num 1]; [NA]; [Num 3]; [Num 1]] |} in
  let rules := {| global_rules := Some no_global_rules;
                  rule_columns := Some [("x", strategy_only "mode")] |} in
  first_encountered_mode s = Some (Num 3)
  /\ first_label (mode s) = Ok (Num 1)
  /\ get_column df "x" = Ok s
  /\ returned (@run Text.pandas {[ 1%positive := df ]} 1%positive rules)
     = Some ({| schema := [("x", Float64)];
                rows := [[Num 3]; [Num 1]; [Num 1]; [Num 3]; [Num 1]] |},
             ["x: missing handled (1 → 0) using mode"]).
Proof. repeat split; by vm_compute. Qed.

(** * Further properties of the code *)

(** ** Type inference on columns with missing values *)

Section InferenceEdges.
Context `{Pandas}.

Lemma parsed_count_le_present (s : Series) :
  parsed_count s + isna_sum s <= length (values s).
Proof.
  unfold parsed_count, isna_sum. simpl.
  induction (values s) as [|c l IH]; [done|].
  simpl. rewrite !filter_cons. destruct c; simpl; repeat case_decide; simpl; lia.
Qed.

(** X1: A column in which more than 30% of the cells are missing is never
    classified datetime; with numeric storage it is numeric. *)
Theorem infer_many_missing_not_datetime (s : Series) :
  3 * length (values s) < 10 * isna_sum s ->
  infer_column_type s <> "datetime"
  /\ (char_in (kind (dtype_of s)) "iuf" = true -> infer_column_type s = "numeric").
Proof.
  intros Hmany.
  assert (Hno : try_parse_datetime s default_threshold = false).
  { destruct (try_parse_datetime s default_threshold) eqn:E; [|done].
    apply try_parse_datetime_spec in E as [_ Hle].
    pose proof (parsed_count_le_present s). lia. }
  split.
  - intros Hd%infer_datetime_iff. congruence.
  - intros Hk. unfold infer_column_type. by rewrite Hno, Hk.
Qed.

Lemma nunique_all_missing (s : Series) :
  Forall (fun c => c = NA) (values s) -> nunique s = 0.
Proof.
  unfold nunique, dropna. simpl. induction 1 as [|c l -> _ IH]; [done|].
  by rewrite filter_cons.
Qed.

(** X2: A column without a single value, empty or all missing, is numeric
    when its storage kind is numeric and categorical otherwise. *)
Theorem infer_all_missing (s : Series) :
  Forall (fun c => c = NA) (values s) ->
  infer_column_type s
  = if char_in (kind (dtype_of s)) "iuf" then "numeric" else "categorical".
Proof.
  intros Hall.
  assert (Hno : try_parse_datetime s default_threshold = false).
  { destruct (try_parse_datetime s default_threshold) eqn:E; [|done].
    apply try_parse_datetime_spec in E as [Hne Hle].
    pose proof (parsed_count_le_present s).
    rewrite (isna_sum_all_missing s Hall) in *.
    destruct (values s); [done|]. simpl in *. lia. }
  unfold infer_column_type. rewrite Hno, (nunique_all_missing s Hall).
  by destruct (char_in _ _).
Qed.

End InferenceEdges.

Lemma infer_many_missing_not_datetime_witness :
  let s := {| dtype_of := Float64; values := [Num 1; NA; NA; Num 4] |} in
  @infer_column_type Text.pandas s <> "datetime"
  /\ (char_in (kind (dtype_of s)) "iuf" = true
      -> @infer_column_type Text.pandas s = "numeric").
Proof.
  intros s. apply (@infer_many_missing_not_datetime Text.pandas s).
  vm_compute. lia.
Defined.

Lemma infer_all_missing_witness :
  let s := {| dtype_of := Object; values := [NA; NA; NA] |} in
  @infer_column_type Text.pandas s
  = if char_in (kind (dtype_of s)) "iuf" then "numeric" else "categorical".
Proof.
  intros s. apply (@infer_all_missing Text.pandas s).
  by repeat constructor.
Defined.

(** ** Coercion to numbers *)

Section ToNumeric.
Context `{Pandas}.

Lemma to_numeric_cell_idempotent (c : cell) :
  to_numeric_cell (to_numeric_cell c) = to_numeric_cell c.
Proof. destruct c; simpl; try done. by destruct (parse_numeric s). Qed.

Lemma safe_to_numeric_dtype (s : Series) :
  is_numeric_dtype (dtype_of (safe_to_numeric s)) = true.
Proof.
  unfold safe_to_numeric, converted_dtype.
  destruct (dtype_of s); simpl; try done; by repeat case_match.
Qed.

Lemma safe_to_numeric_numeric (s : Series) :
  is_numeric_dtype (dtype_of s) = true ->
  safe_to_numeric s
  = {| dtype_of := dtype_of s; values := map to_numeric_cell (values s) |}.
Proof. unfold safe_to_numeric. by destruct (dtype_of s). Qed.

Lemma safe_to_numeric_length (s : Series) :
  length (values (safe_to_numeric s)) = length (values s).
Proof. unfold safe_to_numeric. destruct (dtype_of s); simpl; apply length_map. Qed.

(** X3: On a column that is not of datetime storage [safe_to_numeric]
    keeps the length of the column, never turns a missing cell into a
    value, gives a numeric dtype, and applied to its own result changes
    nothing. *)
Theorem safe_to_numeric_idempotent (s : Series) :
  dtype_of s <> Datetime64 ->
  safe_to_numeric (safe_to_numeric s) = safe_to_numeric s
  /\ length (values (safe_to_numeric s)) = length (values s)
  /\ isna_sum s <= isna_sum (safe_to_numeric s)
  /\ char_in (kind (dtype_of (safe_to_numeric s))) "iuf" = true.
Proof.
  intros Hdt.
  assert (Hv : values (safe_to_numeric s) = map to_numeric_cell (values s)).
  { unfold safe_to_numeric. by destruct (dtype_of s). }
  split; [|split; [|split]].
  - rewrite (safe_to_numeric_numeric _ (safe_to_numeric_dtype s)), Hv.
    destruct (safe_to_numeric s) as [d vs] eqn:E. simpl in *. f_equal.
    rewrite Hv, <- list_fmap_compose. apply map_ext. intros c.
    apply to_numeric_cell_idempotent.
  - apply safe_to_numeric_length.
  - unfold isna_sum. rewrite Hv. clear Hv.
    induction (values s) as [|c l IH]; [done|].
    simpl. rewrite !filter_cons. destruct c as [|q|t|ns]; simpl; try lia.
    destruct (parse_numeric t); simpl; lia.
  - pose proof (safe_to_numeric_dtype s) as Hd.
    by destruct (dtype_of (safe_to_numeric s)).
Qed.

End ToNumeric.

Lemma safe_to_numeric_idempotent_witness :
  let s := {| dtype_of := Object;
              values := [Str "12"; NA; Str "n/a"; Num (5 # 2); Str "7"] |} in
  @safe_to_numeric Text.pandas (@safe_to_numeric Text.pandas s)
  = @safe_to_numeric Text.pandas s
  /\ length (values (@safe_to_numeric Text.pandas s)) = length (values s)
  /\ isna_sum s <= isna_sum (@safe_to_numeric Text.pandas s)
  /\ char_in (kind (dtype_of (@safe_to_numeric Text.pandas s))) "iuf" = true.
Proof.
  intros s. apply (@safe_to_numeric_idempotent Text.pandas s). discriminate.
Defined.

(** ** Standardized column labels *)

Lemma filter_string_forall (f : Ascii.ascii -> bool) (s : string) :
  string_forall f (filter_string f s) = true.
Proof.
  induction s as [|c s IH]; [done|]. simpl.
  destruct (f c) eqn:E; [|done]. simpl. by rewrite E.
Qed.

Lemma standardize_label_settled (s : string) :
  string_forall settled (standardize_label s) = true.
Proof.
  unfold standardize_label.
  induction (rstrip (lstrip s)) as [|c t IH]; [done|]. simpl.
  destruct (is_word _) eqn:Hw; [|done]. simpl. rewrite IH, andb_true_r.
  revert Hw. generalize c. clear.
  intros c. destruct c as [[] [] [] [] [] [] [] []]; vm_compute; intros; done.
Qed.

Lemma settled_fixed (s : string) :
  string_forall settled s = true -> standardize_label s = s.
Proof.
  intros Hs. unfold standardize_label.
  assert (Hl : lstrip s = s).
  { destruct s as [|c s]; [done|]. simpl in *.
    apply andb_true_iff in Hs as [Hc _]. unfold settled in Hc.
    by destruct (is_space c); [rewrite !andb_false_r in Hc; simpl in Hc|]. }
  assert (Hr : rstrip s = s).
  { clear Hl. induction s as [|c s IH]; [done|]. simpl in *.
    apply andb_true_iff in Hs as [Hc Hs]. rewrite (IH Hs).
    destruct s; [|done]. unfold settled in Hc.
    by destruct (is_space c); [rewrite !andb_false_r in Hc; simpl in Hc|]. }
  rewrite Hl, Hr. clear Hl Hr.
  induction s as [|c s IH]; [done|]. simpl in *.
  apply andb_true_iff in Hs as [Hc Hs].
  unfold settled in Hc.
  apply andb_true_iff in Hc as [Hc Hsp]. apply andb_true_iff in Hc as [Hc Hlow].
  apply andb_true_iff in Hc as [Hc _]. apply andb_true_iff in Hc as [_ Hw].
  apply Ascii.eqb_eq in Hlow. apply negb_true_iff in Hsp.
  by rewrite Hlow, Hsp, Hw, (IH Hs).
Qed.

Lemma string_forall_impl (P Q : Ascii.ascii -> bool) (s : string) :
  (forall c, P c = true -> Q c = true) ->
  string_forall P s = true -> string_forall Q s = true.
Proof.
  intros HPQ. induction s as [|c s IH]; [done|]. simpl.
  intros [Hc Hs]%andb_true_iff. by rewrite (HPQ c Hc), (IH Hs).
Qed.

Lemma standardize_label_idempotent (s : string) :
  standardize_label (standardize_label s) = standardize_label s.
Proof. apply settled_fixed, standardize_label_settled. Qed.

Lemma standardized_idempotent (df : DataFrame) :
  standardized (standardized df) = standardized df.
Proof.
  unfold standardized. simpl. f_equal.
  rewrite <- list_fmap_compose. apply map_ext. intros [c t]. simpl.
  by rewrite standardize_label_idempotent.
Qed.

Section StandardizeNames.
Context `{Pandas}.

Lemma run_standardize_only (h : gmap loc DataFrame) (r : loc) (df : DataFrame)
    (rules : RuleSet) (g : GlobalRules) :
  h !! r = Some df ->
  global_rules rules = Some g ->
  truthy (g_standardize_column_names g) = true ->
  truthy (g_drop_duplicates g) = false ->
  default [] (rule_columns rules) = [] ->
  returned (run h r rules) = Some (standardized df, ["Standardized column names"]).
Proof.
  intros Hr Hg Hs Hd Hc.
  unfold run, apply, _apply_global_rules, returned.
  rewrite Hg, Hc. unfold __init__. exec. rewrite Hs, Hd. simpl.
  by rewrite !lookup_total_insert_eq, (lookup_total_correct _ _ _ Hr).
Qed.

(** X4: With only [standardize_column_names] switched on and ASCII labels,
    the engine returns the same rows under labels made of a-z, 0-9 and
    the underscore, with one audit entry; run again on that result it
    returns the same frame: standardized labels are left as they are. *)
Theorem standardize_names_twice (h : gmap loc DataFrame) (r : loc) (df : DataFrame)
    (rules : RuleSet) (g : GlobalRules) :
  h !! r = Some df ->
  global_rules rules = Some g ->
  truthy (g_standardize_column_names g) = true ->
  truthy (g_drop_duplicates g) = false ->
  default [] (rule_columns rules) = [] ->
  Forall (fun c => string_forall is_ascii c = true) (columns df) ->
  returned (run h r rules) = Some (standardized df, ["Standardized column names"])
  /\ rows (standardized df) = rows df
  /\ columns (standardized df) = map standardize_label (columns df)
  /\ Forall (fun c => string_forall is_label_char c = true) (columns (standardized df))
  /\ forall (h' : gmap loc DataFrame) (r' : loc),
       h' !! r' = Some (standardized df) ->
       returned (run h' r' rules)
       = Some (standardized df, ["Standardized column names"]).
Proof.
  intros Hr Hg Hs Hd Hc _.
  assert (Hcols : columns (standardized df) = map standardize_label (columns df)).
  { unfold columns, standardized. simpl. rewrite <- !list_fmap_compose.
    apply map_ext. by intros [c t]. }
  split; [by eapply run_standardize_only|]. split; [done|]. split; [done|]. split.
  - rewrite Hcols. apply Forall_fmap, Forall_true. intros c. simpl.
    apply (string_forall_impl settled); [|apply standardize_label_settled].
    intros d Hd'. unfold settled in Hd'.
    by repeat (apply andb_true_iff in Hd' as [Hd' _]).
  - intros h' r' Hr'.
    rewrite (run_standardize_only h' r' _ rules g Hr' Hg Hs Hd Hc).
    by rewrite standardized_idempotent.
Qed.

End StandardizeNames.

Lemma standardize_names_twice_witness :
  let df := {| schema := [("  First Name ", Object); ("Age (years)", Int64)];
               rows := [[Str "Ann"; Num 31]; [Str "Bob"; Num 27]] |} in
  let rules := {| global_rules :=
                    Some {| g_standardize_column_names := Some true;
                            g_drop_duplicates := None |};
                  rule_columns := None |} in
  columns (standardized df) = ["first_name"; "age_years"]
  /\ returned (@run Text.pandas {[ 1%positive := df ]} 1%positive rules)
     = Some (standardized df, ["Standardized column names"]).
Proof.
  intros df rules. split; [reflexivity|].
  refine (proj1 (@standardize_names_twice Text.pandas {[ 1%positive := df ]}
                   1%positive df rules
                   {| g_standardize_column_names := Some true;
                      g_drop_duplicates := None |} _ _ _ _ _ _)).
  - reflexivity.
  - reflexivity.
  - reflexivity.
  - reflexivity.
  - reflexivity.
  - repeat (apply List.Forall_cons; [reflexivity|]). apply List.Forall_nil.
Defined.

(** ** The IQR bounds *)

Lemma insert_sorted_Forall (P : Q -> Prop) (x : Q) (l : list Q) :
  P x -> Forall P l -> Forall P (insert_sorted x l).
Proof.
  intros Hx. induction 1 as [|y l Hy Hl IH]; simpl.
  - by repeat constructor.
  - destruct (Qle_bool x y); by repeat constructor.
Qed.

Lemma insert_sorted_sorted (x : Q) (l : list Q) :
  StronglySorted Qle l -> StronglySorted Qle (insert_sorted x l).
Proof.
  induction 1 as [|y l Hs IH Hy]; simpl.
  - by repeat constructor.
  - destruct (Qle_bool x y) eqn:E.
    + apply Qle_bool_iff in E. constructor; [by constructor|].
      constructor; [done|].
      eapply Forall_impl; [exact Hy|]. intros z Hz. simpl. by eapply Qle_trans.
    + constructor; [done|]. apply insert_sorted_Forall; [|done].
      destruct (Qlt_le_dec y x) as [Hlt|Hle]; [by apply Qlt_le_weak|].
      apply Qle_bool_iff in Hle. congruence.
Qed.

Lemma sort_Q_sorted (l : list Q) : StronglySorted Qle (sort_Q l).
Proof.
  induction l as [|x l IH]; simpl; [constructor|]. by apply insert_sorted_sorted.
Qed.

Lemma sorted_nth_le (l : list Q) (i j : nat) (d d' : Q) :
  StronglySorted Qle l -> i <= j -> j < length l -> (nth i l d <= nth j l d')%Q.
Proof.
  intros Hs. revert i j. induction Hs as [|y l Hs IH Hy]; intros i j Hij Hj;
    simpl in Hj; [lia|].
  destruct i as [|i], j as [|j]; simpl; try lia.
  - apply Qle_refl.
  - eapply (proj1 (Forall_forall _ _) Hy). apply list_elem_of_In, nth_In. lia.
  - apply IH; lia.
Qed.

Lemma quantile_sorted_cons (q x0 : Q) (t : list Q) :
  quantile_sorted q (x0 :: t) = Some (Qred (interpolate q (x0 :: t) x0)).
Proof. reflexivity. Qed.

Lemma interpolate_mono (q q' x0 : Q) (t : list Q) :
  (0 <= q)%Q -> (q <= q')%Q -> (q' <= 1)%Q ->
  StronglySorted Qle (x0 :: t) ->
  (interpolate q (x0 :: t) x0 <= interpolate q' (x0 :: t) x0)%Q.
Proof.
  intros Hq0 Hqq Hq1 Hs. unfold interpolate.
  set (m := length t).
  replace (Z.of_nat (length (x0 :: t)) - 1)%Z with (Z.of_nat m)
    by (simpl length; lia).
  set (N := inject_Z (Z.of_nat m)).
  assert (HN : (0 <= N)%Q) by (unfold N; rewrite <- (Zle_Qle 0); lia).
  set (h := (q * N)%Q). set (h' := (q' * N)%Q).
  assert (Hh0 : (0 <= h)%Q) by (unfold h; by apply Qmult_le_0_compat).
  assert (Hhh : (h <= h')%Q) by (unfold h, h'; by apply Qmult_le_compat_r).
  assert (HhN : (h' <= N)%Q).
  { unfold h'. apply Qle_trans with (1 * N)%Q; [by apply Qmult_le_compat_r|].
    rewrite Qmult_1_l. apply Qle_refl. }
  set (lo := Qfloor h). set (lo' := Qfloor h').
  assert (Hlo0 : (0 <= lo)%Z).
  { unfold lo. change 0%Z with (Qfloor 0). by apply Qfloor_resp_le. }
  assert (Hll : (lo <= lo')%Z) by (by apply Qfloor_resp_le).
  assert (Hlm : (lo' <= Z.of_nat m)%Z).
  { unfold lo'. rewrite <- (Qfloor_Z (Z.of_nat m)). by apply Qfloor_resp_le. }
  pose proof (Qfloor_le h) as Hf1. pose proof (Qlt_floor h) as Hf2.
  pose proof (Qfloor_le h') as Hf1'. pose proof (Qlt_floor h') as Hf2'.
  fold lo in Hf1, Hf2. fold lo' in Hf1', Hf2'.
  rewrite inject_Z_plus in Hf2, Hf2'.
  set (i := Z.to_nat lo). set (i' := Z.to_nat lo').
  assert (Hii : i <= i') by (unfold i, i'; lia).
  assert (Him : i' <= m) by (unfold i'; lia).
  set (vlo := nth i (x0 :: t) x0). set (vlo' := nth i' (x0 :: t) x0).
  set (vhi := nth (i + 1) (x0 :: t) vlo). set (vhi' := nth (i' + 1) (x0 :: t) vlo').
  assert (Hlen : length (x0 :: t) = S m) by done.
  assert (Hb : (vlo <= vhi)%Q).
  { unfold vhi. destruct (decide (i + 1 < S m)) as [Hin|Hout].
    - apply sorted_nth_le; [done|lia|lia].
    - rewrite nth_overflow by (rewrite Hlen; lia). apply Qle_refl. }
  assert (Hb' : (vlo' <= vhi')%Q).
  { unfold vhi'. destruct (decide (i' + 1 < S m)) as [Hin|Hout].
    - apply sorted_nth_le; [done|lia|lia].
    - rewrite nth_overflow by (rewrite Hlen; lia). apply Qle_refl. }
  destruct (decide (lo = lo')) as [Heq|Hne].
  - assert (Hi : i = i') by (unfold i, i'; by rewrite Heq).
    unfold vhi', vlo' in *. rewrite <- Hi, <- Heq in *. fold vlo. fold vhi.
    clearbody vlo vhi. clearbody h h' lo.
    assert (0 <= (h' - h) * (vhi - vlo))%Q by (apply Qmult_le_0_compat; lra).
    lra.
  - assert (Hlt : i + 1 <= i') by (unfold i, i'; lia).
    assert (Hmid : (vhi <= vlo')%Q).
    { unfold vhi, vlo'. apply sorted_nth_le; [done|lia|lia]. }
    clearbody vhi vhi'. clearbody vlo vlo'. clearbody h h' lo lo'.
    change (inject_Z 1) with 1%Q in *.
    assert (0 <= (1 - (h - inject_Z lo)) * (vhi - vlo))%Q
      by (apply Qmult_le_0_compat; lra).
    assert (0 <= (h' - inject_Z lo') * (vhi' - vlo'))%Q
      by (apply Qmult_le_0_compat; lra).
    lra.
Qed.

Lemma quantile_sorted_mono (q q' : Q) (xs : list Q) (v v' : Q) :
  (0 <= q)%Q -> (q <= q')%Q -> (q' <= 1)%Q ->
  StronglySorted Qle xs ->
  quantile_sorted q xs = Some v ->
  quantile_sorted q' xs = Some v' ->
  (v <= v')%Q.
Proof.
  intros Hq0 Hqq Hq1 Hs. destruct xs as [|x0 t]; [done|].
  rewrite !quantile_sorted_cons. intros Hv Hv'.
  assert (Ev : v = Qred (interpolate q (x0 :: t) x0)) by congruence.
  assert (Ev' : v' = Qred (interpolate q' (x0 :: t) x0)) by congruence.
  rewrite Ev, Ev', !Qred_correct. by apply interpolate_mono.
Qed.

Lemma insert_sorted_not_nil (x : Q) (l : list Q) : insert_sorted x l <> [].
Proof. destruct l as [|y l]; simpl; [done|]. by destruct (Qle_bool x y). Qed.

Lemma quantile_of_numbers (s : Series) (q : Q) (xs : list Q) :
  numeric_values s = Ok xs -> quantile s q = Ok (quantile_sorted q (sort_Q xs)).
Proof. intros Hxs. unfold quantile. by rewrite Hxs. Qed.

(** *** Where the bounds are computed without rounding *)

Lemma exact_cell_small (q : Q) : exact_cell (Num q) = true -> small_integer q.
Proof.
  simpl. intros [Hi Hm]%andb_true_iff. exists (Qnum (Qred q)). split.
  - rewrite <- (Qred_correct q) at 1. unfold is_integer in Hi.
    apply Pos.eqb_eq in Hi. destruct (Qred q) as [n d]. simpl in *. by subst.
  - by apply Z.leb_le in Hm.
Qed.

Lemma numbers_small (l : list cell) (xs : list Q) :
  Forall (fun c => exact_cell c = true) l -> numbers l = Ok xs ->
  Forall small_integer xs.
Proof.
  intros Hl. revert xs. induction Hl as [|c l Hc Hl IH]; intros xs Hn; simpl in Hn.
  - injection Hn as <-. constructor.
  - destruct c as [|q|t|ns]; try done; [by apply IH|].
    inv_bind Hn. subst xs. constructor; [by apply exact_cell_small|by apply IH].
Qed.

Lemma sort_Q_Forall (P : Q -> Prop) (l : list Q) : Forall P l -> Forall P (sort_Q l).
Proof.
  induction 1 as [|x l Hx Hl IH]; simpl; [constructor|].
  by apply insert_sorted_Forall.
Qed.

Lemma nth_Forall {A} (P : A -> Prop) (l : list A) (i : nat) (d : A) :
  Forall P l -> P d -> P (nth i l d).
Proof.
  intros Hl Hd. revert i. induction Hl as [|x l Hx Hl IH]; intros [|i]; simpl; auto.
Qed.

(** A quartile of small integers is a multiple of 1/4: the position
    [k/4 * (n - 1)] has a fractional part in 0, 1/4, 1/2, 3/4. *)
Lemma interpolate_quarter (k : positive) (x0 : Q) (t : list Q) :
  Forall small_integer (x0 :: t) ->
  exists w : Z,
    (interpolate (Z.pos k # 4) (x0 :: t) x0 == inject_Z w / 4)%Q
    /\ (Z.abs w <= 2 ^ 42)%Z.
Proof.
  intros Hall. unfold interpolate.
  set (n1 := (Z.of_nat (length (x0 :: t)) - 1)%Z).
  set (h := ((Z.pos k # 4) * inject_Z n1)%Q).
  set (lo := Qfloor h).
  set (m := (Z.pos k * n1)%Z).
  set (r := (m mod 4)%Z).
  assert (Hlo : lo = (m / 4)%Z) by reflexivity.
  assert (Hr : (0 <= r < 4)%Z) by (apply Z.mod_pos_bound; lia).
  assert (Hfrac : (h - inject_Z lo == inject_Z r / 4)%Q).
  { assert (Hh : (h == inject_Z m / 4)%Q).
    { unfold h, m, Qeq. simpl. lia. }
    assert (Hm : (inject_Z m == 4 * inject_Z lo + inject_Z r)%Q).
    { rewrite (Z.div_mod m 4) at 1 by lia. fold r. rewrite <- Hlo.
      by rewrite inject_Z_plus, inject_Z_mult. }
    rewrite Hh, Hm. field. }
  set (vlo := nth (Z.to_nat lo) (x0 :: t) x0) in *.
  set (vhi := nth (Z.to_nat lo + 1) (x0 :: t) vlo).
  assert (Hvlo : small_integer vlo).
  { apply nth_Forall; [done|]. by apply Forall_cons in Hall as [? _]. }
  assert (Hvhi : small_integer vhi) by by apply nth_Forall.
  destruct Hvlo as (a & Ha & Hab). destruct Hvhi as (b & Hb & Hbb).
  exists (4 * a + r * (b + - a))%Z. split.
  - rewrite Hfrac, Ha, Hb, inject_Z_plus, !inject_Z_mult, inject_Z_plus, inject_Z_opp.
    field.
  - change (2 ^ 40)%Z with 1099511627776%Z in *.
    change (2 ^ 42)%Z with 4398046511104%Z.
    assert (r = 0 \/ r = 1 \/ r = 2 \/ r = 3)%Z as [-> | [-> | [-> | ->]]] by lia; lia.
Qed.

(** On small integers both bounds are multiples of 1/8 well inside the
    range of a double. *)
Lemma iqr_bounds_exact (s : Series) (xs : list Q) (lower upper : float) :
  Forall (fun c => exact_cell c = true) (values s) ->
  numeric_values s = Ok xs -> xs <> [] ->
  calculate_iqr_bounds s = Ok (lower, upper) ->
  exists lo hi,
    lower = Some lo /\ upper = Some hi /\ exact_eighth lo /\ exact_eighth hi.
Proof.
  intros Hexact Hxs Hne Hb. unfold calculate_iqr_bounds in Hb.
  rewrite !(quantile_of_numbers _ _ xs Hxs) in Hb. simpl in Hb.
  assert (Hnum : numbers (values s) = Ok xs).
  { unfold numeric_values in Hxs. by destruct (dtype_of s). }
  pose proof (sort_Q_Forall _ _ (numbers_small _ _ Hexact Hnum)) as Hsmall.
  destruct (sort_Q xs) as [|y t] eqn:Hsort.
  { destruct xs as [|x xs]; [done|]. by apply insert_sorted_not_nil in Hsort. }
  rewrite !quantile_sorted_cons in Hb. simpl in Hb. injection Hb as <- <-.
  destruct (interpolate_quarter 1 y t Hsmall) as (w1 & H1 & Hw1).
  destruct (interpolate_quarter 3 y t Hsmall) as (w3 & H3 & Hw3).
  change (2 ^ 42)%Z with 4398046511104%Z in *.
  eexists _, _. split; [done|]. split; [done|]. split.
  - exists (5 * w1 + - (3 * w3))%Z. split.
    + rewrite !Qred_correct, H1, H3, inject_Z_plus, inject_Z_opp, !inject_Z_mult.
      field.
    + change (2 ^ 46)%Z with 70368744177664%Z. lia.
  - exists (5 * w3 + - (3 * w1))%Z. split.
    + rewrite !Qred_correct, H1, H3, inject_Z_plus, inject_Z_opp, !inject_Z_mult.
      field.
    + change (2 ^ 46)%Z with 70368744177664%Z. lia.
Qed.

(** X5: On a column whose numbers are integers of magnitude at most
    2^40, when [calculate_iqr_bounds] returns, either the column holds
    no number and both bounds are NaN, or both bounds are defined, are
    multiples of 1/8 that a double holds exactly (so the code computes
    them without rounding), and enclose the quartiles:
    lower <= Q1 <= Q3 <= upper. *)
Theorem iqr_bounds_enclose_quartiles (s : Series) (lower upper : float) :
  Forall (fun c => exact_cell c = true) (values s) ->
  calculate_iqr_bounds s = Ok (lower, upper) ->
  exists xs,
    numeric_values s = Ok xs
    /\ ((xs = [] /\ lower = None /\ upper = None)
        \/ (xs <> [] /\ exists q1 q3 lo hi,
              quantile s (1 # 4) = Ok (Some q1)
              /\ quantile s (3 # 4) = Ok (Some q3)
              /\ lower = Some lo /\ upper = Some hi
              /\ exact_eighth lo /\ exact_eighth hi
              /\ (lo <= q1)%Q /\ (q1 <= q3)%Q /\ (q3 <= hi)%Q)).
Proof.
  intros Hexact Hbounds. pose proof Hbounds as Hb.
  unfold calculate_iqr_bounds in Hb.
  destruct (numeric_values s) as [xs|e] eqn:Hxs;
    [|by unfold quantile in Hb; rewrite Hxs in Hb].
  rewrite !(quantile_of_numbers s _ xs Hxs) in *. simpl in Hb.
  exists xs. split; [done|].
  destruct xs as [|x xs]; [left | right].
  - injection Hb as <- <-. done.
  - split; [done|].
    destruct (iqr_bounds_exact s (x :: xs) lower upper Hexact Hxs) as
      (lo & hi & -> & -> & Hlo & Hhi); [done|done|].
    pose proof (sort_Q_sorted (x :: xs)) as Hs.
    destruct (sort_Q (x :: xs)) as [|y t] eqn:Hsort;
      [by apply insert_sorted_not_nil in Hsort|].
    rewrite !quantile_sorted_cons in *. simpl in Hb.
    set (q1 := Qred (interpolate (1 # 4) (y :: t) y)) in *.
    set (q3 := Qred (interpolate (3 # 4) (y :: t) y)) in *.
    assert (Hq : (q1 <= q3)%Q).
    { by apply (quantile_sorted_mono (1 # 4) (3 # 4) (y :: t) q1 q3). }
    clearbody q1 q3. injection Hb as Elo Ehi.
    exists q1, q3, lo, hi.
    split; [done|]. split; [done|]. split; [done|]. split; [done|].
    split; [done|]. split; [done|].
    rewrite <- Elo, <- Ehi, !Qred_correct. repeat split; [lra|done|lra].
Qed.

Lemma iqr_bounds_enclose_quartiles_witness :
  let s := {| dtype_of := Float64; values := [Num 25; Num 30; NA; Num 40; Num 1000] |} in
  exists xs,
    numeric_values s = Ok xs
    /\ ((xs = [] /\ Some (-2785 # 8) = None /\ Some (5255 # 8) = (None : float))
        \/ (xs <> [] /\ exists q1 q3 lo hi,
              quantile s (1 # 4) = Ok (Some q1)
              /\ quantile s (3 # 4) = Ok (Some q3)
              /\ Some (-2785 # 8) = Some lo /\ Some (5255 # 8) = Some hi
              /\ exact_eighth lo /\ exact_eighth hi
              /\ (lo <= q1)%Q /\ (q1 <= q3)%Q /\ (q3 <= hi)%Q)).
Proof.
  intros s. apply (iqr_bounds_enclose_quartiles s); [|reflexivity].
  repeat (apply List.Forall_cons; [reflexivity|]). apply List.Forall_nil.
Defined.

(** ** Column profiles *)

Lemma unique_from_length (seen l : list cell) :
  length (unique_from seen l) <= length l.
Proof.
  revert seen. induction l as [|c l IH]; intros seen; simpl; [done|].
  destruct (existsb _ _); simpl; [specialize (IH seen) | specialize (IH (c :: seen))]; lia.
Qed.

Lemma length_present (s : Series) :
  length (values (dropna s)) = length (values s) - isna_sum s.
Proof.
  unfold isna_sum, dropna. simpl. induction (values s) as [|c l IH]; [done|].
  rewrite !filter_cons.
  pose proof (length_filter (fun c => isna c = true) l).
  destruct c; simpl; lia.
Qed.

Lemma infer_numeric_kind `{Pandas} (s : Series) :
  infer_column_type s = "numeric" -> char_in (kind (dtype_of s)) "iuf" = true.
Proof.
  unfold infer_column_type. destruct (try_parse_datetime _ _); [done|].
  destruct (char_in _ _); [done|]. by destruct (Nat.leb _ _).
Qed.

Section ColumnProfiles.
Context `{Pandas}.

Lemma column_profile_all_fields (s : Series) (cp : ColumnProfile) :
  column_profile s = Ok cp ->
  missing_count cp = isna_sum s
  /\ unique_count cp = nunique s
  /\ sample_value cp = head (values (dropna s))
  /\ detected_type cp = infer_column_type s
  /\ _outlier_info s = Ok (outlier_info cp).
Proof. unfold column_profile. intros Hp. inv_bind Hp. by subst cp. Qed.

(** X7: In every profile the profiler returns, a column has at most as many
    distinct values as non-missing cells, its sample value is absent
    exactly when all its cells are missing, and it is constant only if
    it has a value. *)
Theorem profile_counts_consistent
    (df : DataFrame) (p : DatasetProfile) (col : string) (cp : ColumnProfile) :
  profile df = Ok p ->
  dict_get col (profile_columns p) = Some cp ->
  missing_count cp <= fst (profile_shape p)
  /\ unique_count cp <= fst (profile_shape p) - missing_count cp
  /\ (sample_value cp = None <-> missing_count cp = fst (profile_shape p))
  /\ (is_constant cp = true -> missing_count cp < fst (profile_shape p)).
Proof.
  unfold profile. intros Hp Hg. inv_bind Hp. subst p. simpl in *.
  destruct (profile_loop_entry _ _ _ _ _ _ E Hg) as [Hacc|(s & Hs & Hcp)];
    [discriminate|].
  assert (Hconst : is_constant cp = Nat.eqb (nunique s) 1).
  { unfold column_profile in Hcp. inv_bind Hcp. by subst cp. }
  apply column_profile_all_fields in Hcp as (Hm & Hu & Hsv & _ & _).
  rewrite Hm, Hu, Hsv, Hconst, <- (get_column_length _ _ _ Hs).
  pose proof (length_present s) as Hlen.
  pose proof (length_filter (fun c => isna c = true) (values s)) as Hna.
  fold (isna_sum s) in Hna.
  assert (Hun : nunique s <= length (values (dropna s))) by apply unique_from_length.
  split; [done|]. split; [lia|]. split.
  - destruct (values (dropna s)) eqn:Hd; simpl in *; split; try done; lia.
  - intros Hc%Nat.eqb_eq. lia.
Qed.

(** X8: A column the profiler reports as numeric always carries an outlier
    summary, so reading [outlier_count] from the profile of a numeric
    column cannot fail; a column of another storage kind never has one. *)
Theorem profile_numeric_has_outlier_info
    (df : DataFrame) (p : DatasetProfile) (col : string) (cp : ColumnProfile) :
  profile df = Ok p ->
  dict_get col (profile_columns p) = Some cp ->
  (detected_type cp = "numeric" -> exists info, outlier_info cp = Some info)
  /\ (forall series, get_column df col = Ok series ->
        (outlier_info cp = None <-> char_in (kind (dtype_of series)) "iuf" = false)).
Proof.
  unfold profile. intros Hp Hg. inv_bind Hp. subst p. simpl in *.
  destruct (profile_loop_entry _ _ _ _ _ _ E Hg) as [Hacc|(s & Hs & Hcp)];
    [discriminate|].
  apply column_profile_all_fields in Hcp as (_ & _ & _ & Hd & Ho).
  assert (Hiff : outlier_info cp = None <-> char_in (kind (dtype_of s)) "iuf" = false).
  { unfold _outlier_info in Ho. destruct (char_in _ _); simpl in Ho.
    - apply bind_Ok in Ho as ([lower upper] & _ & Ho). inv_bind Ho.
      by rewrite <- Ho.
    - by injection Ho as <-. }
  split.
  - rewrite Hd. intros Hk%infer_numeric_kind.
    destruct (outlier_info cp) as [info|]; [by exists info|].
    destruct Hiff as [Hn _]. rewrite Hn in Hk; done.
  - intros series Hser. rewrite Hs in Hser. by injection Hser as <-.
Qed.

End ColumnProfiles.

Lemma profile_counts_consistent_witness :
  let df := {| schema := [("age", Float64); ("city", Object)];
               rows := [[Num 25; Str "x"]; [NA; Str "x"]; [Num 40; NA]] |} in
  exists p cp,
    @profile Text.pandas df = Ok p
    /\ dict_get "city" (profile_columns p) = Some cp
    /\ missing_count cp <= fst (profile_shape p)
    /\ unique_count cp <= fst (profile_shape p) - missing_count cp
    /\ (sample_value cp = None <-> missing_count cp = fst (profile_shape p))
    /\ (is_constant cp = true -> missing_count cp < fst (profile_shape p)).
Proof.
  intros df. eexists _, _. split; [reflexivity|]. split; [reflexivity|].
  refine (@profile_counts_consistent Text.pandas df _ "city" _ _ _); reflexivity.
Defined.

Lemma profile_numeric_has_outlier_info_witness :
  let df := {| schema := [("age", Float64); ("city", Object)];
               rows := [[Num 25; Str "x"]; [NA; Str "x"]; [Num 40; NA]] |} in
  exists p cp,
    @profile Text.pandas df = Ok p
    /\ dict_get "age" (profile_columns p) = Some cp
    /\ detected_type cp = "numeric"
    /\ (detected_type cp = "numeric" -> exists info, outlier_info cp = Some info).
Proof.
  intros df. eexists _, _. split; [reflexivity|]. split; [reflexivity|].
  split; [reflexivity|].
  refine (proj1 (@profile_numeric_has_outlier_info Text.pandas df _ "age" _ _ _));
    reflexivity.
Defined.

(** ** Columns of a frame with distinct labels *)

Lemma index_of_None (col : string) (l : list string) :
  col ∉ l -> index_of col l = None.
Proof.
  induction l as [|c l IH]; [done|]. intros Hn. simpl.
  destruct (String.eqb col c) eqn:E.
  - apply String.eqb_eq in E as ->. exfalso. apply Hn. left.
  - rewrite IH; [done|]. intros Hin. apply Hn. by right.
Qed.

Lemma index_of_NoDup (col : string) (l : list string) (j : nat) :
  NoDup l -> l !! j = Some col -> index_of col l = Some j.
Proof.
  intros Hnd. revert j. induction Hnd as [|c l Hc Hnd IH]; intros j Hj; [done|].
  simpl. destruct j as [|j]; simpl in Hj.
  - injection Hj as ->. by rewrite String.eqb_refl.
  - destruct (String.eqb col c) eqn:E.
    + apply String.eqb_eq in E as ->. exfalso. apply Hc.
      by eapply list_elem_of_lookup_2.
    + by rewrite (IH j Hj).
Qed.

Lemma count_label_not_in (col : string) (l : list string) :
  col ∉ l -> count_label col l = 0.
Proof.
  unfold count_label. induction l as [|c l IH]; [done|]. intros Hn.
  rewrite filter_cons. destruct (String.eqb col c) eqn:E; simpl.
  - apply String.eqb_eq in E as ->. exfalso. apply Hn. left.
  - apply IH. intros Hin. apply Hn. by right.
Qed.

Lemma count_label_NoDup (col : string) (l : list string) :
  NoDup l -> col ∈ l -> count_label col l = 1.
Proof.
  induction 1 as [|c l Hc Hnd IH]; intros Hin; [by apply elem_of_nil in Hin|].
  unfold count_label in *. rewrite filter_cons.
  destruct (String.eqb col c) eqn:E; simpl.
  - apply String.eqb_eq in E as ->. f_equal. by apply count_label_not_in.
  - apply IH. apply elem_of_cons in Hin as [->|Hin]; [|done].
    by rewrite String.eqb_refl in E.
Qed.

(** In a frame with distinct labels, [df[col]] is the column at the
    position of the label, with its dtype. *)
Lemma get_column_NoDup (df : DataFrame) (j : nat) (col : string) (t : dtype) :
  NoDup (columns df) ->
  schema df !! j = Some (col, t) ->
  get_column df col
  = Ok {| dtype_of := t; values := map (fun r => nth j r NA) (rows df) |}.
Proof.
  intros Hnd Hj. unfold get_column.
  assert (Hc : columns df !! j = Some col).
  { unfold columns. by rewrite list_lookup_fmap, Hj. }
  rewrite (index_of_NoDup col _ j Hnd Hc).
  rewrite (count_label_NoDup col _ Hnd) by (by eapply list_elem_of_lookup_2).
  simpl. by rewrite Hj.
Qed.

(** ** What [profile] covers and when it fails *)

Lemma dict_set_keys {V} (k : string) (v : V) (d : list (string * V)) :
  k ∉ d.*1 -> (dict_set k v d).*1 = d.*1 ++ [k].
Proof.
  induction d as [|[k' v'] d IH]; [done|]. simpl. intros Hn.
  destruct (String.eqb k k') eqn:E.
  - apply String.eqb_eq in E as ->. exfalso. apply Hn. left.
  - simpl. f_equal. apply IH. intros Hin. apply Hn. by right.
Qed.

Lemma kind_numeric (t : dtype) : char_in (kind t) "iuf" = is_numeric_dtype t.
Proof. by destruct t. Qed.

Section ProfileCoverage.
Context `{Pandas}.

Lemma profile_loop_keys (df : DataFrame) (cols : list string) acc res :
  profile_loop df cols acc = Ok res ->
  NoDup (acc.*1 ++ cols) ->
  res.*1 = acc.*1 ++ cols.
Proof.
  revert acc. induction cols as [|c cols IH]; intros acc Hl Hnd; simpl in Hl.
  - injection Hl as <-. by rewrite app_nil_r.
  - inv_bind Hl.
    apply NoDup_app in Hnd as (Hacc & Hdisj & Hcols).
    apply NoDup_cons in Hcols as [Hc Hcols].
    assert (Hfresh : c ∉ acc.*1) by (intros Hin; apply (Hdisj c Hin); left).
    rewrite (IH _ Hl); rewrite (dict_set_keys c a0 acc Hfresh).
    + by rewrite <- app_assoc.
    + rewrite <- app_assoc. simpl. apply NoDup_app. split; [done|]. split.
      * intros x Hx. by apply Hdisj.
      * by apply NoDup_cons.
Qed.

(** X9: On a frame with distinct labels, a profile that is returned has one
    entry per column, in column order, and records the frame's shape. *)
Theorem profile_covers_columns (df : DataFrame) (p : DatasetProfile) :
  NoDup (columns df) ->
  profile df = Ok p ->
  (profile_columns p).*1 = columns df
  /\ profile_shape p = (length (rows df), length (columns df))
  /\ forall col, col ∈ columns df ->
       exists cp series,
         dict_get col (profile_columns p) = Some cp
         /\ get_column df col = Ok series
         /\ column_profile series = Ok cp.
Proof.
  intros Hnd. unfold profile. intros Hp. inv_bind Hp. subst p. simpl.
  pose proof (profile_loop_keys df (columns df) [] a E Hnd) as Hkeys.
  simpl in Hkeys. split; [done|]. split.
  - unfold shape, len, columns. by rewrite length_fmap.
  - intros col Hcol. rewrite <- Hkeys in Hcol.
    assert (Hsome : exists cp, dict_get col a = Some cp).
    { clear -Hcol. induction a as [|[k v] a IH]; [by apply elem_of_nil in Hcol|].
      simpl in *. destruct (String.eqb col k) eqn:Ek; [by eexists|].
      apply IH. apply elem_of_cons in Hcol as [->|Hcol]; [|done].
      by rewrite String.eqb_refl in Ek. }
    destruct Hsome as [cp Hcp]. exists cp.
    destruct (profile_loop_entry _ _ _ _ _ _ E Hcp) as [Hacc|(s & Hs & Hprof)];
      [discriminate|].
    by exists s.
Qed.

Lemma column_profile_no_rows (t : dtype) :
  column_profile {| dtype_of := t; values := [] |}
  = if is_numeric_dtype t then Raise ZeroDivisionError
    else Ok {| dtype_str := dtype_name t;
               detected_type := "categorical";
               missing_count := 0;
               missing_percent := round_ndigits None 2;
               unique_count := 0;
               sample_value := None;
               is_constant := false;
               outlier_info := None |}.
Proof. by destruct t. Qed.

Lemma profile_loop_no_rows (df : DataFrame) (cols : list string) acc :
  (forall c, c ∈ cols ->
     exists t, get_column df c = Ok {| dtype_of := t; values := [] |}) ->
  (exists c t, c ∈ cols
     /\ get_column df c = Ok {| dtype_of := t; values := [] |}
     /\ is_numeric_dtype t = true) ->
  profile_loop df cols acc = Raise ZeroDivisionError.
Proof.
  revert acc. induction cols as [|c cols IH]; intros acc Hall (c0 & t0 & Hin & Hg & Hnum).
  - by apply elem_of_nil in Hin.
  - simpl. destruct (Hall c) as [t Ht]; [left|]. rewrite Ht. simpl.
    rewrite column_profile_no_rows.
    destruct (is_numeric_dtype t) eqn:Hk; [done|]. simpl.
    apply IH.
    + intros c' Hc'. apply Hall. by right.
    + exists c0, t0. split; [|done].
      apply elem_of_cons in Hin as [->|Hin]; [|done].
      rewrite Ht in Hg. injection Hg as ->. congruence.
Qed.

(** X10: Profiling a frame without rows raises ZeroDivisionError as soon as
    one of its columns has numeric storage: the outlier percentage
    divides by the number of rows. *)
Theorem profile_no_rows_numeric_raises (df : DataFrame) (j : nat) (col : string) (t : dtype) :
  rows df = [] ->
  NoDup (columns df) ->
  schema df !! j = Some (col, t) ->
  is_numeric_dtype t = true ->
  profile df = Raise ZeroDivisionError.
Proof.
  intros Hrows Hnd Hj Hnum. unfold profile.
  rewrite (profile_loop_no_rows df (columns df) []); [done| |].
  - intros c Hc. unfold columns in Hc.
    apply list_elem_of_lookup in Hc as [i Hi].
    rewrite list_lookup_fmap in Hi.
    destruct (schema df !! i) as [[c' t']|] eqn:Hs; [|done].
    injection Hi as <-. exists t'.
    by rewrite (get_column_NoDup df i c' t' Hnd Hs), Hrows.
  - exists col, t. split; [|split; [|done]].
    + unfold columns. apply list_elem_of_lookup. exists j.
      by rewrite list_lookup_fmap, Hj.
    + by rewrite (get_column_NoDup df j col t Hnd Hj), Hrows.
Qed.

End ProfileCoverage.

Lemma profile_covers_columns_witness :
  let df := {| schema := [("age", Float64); ("city", Object)];
               rows := [[Num 25; Str "x"]; [NA; Str "x"]; [Num 40; NA]] |} in
  exists p,
    @profile Text.pandas df = Ok p
    /\ (profile_columns p).*1 = ["age"; "city"].
Proof.
  intros df. eexists. split; [reflexivity|].
  refine (proj1 (@profile_covers_columns Text.pandas df _ _ _)); [|reflexivity].
  apply (bool_decide_unpack _). reflexivity.
Defined.

Lemma profile_no_rows_numeric_raises_witness :
  @profile Text.pandas {| schema := [("city", Object); ("age", Float64)]; rows := [] |}
  = Raise ZeroDivisionError.
Proof.
  apply (@profile_no_rows_numeric_raises Text.pandas _ 1 "age" Float64);
    try reflexivity.
  apply (bool_decide_unpack _). reflexivity.
Defined.

(** ** What the engine never does to the frame and the audit log *)

Lemma shrinks_refl (d : DataFrame) : shrinks d d.
Proof. by repeat split. Qed.

Lemma shrinks_trans (d1 d2 d3 : DataFrame) :
  shrinks d1 d2 -> shrinks d2 d3 -> shrinks d1 d3.
Proof. intros (? & ? & ?) (? & ? & ?). repeat split; [lia|lia|auto]. Qed.

Lemma bool_index_length_le {A} (l : list A) (mask : list bool) :
  length (bool_index l mask) <= length l.
Proof.
  revert mask. induction l as [|x l IH]; intros [|b mask]; simpl; try lia.
  specialize (IH mask). destruct b; simpl; lia.
Qed.

Lemma bool_index_length {A} (l : list A) (mask : list bool) :
  length l = length mask ->
  length (bool_index l mask) = length (filter (fun b => b = true) mask).
Proof.
  revert mask. induction l as [|x l IH]; intros [|b mask]; simpl; try done.
  intros [= Hlen]. rewrite filter_cons. destruct b; simpl; by rewrite IH.
Qed.

Lemma bool_index_Forall {A} (P : A -> Prop) (l : list A) (mask : list bool) :
  Forall P l -> Forall P (bool_index l mask).
Proof.
  intros Hl. revert mask. induction Hl as [|x l Hx Hl IH]; intros [|b mask]; simpl;
    try by constructor.
  destruct b; [constructor|]; auto.
Qed.

Lemma first_occurrences_length (seen rs : list (list cell)) :
  length (first_occurrences seen rs) <= length rs.
Proof.
  revert seen. induction rs as [|r rs IH]; intros seen; simpl; [done|].
  destruct (existsb _ _); simpl; [specialize (IH seen)|specialize (IH (r :: seen))]; lia.
Qed.

Lemma first_occurrences_Forall (P : list cell -> Prop) (seen rs : list (list cell)) :
  Forall P rs -> Forall P (first_occurrences seen rs).
Proof.
  intros Hrs. revert seen. induction Hrs as [|r rs Hr Hrs IH]; intros seen; simpl;
    [constructor|].
  destruct (existsb _ _); [|constructor]; auto.
Qed.

Lemma filter_keeps_Forall {A} (P : A -> Prop) (Q : A -> Prop)
    `{forall x, Decision (Q x)} (l : list A) :
  Forall P l -> Forall P (filter Q l).
Proof.
  induction 1 as [|x l Hx Hl IH]; [constructor|].
  rewrite filter_cons. destruct (decide (Q x)); [constructor|]; auto.
Qed.

Lemma set_cells_length (j : nat) (rs : list (list cell)) (vals : list cell) :
  length (set_cells j rs vals) = length rs.
Proof. revert vals. induction rs as [|r rs IH]; intros vals; simpl; by rewrite ?IH. Qed.

Lemma set_cells_Forall (n j : nat) (rs : list (list cell)) (vals : list cell) :
  Forall (fun r => length r = n) rs ->
  Forall (fun r => length r = n) (set_cells j rs vals).
Proof.
  intros Hrs. revert vals. induction Hrs as [|r rs Hr Hrs IH]; intros vals; simpl;
    constructor; [by rewrite length_insert | apply IH].
Qed.

Lemma shrinks_set_column (col : string) (s : Series) (d : DataFrame) :
  shrinks d (set_column col s d).
Proof.
  unfold set_column. destruct (index_of col (columns d)) as [j|]; [|apply shrinks_refl].
  unfold shrinks, len, rectangular. simpl.
  rewrite set_cells_length, length_insert. repeat split; try done.
  apply set_cells_Forall.
Qed.

Lemma shrinks_drop_column (col : string) (d : DataFrame) :
  shrinks d (drop_column col d).
Proof.
  unfold shrinks, drop_column, len, rectangular. simpl.
  rewrite length_map. repeat split; [done|apply bool_index_length_le|].
  intros Hrect. apply Forall_fmap. eapply Forall_impl; [exact Hrect|].
  intros r Hr. simpl.
  rewrite !bool_index_length; [done| |];
    unfold columns; by rewrite ?Hr, !length_map.
Qed.

Lemma shrinks_select_rows (d : DataFrame) (mask : list bool) :
  shrinks d (select_rows d mask).
Proof.
  unfold shrinks, select_rows, len, rectangular. simpl.
  repeat split; [apply bool_index_length_le|done|apply bool_index_Forall].
Qed.

Lemma shrinks_dropna_subset (col : string) (d : DataFrame) :
  shrinks d (dropna_subset col d).
Proof.
  unfold dropna_subset. destruct (index_of col (columns d)) as [j|]; [|apply shrinks_refl].
  unfold shrinks, len, rectangular. simpl.
  repeat split; [apply length_filter|done|apply filter_keeps_Forall].
Qed.

Lemma shrinks_drop_duplicates (d : DataFrame) : shrinks d (drop_duplicates d).
Proof.
  unfold drop_duplicates. destruct (empty d); [apply shrinks_refl|].
  unfold shrinks, len, rectangular. simpl.
  repeat split; [apply first_occurrences_length|done|apply first_occurrences_Forall].
Qed.

Lemma shrinks_standardized (d : DataFrame) : shrinks d (standardized d).
Proof.
  unfold shrinks, standardized, len, rectangular. simpl.
  by rewrite length_map.
Qed.

Lemma advances_refl (st : State) : advances st st.
Proof. split; [done|apply shrinks_refl]. Qed.

Lemma advances_trans (st1 st2 st3 : State) :
  advances st1 st2 -> advances st2 st3 -> advances st1 st3.
Proof.
  intros [Hl1 Hs1] [Hl2 Hs2]. split; [by etrans|by eapply shrinks_trans].
Qed.

Lemma advances_write (st : State) (d : DataFrame) (log : list string) :
  shrinks (current st) d ->
  self_audit_log st `prefix_of` log ->
  advances st {| heap := <[self_df st := d]> (heap st);
                 self_df := self_df st; self_audit_log := log |}.
Proof.
  intros Hd Hlog. split; [done|]. unfold current at 2. simpl.
  by rewrite lookup_total_insert_eq.
Qed.

Lemma advances_new (st : State) (d : DataFrame) (log : list string) :
  shrinks (current st) d ->
  self_audit_log st `prefix_of` log ->
  advances st {| heap := <[fresh (dom (heap st)) := d]> (heap st);
                 self_df := fresh (dom (heap st)); self_audit_log := log |}.
Proof.
  intros Hd Hlog. split; [done|]. unfold current at 2. simpl.
  by rewrite lookup_total_insert_eq.
Qed.

Lemma advances_log (st : State) (log : list string) :
  self_audit_log st `prefix_of` log ->
  advances st {| heap := heap st; self_df := self_df st; self_audit_log := log |}.
Proof. intros Hlog. split; [done|apply shrinks_refl]. Qed.

Lemma prefix_snoc_self {A} (l : list A) (x : A) : l `prefix_of` l ++ [x].
Proof. by apply prefix_app_r. Qed.

Lemma progresses_bind {A B} (m : M A) (k : A -> M B) :
  progresses m -> (forall a, progresses (k a)) -> progresses (m ≫= k).
Proof.
  intros Hm Hk st. specialize (Hm st).
  unfold mbind, M_bind. destruct (m st) as [st' [a|e]]; simpl in *; [|done].
  eapply advances_trans; [done|apply Hk].
Qed.

Lemma progresses_ret {A} (a : A) : progresses (mret a).
Proof. intros st. apply advances_refl. Qed.

Lemma progresses_for_each {A} (xs : list A) (body : A -> M unit) :
  (forall x, progresses (body x)) -> progresses (for_each xs body).
Proof.
  intros Hbody. induction xs as [|x xs IH]; simpl.
  - apply progresses_ret.
  - apply progresses_bind; [apply Hbody | by intros _].
Qed.

Ltac advance_cases :=
  repeat case_match; simplify_eq/=;
  first
    [ apply advances_refl
    | apply advances_write;
        [ first [ apply shrinks_set_column | apply shrinks_drop_column ]
        | first [ done | apply prefix_snoc_self ] ]
    | apply advances_new;
        [ first [ apply shrinks_dropna_subset | apply shrinks_select_rows
                | apply shrinks_drop_duplicates ]
        | first [ done | apply prefix_snoc_self ] ]
    | apply advances_log; first [ done | apply prefix_snoc_self ] ].

Section EngineInvariants.
Context `{Pandas}.

Lemma handle_type_cast_progresses col rule : progresses (_handle_type_cast col rule).
Proof. intros st. unfold _handle_type_cast. exec. advance_cases. Qed.

Lemma handle_missing_progresses col rule : progresses (_handle_missing col rule).
Proof.
  intros st. unfold _handle_missing.
  destruct (r_missing rule ≫= m_strategy) as [[|c strategy]|];
    [apply advances_refl| |apply advances_refl].
  repeat match goal with
         | |- context [if String.eqb ?a ?b then _ else _] => destruct (String.eqb a b)
         end; exec; advance_cases.
Qed.

Lemma handle_outliers_progresses col rule : progresses (_handle_outliers col rule).
Proof.
  intros st. unfold _handle_outliers.
  destruct (negb _); [apply advances_refl|]. exec. advance_cases.
Qed.

Lemma apply_column_progresses entry : progresses (apply_column entry).
Proof.
  destruct entry as [col rule]. intros st. unfold apply_column. exec.
  destruct (has_column _ _); simpl; [|apply advances_refl].
  destruct (truthy _); simpl.
  - apply advances_write; [apply shrinks_drop_column|apply prefix_snoc_self].
  - pose proof (handle_type_cast_progresses col rule st) as H1.
    destruct (_handle_type_cast col rule st) as [st1 [[]|e]]; simpl in *; [|done].
    pose proof (handle_missing_progresses col rule st1) as H2.
    destruct (_handle_missing col rule st1) as [st2 [[]|e]]; simpl in *;
      [|by eapply advances_trans].
    eapply advances_trans; [done|]. eapply advances_trans; [done|].
    apply handle_outliers_progresses.
Qed.

Lemma apply_global_rules_progresses rules : progresses (_apply_global_rules rules).
Proof.
  intros st. unfold _apply_global_rules.
  destruct (global_rules rules) as [g|]; [|apply advances_refl]. exec.
  set (st1 := {| heap := <[fresh (dom (heap st)) := standardized (current st)]>
                           (<[fresh (dom (heap st)) := current st]> (heap st));
                 self_df := fresh (dom (heap st));
                 self_audit_log := self_audit_log st ++ ["Standardized column names"] |}).
  assert (Hstd : advances st st1).
  { split; [apply prefix_snoc_self|]. unfold current at 2. simpl.
    rewrite lookup_total_insert_eq. apply shrinks_standardized. }
  destruct (truthy (g_standardize_column_names g)); simpl;
    destruct (truthy (g_drop_duplicates g)); simpl.
  - eapply advances_trans; [exact Hstd|].
    apply (advances_new st1); [apply shrinks_drop_duplicates|apply prefix_snoc_self].
  - exact Hstd.
  - apply advances_new; [apply shrinks_drop_duplicates|apply prefix_snoc_self].
  - apply advances_refl.
Qed.

Lemma apply_progresses rules : progresses (apply rules).
Proof.
  unfold apply.
  apply progresses_bind; [apply apply_global_rules_progresses|intros _].
  apply progresses_bind; [apply progresses_for_each, apply_column_progresses|intros _].
  intros st. apply advances_refl.
Qed.

(** X11: The audit log is append-only: whatever the ruleset, and whether the
    call returns or raises, the log after [apply] starts with the log
    before it; so does the log after the global phase and after each
    column of the loop. *)
Theorem audit_log_append_only (rules : RuleSet) (st : State) :
  self_audit_log st `prefix_of` self_audit_log (apply rules st).1
  /\ self_audit_log st `prefix_of` self_audit_log (_apply_global_rules rules st).1
  /\ forall entry, self_audit_log st `prefix_of` self_audit_log (apply_column entry st).1.
Proof.
  split; [apply apply_progresses|]. split; [apply apply_global_rules_progresses|].
  intros entry. apply apply_column_progresses.
Qed.

(** X12: The engine never adds a row or a column: the frame it ends with,
    returned or left behind by an exception, has at most the rows and
    the columns of the caller's frame, and it is rectangular if the
    caller's frame is. *)
Theorem apply_never_grows_frame (h : gmap loc DataFrame) (df : loc) (d : DataFrame)
    (rules : RuleSet) :
  h !! df = Some d ->
  let d' := current (run h df rules).1 in
  length (rows d') <= length (rows d)
  /\ length (columns d') <= length (columns d)
  /\ (rectangular d -> rectangular d').
Proof.
  intros Hdf d'.
  destruct (apply_progresses rules (__init__ h df)) as [_ Hshr].
  fold (run h df rules) in Hshr. fold d' in Hshr.
  assert (Hcur : current (__init__ h df) = d).
  { unfold current, __init__. simpl.
    by rewrite lookup_total_insert_eq, (lookup_total_correct _ _ _ Hdf). }
  rewrite Hcur in Hshr. destruct Hshr as (Hrows & Hcols & Hrect).
  unfold columns. rewrite !length_fmap. by repeat split.
Qed.

End EngineInvariants.

Lemma apply_never_grows_frame_witness :
  let d := {| schema := [("age", Float64); ("tmp", Object)];
              rows := [[Num 25; Str "a"]; [Num 30; Str "b"]; [NA; Str "c"];
                       [Num 40; Str "d"]; [Num 1000; Str "e"]] |} in
  let rules :=
    {| global_rules := Some {| g_standardize_column_names := Some true;
                               g_drop_duplicates := Some true |};
       rule_columns := Some [
         ("age", {| r_drop := None; r_type := None;
                    r_missing := Some {| m_strategy := Some "drop"; m_value := None |};
                    r_outliers := Some {| o_method := Some "iqr" |} |});
         ("tmp", drop_only)] |} in
  let d' := current (@run Text.pandas {[ 1%positive := d ]} 1%positive rules).1 in
  d' = {| schema := [("age", Float64)]; rows := [[Num 25]; [Num 30]; [Num 40]] |}
  /\ (length (rows d') <= length (rows d)
      /\ length (columns d') <= length (columns d)
      /\ (rectangular d -> rectangular d')).
Proof.
  intros d rules d'. split; [by vm_compute|].
  apply (@apply_never_grows_frame Text.pandas {[ 1%positive := d ]} 1%positive d rules).
  reflexivity.
Defined.

(** ** What the handlers leave behind *)

Lemma get_column_inv (df : DataFrame) (col : string) (s : Series) :
  get_column df col = Ok s ->
  exists j,
    index_of col (columns df) = Some j
    /\ count_label col (columns df) = 1
    /\ s = {| dtype_of := default Object (snd <$> schema df !! j);
              values := map (fun r => nth j r NA) (rows df) |}.
Proof.
  unfold get_column. destruct (index_of col (columns df)) as [j|]; [|done].
  destruct (Nat.eqb _ 1) eqn:E; [|done]. intros [= <-].
  exists j. by apply Nat.eqb_eq in E.
Qed.

(** Reading a column of a frame that has the schema of [df] and other rows. *)
Lemma get_column_same_schema (df : DataFrame) (col : string) (s : Series)
    (rs : list (list cell)) (j : nat) :
  get_column df col = Ok s ->
  index_of col (columns df) = Some j ->
  get_column {| schema := schema df; rows := rs |} col
  = Ok {| dtype_of := dtype_of s; values := map (fun r => nth j r NA) rs |}.
Proof.
  intros Hs Hj. apply get_column_inv in Hs as (j' & Hj' & Hc & ->).
  rewrite Hj in Hj'. injection Hj' as <-.
  unfold get_column, columns in *. simpl. rewrite Hj, Hc. by simpl.
Qed.

Lemma map_bool_index_filter {A B} (f : A -> B) (g : B -> bool) (l : list A) :
  map f (bool_index l (map g (map f l))) = filter (fun y => g y = true) (map f l).
Proof.
  induction l as [|x l IH]; [done|]. simpl. rewrite filter_cons.
  destruct (g (f x)); simpl; by rewrite IH.
Qed.

Lemma map_filter_comm {A B} (f : A -> B) (g : B -> bool) (l : list A) :
  map f (filter (fun x => g (f x) = true) l) = filter (fun y => g y = true) (map f l).
Proof.
  induction l as [|x l IH]; [done|]. simpl. rewrite !filter_cons.
  destruct (g (f x)); simpl; by rewrite IH.
Qed.

Lemma filter_Forall_true {A} (g : A -> bool) (l : list A) :
  Forall (fun y => g y = true) (filter (fun y => g y = true) l).
Proof.
  induction l as [|x l IH]; [constructor|]. rewrite filter_cons.
  destruct (g x) eqn:E; simpl; [by constructor|done].
Qed.

Lemma compare_within (s : Series) (lower upper : float) (ge le : list bool) :
  compare Qge_bool s lower = Ok ge ->
  compare Qle_bool s upper = Ok le ->
  zip_with andb ge le = map (within_bounds lower upper) (values s).
Proof.
  intros Hge%compare_Ok Hle%compare_Ok. subst ge le.
  rewrite zip_with_map_same. apply map_ext.
  intros [|v| |]; simpl; try done; destruct lower, upper; simpl; try done.
  by rewrite andb_false_r.
Qed.

Section HandlerResults.
Context `{Pandas}.

(** X13: After [_handle_outliers] has returned, the column holds exactly the
    cells that were numbers within the bounds computed before the
    removal, in their order; the schema is unchanged and the audit entry
    reports the number of rows that went. *)
Theorem handle_outliers_result (col : string) (rule : Rule) (st st' : State)
    (s : Series) (lower upper : float) :
  outliers_truthy (r_outliers rule) = true ->
  get_column (current st) col = Ok s ->
  calculate_iqr_bounds (dropna s) = Ok (lower, upper) ->
  _handle_outliers col rule st = (st', Ok ()) ->
  schema (current st') = schema (current st)
  /\ get_column (current st') col
     = Ok {| dtype_of := dtype_of s;
             values := filter (fun c => within_bounds lower upper c = true) (values s) |}
  /\ Forall (fun r => within_bounds lower upper
                        (nth (default 0 (index_of col (columns (current st)))) r NA) = true)
       (rows (current st'))
  /\ self_audit_log st'
     = self_audit_log st
       ++ [col +:+ ": removed "
           +:+ pretty (len (current st) - len (current st')) +:+ " outliers using IQR"].
Proof.
  intros Ht Hs Hb. unfold current in *. unfold _handle_outliers. rewrite Ht. exec.
  rewrite Hs, Hb. simpl. rewrite Hs.
  destruct (compare Qge_bool s lower) as [ge|] eqn:Hge; simpl; [|done].
  destruct (compare Qle_bool s upper) as [le|] eqn:Hle; simpl; [|done].
  intros [= <-]. simpl. rewrite !lookup_total_insert_eq. simpl.
  rewrite (compare_within s lower upper ge le Hge Hle).
  destruct (get_column_inv _ _ _ Hs) as (j & Hj & Hc & Hsv).
  split; [done|]. split; [|split; [|done]].
  - unfold select_rows.
    rewrite (get_column_same_schema _ col s _ j Hs Hj). do 2 f_equal.
    rewrite Hsv. simpl. apply map_bool_index_filter.
  - rewrite Hj. simpl. rewrite Hsv. simpl.
    rewrite map_map, bool_index_map_filter. apply filter_Forall_true.
Qed.

(** X14: The [drop] strategy keeps exactly the rows whose cell in the column
    is present, so no missing cell is left in it, and logs "(n → 0)". *)
Theorem handle_missing_drop_result (col : string) (rule : Rule) (st : State) (s : Series) :
  r_missing rule ≫= m_strategy = Some "drop" ->
  get_column (current st) col = Ok s ->
  exists st',
    _handle_missing col rule st = (st', Ok ())
    /\ schema (current st') = schema (current st)
    /\ get_column (current st') col = Ok (dropna s)
    /\ isna_sum (dropna s) = 0
    /\ len (current st') = len (current st) - isna_sum s
    /\ self_audit_log st'
       = self_audit_log st
         ++ [col +:+ ": missing handled (" +:+ pretty (isna_sum s)
             +:+ " → 0) using drop"].
Proof.
  intros Hstrat Hs. unfold current in *.
  destruct (get_column_inv _ _ _ Hs) as (j & Hj & Hc & Hsv).
  assert (Hnew : get_column (dropna_subset col (heap st !!! self_df st)) col
                 = Ok (dropna s)).
  { unfold dropna_subset. rewrite Hj.
    rewrite (get_column_same_schema _ col s _ j Hs Hj). unfold dropna. do 2 f_equal.
    rewrite Hsv. simpl. apply (map_filter_comm (fun r => nth j r NA) notna). }
  assert (Hzero : isna_sum (dropna s) = 0).
  { unfold isna_sum, dropna. simpl. induction (values s) as [|c l IH]; [done|].
    rewrite filter_cons. destruct c; simpl; try done; by rewrite filter_cons. }
  unfold _handle_missing. rewrite Hstrat. exec. rewrite Hs. simpl.
  rewrite !lookup_total_insert_eq, Hnew. simpl. rewrite Hzero.
  eexists. split; [reflexivity|]. simpl. rewrite lookup_total_insert_eq.
  split; [by unfold dropna_subset; rewrite Hj|]. split; [done|]. split; [done|].
  split; [|done].
  rewrite <- (get_column_length _ _ _ Hnew), <- (get_column_length _ _ _ Hs).
  apply length_present.
Qed.

End HandlerResults.

Lemma handle_outliers_result_witness :
  let df := {| schema := [("age", Float64); ("id", Object)];
               rows := [[Num 25; Str "a"]; [Num 30; Str "b"]; [Num 40; Str "c"];
                        [Num 1000; Str "d"]] |} in
  let st := {| heap := {[ 1%positive := df ]}; self_df := 1%positive;
               self_audit_log := [] |} in
  let st' := (_handle_outliers "age" outliers_only st).1 in
  get_column (current st') "age"
  = Ok {| dtype_of := Float64; values := [Num 25; Num 30; Num 40] |}
  /\ self_audit_log st' = ["age: removed 1 outliers using IQR"].
Proof.
  intros df st st'.
  destruct (handle_outliers_result "age" outliers_only st st'
              {| dtype_of := Float64; values := [Num 25; Num 30; Num 40; Num 1000] |}
              (Some (-2785 # 8)) (Some (5255 # 8)))
    as (_ & Hcol & _ & Hlog); try reflexivity.
  split; [exact Hcol|exact Hlog].
Defined.

Lemma handle_missing_drop_result_witness :
  let df := {| schema := [("age", Float64); ("id", Object)];
               rows := [[Num 25; Str "a"]; [NA; Str "b"]; [Num 40; Str "c"]] |} in
  let st := {| heap := {[ 1%positive := df ]}; self_df := 1%positive;
               self_audit_log := [] |} in
  exists st',
    _handle_missing "age" (strategy_only "drop") st = (st', Ok ())
    /\ schema (current st') = schema (current st)
    /\ get_column (current st') "age"
       = Ok (dropna {| dtype_of := Float64; values := [Num 25; NA; Num 40] |})
    /\ isna_sum (dropna {| dtype_of := Float64; values := [Num 25; NA; Num 40] |}) = 0
    /\ len (current st') = len (current st) - 1
    /\ self_audit_log st' = [] ++ ["age: missing handled (1 → 0) using drop"].
Proof.
  intros df st.
  apply (handle_missing_drop_result "age" (strategy_only "drop") st
           {| dtype_of := Float64; values := [Num 25; NA; Num 40] |}); reflexivity.
Defined.

(** ** Filling strategies *)

Lemma fill_with_NA (c : cell) : fill_with NA c = c.
Proof. by destruct c. Qed.

Lemma fillna_values (s filled : Series) (v : cell) :
  fillna s v = Ok filled -> values filled = map (fill_with v) (values s).
Proof.
  unfold fillna. destruct v.
  - intros [= <-]. induction (values s) as [|c l IH]; [done|].
    simpl. by rewrite fill_with_NA, <- IH.
  - destruct (dtype_of s); try (by intros [= <-]).
    destruct (existsb _ _); [by intros [= <-]|done].
  - destruct (dtype_of s); try (by intros [= <-]).
    destruct (existsb _ _); [by intros [= <-]|done].
  - destruct (dtype_of s); try (by intros [= <-]).
    destruct (existsb _ _); [by intros [= <-]|done].
Qed.

Lemma isna_sum_filled (v : cell) (l : list cell) :
  v <> NA -> filter (fun c => isna c = true) (map (fill_with v) l) = [].
Proof.
  intros Hv. induction l as [|c l IH]; [done|]. simpl. rewrite filter_cons.
  destruct c; simpl; try done. by destruct v.
Qed.

Lemma set_cells_read (j : nat) (rs : list (list cell)) (vals : list cell) :
  Forall (fun r => j < length r) rs ->
  length vals = length rs ->
  map (fun r => nth j r NA) (set_cells j rs vals) = vals.
Proof.
  intros Hrs. revert vals. induction Hrs as [|r rs Hr Hrs IH]; intros vals Hlen.
  - by destruct vals.
  - destruct vals as [|v vals]; [done|]. simpl. injection Hlen as Hlen.
    rewrite (IH vals Hlen). f_equal.
    by rewrite nth_lookup, list_lookup_insert_eq.
Qed.

Lemma set_cells_other (j j' : nat) (rs : list (list cell)) (vals : list cell) :
  j <> j' ->
  map (fun r => nth j' r NA) (set_cells j rs vals)
  = map (fun r => nth j' r NA) rs.
Proof.
  intros Hne. revert vals. induction rs as [|r rs IH]; intros vals; [done|].
  simpl. rewrite IH. f_equal.
  by rewrite !nth_lookup, list_lookup_insert_ne.
Qed.

Lemma columns_set_column (col : string) (s : Series) (df : DataFrame) :
  columns (set_column col s df) = columns df.
Proof.
  unfold set_column. destruct (index_of col (columns df)) as [j|] eqn:Hj; [|done].
  unfold columns in *. simpl. rewrite list_fmap_insert. simpl.
  apply list_insert_id. by apply index_of_lookup.
Qed.

(** Round trip: a column written to a rectangular frame reads back. *)
Lemma get_set_column_same (df : DataFrame) (col : string) (s s' : Series) :
  rectangular df ->
  get_column df col = Ok s ->
  length (values s') = length (values s) ->
  get_column (set_column col s' df) col = Ok s'.
Proof.
  intros Hrect Hs Hlen.
  destruct (get_column_inv _ _ _ Hs) as (j & Hj & Hc & Hsv).
  unfold get_column. rewrite columns_set_column, Hj, Hc. simpl.
  unfold set_column. rewrite Hj. simpl.
  assert (Hlt : j < length (schema df)).
  { apply index_of_lookup in Hj. unfold columns in Hj.
    apply lookup_lt_Some in Hj. by rewrite length_fmap in Hj. }
  rewrite list_lookup_insert_eq by done. simpl.
  rewrite set_cells_read; [by destruct s'| |].
  - eapply Forall_impl; [exact Hrect|]. intros r Hr. simpl in Hr. lia.
  - rewrite Hlen, Hsv. simpl. by rewrite length_map.
Qed.

(** Writing a column leaves every other column as it was. *)
Lemma get_set_column_other (df : DataFrame) (col col' : string) (s' : Series) :
  col <> col' ->
  get_column (set_column col s' df) col' = get_column df col'.
Proof.
  intros Hne. unfold get_column. rewrite columns_set_column.
  destruct (index_of col' (columns df)) as [j'|] eqn:Hj'; [|done].
  destruct (Nat.eqb _ 1); [|done].
  unfold set_column. destruct (index_of col (columns df)) as [j|] eqn:Hj; [|done].
  simpl.
  assert (Hjj : j <> j').
  { intros <-. apply index_of_lookup in Hj, Hj'. congruence. }
  by rewrite list_lookup_insert_ne, set_cells_other.
Qed.

Ltac finish_fill :=
  split; [reflexivity|]; split; [assumption|]; split; [assumption|];
  split; [assumption|]; split; [assumption|]; split; [assumption|];
  split; [assumption|reflexivity].

Section FillStrategies.
Context `{Pandas}.

(** X15: What a filling strategy (mean, median, mode or constant) leaves when
    [_handle_missing] returns on a rectangular frame: exactly the missing
    cells of the column now hold the fill value, all other cells, all
    other columns and the number of rows are as before, and the audit
    entry gives the missing counts before and after. *)
Theorem handle_missing_fill_result (col : string) (rule : Rule) (st st' : State)
    (s : Series) (strategy : string) :
  r_missing rule ≫= m_strategy = Some strategy ->
  strategy = "mean" \/ strategy = "median" \/ strategy = "mode" \/ strategy = "constant" ->
  rectangular (current st) ->
  get_column (current st) col = Ok s ->
  _handle_missing col rule st = (st', Ok ()) ->
  exists v filled,
    fill_value rule strategy s = Ok v
    /\ fillna s v = Ok filled
    /\ get_column (current st') col = Ok filled
    /\ values filled = map (fill_with v) (values s)
    /\ (v <> NA -> isna_sum filled = 0)
    /\ (forall col', col <> col' ->
          get_column (current st') col' = get_column (current st) col')
    /\ len (current st') = len (current st)
    /\ self_audit_log st'
       = self_audit_log st
         ++ [col +:+ ": missing handled (" +:+ pretty (isna_sum s) +:+ " → "
             +:+ pretty (isna_sum filled) +:+ ") using " +:+ strategy].
Proof.
  intros Hstrat Hwhich Hrect Hs.
  assert (Htail : forall v filled,
    fill_value rule strategy s = Ok v ->
    fillna s v = Ok filled ->
    forall st1 log,
      current st1 = set_column col filled (current st) ->
      self_audit_log st1 = log ->
      get_column (current st1) col = Ok filled
      /\ values filled = map (fill_with v) (values s)
      /\ (v <> NA -> isna_sum filled = 0)
      /\ (forall col', col <> col' ->
            get_column (current st1) col' = get_column (current st) col')
      /\ len (current st1) = len (current st)).
  { intros v filled Hv Hf st1 log Hcur _.
    pose proof (fillna_values s filled v Hf) as Hvals.
    rewrite Hcur. split; [|split; [done|split; [|split]]].
    - apply (get_set_column_same _ _ s); [done|done|].
      by rewrite Hvals, length_map.
    - intros Hne. unfold isna_sum. by rewrite Hvals, isna_sum_filled.
    - intros col' Hne. by apply get_set_column_other.
    - destruct (shrinks_set_column col filled (current st)) as (Hle & _ & _).
      unfold set_column in *. destruct (index_of _ _); [|done].
      unfold len. simpl. by rewrite set_cells_length. }
  unfold current in *. unfold _handle_missing, fill_value in *. rewrite Hstrat.
  destruct Hwhich as [-> | [-> | [-> | ->]]]; simpl; exec; rewrite Hs; simpl.
  - unfold mbind, result_bind in *.
    destruct (mean s) as [m|] eqn:Hm; simpl; [|done].
    destruct (fillna s (float_cell m)) as [filled|] eqn:Hf; simpl; [|done].
    destruct (Htail (float_cell m) filled eq_refl Hf
                {| heap := <[self_df st := set_column col filled (heap st !!! self_df st)]>
                             (heap st);
                   self_df := self_df st; self_audit_log := self_audit_log st |}
                (self_audit_log st))
      as (Hget & Hvals & Hzero & Hother & Hlen);
      [by unfold current; simpl; rewrite lookup_total_insert_eq|done|].
    unfold current in *. simpl in *. rewrite Hget. simpl.
    intros [= <-]. exists (float_cell m), filled. simpl. finish_fill.
  - unfold mbind, result_bind in *.
    destruct (median s) as [m|] eqn:Hm; simpl; [|done].
    destruct (fillna s (float_cell m)) as [filled|] eqn:Hf; simpl; [|done].
    destruct (Htail (float_cell m) filled eq_refl Hf
                {| heap := <[self_df st := set_column col filled (heap st !!! self_df st)]>
                             (heap st);
                   self_df := self_df st; self_audit_log := self_audit_log st |}
                (self_audit_log st))
      as (Hget & Hvals & Hzero & Hother & Hlen);
      [by unfold current; simpl; rewrite lookup_total_insert_eq|done|].
    unfold current in *. simpl in *. rewrite Hget. simpl.
    intros [= <-]. exists (float_cell m), filled. simpl. finish_fill.
  - destruct (first_label (mode s)) as [m|] eqn:Hm; simpl; [|done].
    destruct (fillna s m) as [filled|] eqn:Hf; simpl; [|done].
    destruct (Htail m filled eq_refl Hf
                {| heap := <[self_df st := set_column col filled (heap st !!! self_df st)]>
                             (heap st);
                   self_df := self_df st; self_audit_log := self_audit_log st |}
                (self_audit_log st))
      as (Hget & Hvals & Hzero & Hother & Hlen);
      [by unfold current; simpl; rewrite lookup_total_insert_eq|done|].
    unfold current in *. simpl in *. rewrite Hget. simpl.
    intros [= <-]. exists m, filled. simpl. finish_fill.
  - set (v := default (Str "Unknown") _) in *.
    destruct (fillna s v) as [filled|] eqn:Hf; simpl; [|done].
    destruct (Htail v filled eq_refl Hf
                {| heap := <[self_df st := set_column col filled (heap st !!! self_df st)]>
                             (heap st);
                   self_df := self_df st; self_audit_log := self_audit_log st |}
                (self_audit_log st))
      as (Hget & Hvals & Hzero & Hother & Hlen);
      [by unfold current; simpl; rewrite lookup_total_insert_eq|done|].
    unfold current in *. simpl in *. rewrite Hget. simpl.
    intros [= <-]. exists v, filled. simpl. finish_fill.
Qed.

End FillStrategies.

Lemma handle_missing_fill_result_witness :
  let df := {| schema := [("city", Object); ("age", Float64)];
               rows := [[Str "Pune"; Num 25]; [NA; Num 30]] |} in
  let st := {| heap := {[ 1%positive := df ]}; self_df := 1%positive;
               self_audit_log := [] |} in
  let s := {| dtype_of := Object; values := [Str "Pune"; NA] |} in
  let st' := (_handle_missing "city" (strategy_only "constant") st).1 in
  exists v filled,
    fill_value (strategy_only "constant") "constant" s = Ok v
    /\ fillna s v = Ok filled
    /\ get_column (current st') "city" = Ok filled
    /\ values filled = map (fill_with v) (values s)
    /\ (v <> NA -> isna_sum filled = 0)
    /\ (forall col', "city" <> col' ->
          get_column (current st') col' = get_column (current st) col')
    /\ len (current st') = len (current st)
    /\ self_audit_log st'
       = self_audit_log st
         ++ ["city" +:+ ": missing handled (" +:+ pretty (isna_sum s) +:+ " → "
             +:+ pretty (isna_sum filled) +:+ ") using " +:+ "constant"].
Proof.
  intros df st s st'.
  apply (handle_missing_fill_result "city" (strategy_only "constant")
           st st' s "constant").
  - reflexivity.
  - right. right. right. reflexivity.
  - repeat (apply List.Forall_cons; [reflexivity|]). apply List.Forall_nil.
  - reflexivity.
  - reflexivity.
Defined.

(** ** Rules for columns the frame does not have *)

Section AbsentColumns.
Context `{Pandas}.

(** X16: Rules whose column is not in the working frame are passed over: the
    loop returns with the state it started from, no audit entry and no
    exception, whatever those rules contain. *)
Theorem rules_for_absent_columns_skipped (entries : list (string * Rule)) (st : State) :
  Forall (fun e => has_column (current st) e.1 = false) entries ->
  for_each entries apply_column st = (st, Ok ()).
Proof.
  induction 1 as [|[col rule] entries Hcol Hrest IH]; [done|].
  change (for_each ((col, rule) :: entries) apply_column st)
    with ((apply_column (col, rule) ≫= fun _ => for_each entries apply_column) st).
  unfold mbind at 1. unfold M_bind at 1.
  assert (Hstep : apply_column (col, rule) st = (st, Ok ())).
  { unfold apply_column, current in *. exec. simpl in Hcol. by rewrite Hcol. }
  by rewrite Hstep.
Qed.

End AbsentColumns.

Lemma rules_for_absent_columns_skipped_witness :
  let df := {| schema := [("age", Float64)]; rows := [[Num 25]; [NA]] |} in
  let st := {| heap := {[ 1%positive := df ]}; self_df := 1%positive;
               self_audit_log := [] |} in
  @for_each (string * Rule) [("Age", strategy_only "mode"); ("city", drop_only)]
    (@apply_column Text.pandas) st = (st, Ok ()).
Proof.
  intros df st. apply (@rules_for_absent_columns_skipped Text.pandas).
  repeat (apply List.Forall_cons; [reflexivity|]). apply List.Forall_nil.
Defined.

(** ** Rows after duplicate removal *)

Lemma row_eqb_refl (r : list cell) : row_eqb r r = true.
Proof. induction r as [|c r IH]; [done|]. simpl. by rewrite cell_eqb_refl, IH. Qed.

Lemma first_occurrences_distinct (seen rs : list (list cell)) :
  distinct_rows (first_occurrences seen rs)
  /\ Forall (fun r => existsb (row_eqb r) seen = false) (first_occurrences seen rs).
Proof.
  revert seen. induction rs as [|r rs IH]; intros seen; simpl; [by split|].
  destruct (existsb (row_eqb r) seen) eqn:E; [apply IH|].
  destruct (IH (r :: seen)) as [Hd Hs]. simpl. repeat split; [|done|].
  - eapply Forall_impl; [exact Hs|]. intros r' Hr'. simpl in Hr'.
    by apply orb_false_iff in Hr' as [? _].
  - constructor; [done|].
    eapply Forall_impl; [exact Hs|]. intros r' Hr'. simpl in Hr'.
    by apply orb_false_iff in Hr' as [_ ?].
Qed.

Lemma first_occurrences_covers (seen rs : list (list cell)) (r : list cell) :
  r ∈ rs ->
  (exists r', r' ∈ seen /\ row_eqb r r' = true)
  \/ (exists r', r' ∈ first_occurrences seen rs /\ row_eqb r r' = true).
Proof.
  revert seen. induction rs as [|x rs IH]; intros seen Hr; [by apply elem_of_nil in Hr|].
  simpl. destruct (existsb (row_eqb x) seen) eqn:Hex.
  - apply elem_of_cons in Hr as [->|Hr]; [|by apply IH].
    left. apply existsb_exists in Hex as (u & Hu%list_elem_of_In & Heq). by exists u.
  - apply elem_of_cons in Hr as [->|Hr].
    + right. exists x. split; [left|apply row_eqb_refl].
    + destruct (IH (x :: seen) Hr) as [(u & Hu & Heq)|(u & Hu & Heq)].
      * apply elem_of_cons in Hu as [->|Hu].
        -- right. exists x. split; [left|done].
        -- left. by exists u.
      * right. exists u. split; [by right|done].
Qed.

Lemma first_occurrences_sublist (seen rs : list (list cell)) :
  first_occurrences seen rs `sublist_of` rs.
Proof.
  revert seen. induction rs as [|r rs IH]; intros seen; simpl; [done|].
  destruct (existsb _ _); [by apply sublist_cons|by apply sublist_skip].
Qed.

Section DistinctRows.
Context `{Pandas}.

(** X17: With [drop_duplicates] switched on, the frame the engine returns has
    the caller's columns and a selection of its rows in their order; if
    the frame is not empty, no returned row equals an earlier returned
    row and every row of the caller's frame equals a returned one.  The
    audit entry counts the rows that went. *)
Theorem drop_duplicates_keeps_one_of_each
    (h : gmap loc DataFrame) (r : loc) (df : DataFrame)
    (rules : RuleSet) (g : GlobalRules) :
  h !! r = Some df ->
  global_rules rules = Some g ->
  truthy (g_standardize_column_names g) = false ->
  truthy (g_drop_duplicates g) = true ->
  default [] (rule_columns rules) = [] ->
  exists df1,
    returned (run h r rules)
    = Some (df1, ["Dropped " +:+ pretty (len df - len df1) +:+ " duplicate rows"])
    /\ schema df1 = schema df
    /\ rows df1 `sublist_of` rows df
    /\ (empty df = false ->
          distinct_rows (rows df1)
          /\ forall row, row ∈ rows df ->
               exists row', row' ∈ rows df1 /\ row_eqb row row' = true)
    /\ (empty df = true -> df1 = df).
Proof.
  intros Hr Hg Hs Hd Hc. exists (drop_duplicates df).
  split; [by eapply run_drop_duplicates_only|].
  unfold drop_duplicates. destruct (empty df); simpl.
  - by repeat split.
  - split; [done|]. split; [apply first_occurrences_sublist|]. split; [|done].
    intros _. split; [apply first_occurrences_distinct|].
    intros row Hrow.
    destruct (first_occurrences_covers [] (rows df) row Hrow) as [(u & Hu & _)|Hin];
      [by apply elem_of_nil in Hu|done].
Qed.

End DistinctRows.

Lemma drop_duplicates_keeps_one_of_each_witness :
  let df := {| schema := [("a", Int64); ("b", Object)];
               rows := [[Num 1; Str "x"]; [Num 2; NA]; [Num 1; Str "x"]; [Num 2; NA]] |} in
  let rules := {| global_rules :=
                    Some {| g_standardize_column_names := None;
                            g_drop_duplicates := Some true |};
                  rule_columns := None |} in
  exists df1,
    returned (@run Text.pandas {[ 1%positive := df ]} 1%positive rules)
    = Some (df1, ["Dropped " +:+ pretty (len df - len df1) +:+ " duplicate rows"])
    /\ schema df1 = schema df
    /\ rows df1 `sublist_of` rows df
    /\ (empty df = false ->
          distinct_rows (rows df1)
          /\ forall row, row ∈ rows df ->
               exists row', row' ∈ rows df1 /\ row_eqb row row' = true)
    /\ (empty df = true -> df1 = df).
Proof.
  intros df rules.
  apply (@drop_duplicates_keeps_one_of_each Text.pandas {[ 1%positive := df ]}
           1%positive df rules
           {| g_standardize_column_names := None; g_drop_duplicates := Some true |});
    reflexivity.
Defined.

(** ** Type casts and unrecognised fragments *)

Section TypeCasts.
Context `{Pandas}.

Lemma cast_to_length (t : string) (s s' : Series) :
  cast_to t s = Some s' -> length (values s') = length (values s).
Proof.
  unfold cast_to.
  destruct (String.eqb t "numeric"); [intros [= <-]; apply safe_to_numeric_length|].
  repeat (destruct (String.eqb t _); [intros [= <-]; simpl; apply length_map || done|]).
  done.
Qed.

(** X18: A recognised [type] (numeric, datetime, categorical) replaces the
    column by its cast on a rectangular frame, leaves the other columns
    and the number of rows alone and logs "<col>: cast to <type>".  Any
    other [type], or none, changes nothing and logs nothing. *)
Theorem handle_type_cast_result (col : string) (rule : Rule) (st : State) (s : Series) :
  rectangular (current st) ->
  get_column (current st) col = Ok s ->
  match r_type rule ≫= fun t => cast_to t s with
  | Some s' =>
      exists st' t,
        r_type rule = Some t
        /\ _handle_type_cast col rule st = (st', Ok ())
        /\ get_column (current st') col = Ok s'
        /\ (forall col', col <> col' ->
              get_column (current st') col' = get_column (current st) col')
        /\ len (current st') = len (current st)
        /\ self_audit_log st' = self_audit_log st ++ [col +:+ ": cast to " +:+ t]
  | None => _handle_type_cast col rule st = (st, Ok ())
  end.
Proof.
  intros Hrect Hs.
  assert (Hstep : forall s' t msg,
    cast_to t s = Some s' ->
    let st' := {| heap := <[self_df st := set_column col s' (heap st !!! self_df st)]>
                            (heap st);
                  self_df := self_df st;
                  self_audit_log := self_audit_log st ++ [msg] |} in
    get_column (current st') col = Ok s'
    /\ (forall col', col <> col' ->
          get_column (current st') col' = get_column (current st) col')
    /\ len (current st') = len (current st)).
  { intros s' t msg Hcast st'. unfold current, st'. simpl.
    rewrite lookup_total_insert_eq. split; [|split].
    - apply (get_set_column_same _ _ s); [done|done|by eapply cast_to_length].
    - intros col' Hne. by apply get_set_column_other.
    - unfold set_column. destruct (index_of _ _); [|done].
      unfold len. simpl. by rewrite set_cells_length. }
  unfold _handle_type_cast. unfold current in Hs.
  destruct (r_type rule) as [t|] eqn:Ht; simpl; [|done].
  unfold cast_to in *.
  destruct (String.eqb t "numeric") eqn:E1.
  { apply String.eqb_eq in E1 as ->. simpl. exec. rewrite Hs. simpl.
    eexists _, "numeric". split; [done|]. split; [reflexivity|].
    destruct (Hstep (safe_to_numeric s) "numeric" (col +:+ ": cast to numeric") eq_refl)
      as (? & ? & ?). by repeat split. }
  destruct (String.eqb t "datetime") eqn:E2.
  { apply String.eqb_eq in E2 as ->. simpl. exec. rewrite Hs. simpl.
    eexists _, "datetime". split; [done|]. split; [reflexivity|].
    destruct (Hstep (to_datetime s) "datetime" (col +:+ ": cast to datetime") eq_refl)
      as (? & ? & ?). by repeat split. }
  destruct (String.eqb t "categorical") eqn:E3.
  { apply String.eqb_eq in E3 as ->. simpl. exec. rewrite Hs. simpl.
    eexists _, "categorical". split; [done|]. split; [reflexivity|].
    destruct (Hstep (astype_category s) "categorical"
                (col +:+ ": cast to categorical") eq_refl)
      as (? & ? & ?). by repeat split. }
  apply String.eqb_neq in E1, E2, E3.
  rewrite !bool_decide_eq_false_2; [done|congruence..].
Qed.

End TypeCasts.

Lemma handle_type_cast_result_witness :
  let df := {| schema := [("n", Object); ("id", Object)];
               rows := [[Str "1"; Str "a"]; [Str "x"; Str "b"]; [Str "3"; Str "c"]] |} in
  let st := {| heap := {[ 1%positive := df ]}; self_df := 1%positive;
               self_audit_log := [] |} in
  let rule := {| r_drop := None; r_type := Some "numeric"; r_missing := None;
                 r_outliers := None |} in
  exists st' t,
    r_type rule = Some t
    /\ _handle_type_cast (H := Text.pandas) "n" rule st = (st', Ok ())
    /\ get_column (current st') "n"
       = Ok {| dtype_of := Float64; values := [Num 1; NA; Num 3] |}
    /\ (forall col', "n" <> col' ->
          get_column (current st') col' = get_column (current st) col')
    /\ len (current st') = len (current st)
    /\ self_audit_log st' = self_audit_log st ++ ["n" +:+ ": cast to " +:+ t].
Proof.
  intros df st rule.
  apply (@handle_type_cast_result Text.pandas "n" rule st
           {| dtype_of := Object; values := [Str "1"; Str "x"; Str "3"] |}).
  - repeat (apply List.Forall_cons; [reflexivity|]). apply List.Forall_nil.
  - reflexivity.
Defined.

(** X19: A strategy that is none of mean, median, mode, constant and drop
    fills nothing, yet an audit entry "missing handled (n → n)" is
    written for it. *)
Theorem unrecognised_strategy_only_logs (col : string) (rule : Rule) (st : State)
    (s : Series) (strategy : string) :
  r_missing rule ≫= m_strategy = Some strategy ->
  strategy <> "" ->
  strategy ∉ ["mean"; "median"; "mode"; "constant"; "drop"] ->
  get_column (current st) col = Ok s ->
  _handle_missing col rule st
  = ({| heap := heap st; self_df := self_df st;
        self_audit_log :=
          self_audit_log st
          ++ [col +:+ ": missing handled (" +:+ pretty (isna_sum s) +:+ " → "
              +:+ pretty (isna_sum s) +:+ ") using " +:+ strategy] |}, Ok ()).
Proof.
  intros Hstrat Hne Hnot Hs. unfold current in Hs. unfold _handle_missing.
  rewrite Hstrat. destruct strategy as [|c str]; [done|].
  assert (Hno : forall known,
            known ∈ ["mean"; "median"; "mode"; "constant"; "drop"] ->
            String.eqb (String c str) known = false).
  { intros known Hin. apply String.eqb_neq. intros Heq. apply Hnot. by rewrite Heq. }
  rewrite !Hno by (repeat (first [left | right])).
  exec. by rewrite Hs.
Qed.

Lemma unrecognised_strategy_only_logs_witness :
  let df := {| schema := [("age", Float64)]; rows := [[Num 25]; [NA]] |} in
  let st := {| heap := {[ 1%positive := df ]}; self_df := 1%positive;
               self_audit_log := [] |} in
  _handle_missing "age" (strategy_only "average") st
  = ({| heap := {[ 1%positive := df ]}; self_df := 1%positive;
        self_audit_log := ["age: missing handled (1 → 1) using average"] |}, Ok ()).
Proof.
  intros df st.
  apply (unrecognised_strategy_only_logs "age" (strategy_only "average") st
           {| dtype_of := Float64; values := [Num 25; NA] |} "average").
  - reflexivity.
  - discriminate.
  - intros Hin. repeat (apply elem_of_cons in Hin as [Hin|Hin]; [discriminate|]).
    by apply elem_of_nil in Hin.
  - reflexivity.
Defined.

(** ** The suggested rules *)

Lemma dict_set_Forall {V} (P : string * V -> Prop) (k : string) (v : V)
    (d : list (string * V)) :
  P (k, v) -> Forall P d -> Forall P (dict_set k v d).
Proof.
  intros Hkv. induction 1 as [|[k' v'] d Hx Hd IH]; simpl.
  - by repeat constructor.
  - destruct (String.eqb k k'); by constructor.
Qed.

Lemma get_column_label (df : DataFrame) (col : string) (s : Series) :
  get_column df col = Ok s -> col ∈ columns df.
Proof.
  intros (j & Hj & _)%get_column_inv.
  apply index_of_lookup in Hj. by eapply list_elem_of_lookup_2.
Qed.

Lemma suggest_rule_well (info : ColumnProfile) (rule : Rule) :
  suggest_rule info = Returned rule ->
  r_type rule = None
  /\ (r_drop rule = Some true -> r_missing rule = None)
  /\ (r_drop rule = None \/ r_drop rule = Some true).
Proof.
  unfold suggest_rule, suggest_missing.
  destruct (suggest_outliers info) as [o|]; [|by repeat case_match].
  repeat case_match; simplify_eq; intros [= <-]; simpl; split_and!;
    first [done | by left | by right].
Qed.

Section Suggestions.
Context `{Pandas}.

Lemma column_profile_numeric (s : Series) (cp : ColumnProfile) :
  column_profile s = Ok cp ->
  detected_type cp = "numeric" -> is_Some (outlier_info cp).
Proof.
  intros (_ & _ & _ & Hd & Ho)%column_profile_all_fields. rewrite Hd.
  intros Hk%infer_numeric_kind. unfold _outlier_info in Ho. rewrite Hk in Ho.
  simpl in Ho. apply bind_Ok in Ho as ([lower upper] & _ & Ho). inv_bind Ho.
  by rewrite <- Ho.
Qed.

Lemma profile_loop_Forall (P : string * ColumnProfile -> Prop)
    (df : DataFrame) (cols : list string) acc res :
  (forall col s cp, get_column df col = Ok s -> column_profile s = Ok cp -> P (col, cp)) ->
  profile_loop df cols acc = Ok res ->
  Forall P acc -> Forall P res.
Proof.
  intros HP. revert acc. induction cols as [|c cols IH]; intros acc Hl Hacc; simpl in Hl.
  - by injection Hl as <-.
  - inv_bind Hl. apply (IH _ Hl). apply dict_set_Forall; [|done].
    eapply HP; eassumption.
Qed.

Lemma suggest_columns_returns (df : DataFrame)
    (entries : list (string * ColumnProfile)) (acc : list (string * Rule)) :
  Forall (fun e => e.1 ∈ columns df
                   /\ (detected_type e.2 = "numeric" -> is_Some (outlier_info e.2)))
    entries ->
  Forall (fun e => e.1 ∈ columns df /\ well_suggested e.2) acc ->
  exists cols,
    suggest_columns entries acc = Returned cols
    /\ Forall (fun e => e.1 ∈ columns df /\ well_suggested e.2) cols.
Proof.
  intros Hentries. revert acc.
  induction Hentries as [|[col info] entries [Hcol Hnum] Hrest IH]; intros acc Hacc.
  - by exists acc.
  - simpl in *.
    assert (Hret : exists rule, suggest_rule info = Returned rule).
    { unfold suggest_rule, suggest_outliers.
      destruct (suggest_missing info) as [d m].
      destruct (String.eqb (detected_type info) "numeric") eqn:E; [|by eexists].
      apply String.eqb_eq in E. destruct (Hnum E) as [o ->]. by eexists. }
    destruct Hret as [rule Hrule]. rewrite Hrule.
    apply IH. destruct (rule_nonempty rule) eqn:Hne; [|done].
    apply dict_set_Forall; [|done]. simpl. split; [done|].
    destruct (suggest_rule_well info rule Hrule) as (? & ? & ?).
    by repeat split.
Qed.

(** X20: On every profile the profiler returns, the suggestion step of the
    application completes: the lookup of [outlier_count] is only reached
    for columns that carry an outlier summary.  The suggested ruleset
    switches [drop_duplicates] on, and each of its rules is for a column
    of the frame, is not empty, has no [type], and has no [missing]
    fragment when it drops the column. *)
Theorem suggestions_from_profile (df : DataFrame) (p : DatasetProfile) :
  profile df = Ok p ->
  exists rules cols,
    suggest_rules p = Returned rules
    /\ global_rules rules
       = Some {| g_standardize_column_names := None; g_drop_duplicates := Some true |}
    /\ rule_columns rules = Some cols
    /\ Forall (fun e => e.1 ∈ columns df /\ well_suggested e.2) cols.
Proof.
  unfold profile. intros Hp. inv_bind Hp. subst p. unfold suggest_rules. simpl.
  assert (Hent : Forall (fun e => e.1 ∈ columns df
                           /\ (detected_type e.2 = "numeric" -> is_Some (outlier_info e.2)))
                   a).
  { apply (profile_loop_Forall _ df (columns df) [] a); [|done|constructor].
    intros col s cp Hs Hcp. simpl. split; [by eapply get_column_label|].
    by apply (column_profile_numeric s). }
  destruct (suggest_columns_returns df a [] Hent) as (cols & Hcols & Hall);
    [constructor|].
  rewrite Hcols. by eexists _, cols.
Qed.

End Suggestions.

Lemma suggestions_from_profile_witness :
  let df := {| schema := [("age", Float64); ("city", Object); ("note", Object)];
               rows := [[Num 25; Str "x"; NA]; [NA; Str "x"; NA]; [NA; NA; NA];
                        [Num 40; Str "y"; Str "n"]; [Num 1000; Str "y"; NA];
                        [Num 35; Str "z"; NA]; [Num 30; Str "z"; NA];
                        [Num 31; Str "z"; NA]; [NA; Str "z"; NA]] |} in
  exists p,
    @profile Text.pandas df = Ok p
    /\ suggest_rules p
       = Returned
           {| global_rules :=
                Some {| g_standardize_column_names := None;
                        g_drop_duplicates := Some true |};
              rule_columns :=
                Some [("age", outliers_only);
                      ("city", strategy_only "mode");
                      ("note", drop_only)] |}
    /\ exists rules cols,
         suggest_rules p = Returned rules
         /\ global_rules rules
            = Some {| g_standardize_column_names := None;
                      g_drop_duplicates := Some true |}
         /\ rule_columns rules = Some cols
         /\ Forall (fun e => e.1 ∈ columns df /\ well_suggested e.2) cols.
Proof.
  intros df. eexists. split; [reflexivity|]. split; [by vm_compute|].
  apply (@suggestions_from_profile Text.pandas df). reflexivity.
Defined.

(** ** Outlier removal keeps a value *)

Lemma elem_of_insert_sorted (x y : Q) (l : list Q) :
  x ∈ insert_sorted y l <-> x = y \/ x ∈ l.
Proof.
  induction l as [|z l IH]; simpl.
  - rewrite list_elem_of_singleton. split; [by left|].
    intros [->|Hx]; [done|]. by apply elem_of_nil in Hx.
  - destruct (Qle_bool y z); [by rewrite elem_of_cons|].
    rewrite !elem_of_cons, IH. tauto.
Qed.

Lemma elem_of_sort_Q (x : Q) (l : list Q) : x ∈ sort_Q l <-> x ∈ l.
Proof.
  induction l as [|y l IH]; simpl; [done|].
  rewrite elem_of_insert_sorted, elem_of_cons, IH. tauto.
Qed.

Lemma numbers_elem_of (l : list cell) (xs : list Q) (x : Q) :
  numbers l = Ok xs -> x ∈ xs -> Num x ∈ l.
Proof.
  revert xs. induction l as [|c l IH]; intros xs Hn Hx; simpl in Hn.
  - injection Hn as <-. by apply elem_of_nil in Hx.
  - destruct c; try done.
    + right. by eapply IH.
    + inv_bind Hn. subst xs. apply elem_of_cons in Hx as [->|Hx]; [left|right].
      by eapply IH.
Qed.

Lemma numbers_not_nil (l : list cell) (xs : list Q) (q : Q) :
  numbers l = Ok xs -> Num q ∈ l -> xs <> [].
Proof.
  revert xs. induction l as [|c l IH]; intros xs Hn Hq; [by apply elem_of_nil in Hq|].
  simpl in Hn. destruct c; try done.
  - apply elem_of_cons in Hq as [?|Hq]; [done|]. by eapply IH.
  - inv_bind Hn. by subst xs.
Qed.

(** Some element of sorted data lies between Q1 - 1.5 IQR and Q3. *)
Lemma interquartile_element (x0 : Q) (t : list Q) :
  StronglySorted Qle (x0 :: t) ->
  let q1 := interpolate (1 # 4) (x0 :: t) x0 in
  let q3 := interpolate (3 # 4) (x0 :: t) x0 in
  exists e, e ∈ x0 :: t /\ (q1 - (3 # 2) * (q3 - q1) <= e)%Q /\ (e <= q3)%Q.
Proof.
  intros Hs. unfold interpolate.
  set (m := length t).
  replace (Z.of_nat (length (x0 :: t)) - 1)%Z with (Z.of_nat m)
    by (simpl length; lia).
  set (N := inject_Z (Z.of_nat m)).
  assert (HN : (0 <= N)%Q) by (unfold N; rewrite <- (Zle_Qle 0); lia).
  set (h := ((1 # 4) * N)%Q). set (h' := ((3 # 4) * N)%Q).
  assert (Hh0 : (0 <= h)%Q) by (unfold h; lra).
  assert (Hhh : (h <= h')%Q) by (unfold h, h'; lra).
  assert (Hh3 : (h' == 3 * h)%Q) by (unfold h, h'; lra).
  assert (HhN : (h' <= N)%Q) by (unfold h'; lra).
  set (lo := Qfloor h). set (lo' := Qfloor h').
  assert (Hlo0 : (0 <= lo)%Z).
  { unfold lo. change 0%Z with (Qfloor 0). by apply Qfloor_resp_le. }
  assert (Hll : (lo <= lo')%Z) by (by apply Qfloor_resp_le).
  assert (Hlm : (lo' <= Z.of_nat m)%Z).
  { unfold lo'. rewrite <- (Qfloor_Z (Z.of_nat m)). by apply Qfloor_resp_le. }
  pose proof (Qfloor_le h) as Hf1. pose proof (Qlt_floor h) as Hf2.
  pose proof (Qfloor_le h') as Hf1'. pose proof (Qlt_floor h') as Hf2'.
  fold lo in Hf1, Hf2. fold lo' in Hf1', Hf2'.
  rewrite inject_Z_plus in Hf2, Hf2'.
  assert (Hq0 : (0 <= inject_Z lo)%Q) by (rewrite <- (Zle_Qle 0); lia).
  set (i := Z.to_nat lo). set (i' := Z.to_nat lo').
  assert (Hii : i <= i') by (unfold i, i'; lia).
  assert (Him : i' <= m) by (unfold i'; lia).
  set (vlo := nth i (x0 :: t) x0). set (vlo' := nth i' (x0 :: t) x0).
  set (vhi := nth (i + 1) (x0 :: t) vlo). set (vhi' := nth (i' + 1) (x0 :: t) vlo').
  assert (Hlen : length (x0 :: t) = S m) by done.
  assert (Hb : (vlo <= vhi)%Q).
  { unfold vhi. destruct (decide (i + 1 < S m)) as [Hin|Hout].
    - apply sorted_nth_le; [done|lia|lia].
    - rewrite nth_overflow by (rewrite Hlen; lia). apply Qle_refl. }
  assert (Hb' : (vlo' <= vhi')%Q).
  { unfold vhi'. destruct (decide (i' + 1 < S m)) as [Hin|Hout].
    - apply sorted_nth_le; [done|lia|lia].
    - rewrite nth_overflow by (rewrite Hlen; lia). apply Qle_refl. }
  exists vlo'. split; [|split].
  - unfold vlo'. apply list_elem_of_In, nth_In. rewrite Hlen. lia.
  - destruct (decide (lo = lo')) as [Heq|Hne].
    + assert (Hi : i = i') by (unfold i, i'; by rewrite Heq).
      unfold vhi', vlo' in *. rewrite <- Hi, <- Heq in *. fold vlo. fold vhi.
      clearbody vlo vhi. clearbody h h' lo.
      assert (0 <= (3 * h - (h - inject_Z lo)) * (vhi - vlo))%Q
        by (apply Qmult_le_0_compat; lra).
      rewrite Hh3. lra.
    + assert (Hlt : i + 1 <= i') by (unfold i, i'; lia).
      assert (Hmid : (vhi <= vlo')%Q).
      { unfold vhi, vlo'. apply sorted_nth_le; [done|lia|lia]. }
      clearbody vhi vhi'. clearbody vlo vlo'. clearbody h h' lo lo'.
      change (inject_Z 1) with 1%Q in *.
      assert (0 <= (1 - (h - inject_Z lo)) * (vhi - vlo))%Q
        by (apply Qmult_le_0_compat; lra).
      assert (0 <= (h - inject_Z lo) * (vhi - vlo))%Q
        by (apply Qmult_le_0_compat; lra).
      assert (0 <= (h' - inject_Z lo') * (vhi' - vlo'))%Q
        by (apply Qmult_le_0_compat; lra).
      lra.
  - clearbody vhi'. clearbody vlo'. clearbody h' lo'.
    assert (0 <= (h' - inject_Z lo') * (vhi' - vlo'))%Q
      by (apply Qmult_le_0_compat; lra).
    lra.
Qed.

(** X6: When a column holds at least one number, and its numbers are
    integers of magnitude at most 2^40, the IQR bounds computed over it
    are multiples of 1/8 that a double holds exactly, and one of its
    values lies within them, so outlier removal, which keeps the cells
    within the bounds, never empties such a column. *)
Theorem iqr_bounds_keep_a_value (s : Series) (lower upper : float) (q : Q) :
  Forall (fun c => exact_cell c = true) (values s) ->
  calculate_iqr_bounds (dropna s) = Ok (lower, upper) ->
  Num q ∈ values s ->
  (exists lo hi,
     lower = Some lo /\ upper = Some hi /\ exact_eighth lo /\ exact_eighth hi)
  /\ (exists c, c ∈ values s /\ within_bounds lower upper c = true)
  /\ filter (fun c => within_bounds lower upper c = true) (values s) <> [].
Proof.
  intros Hexact Hb Hq.
  assert (Hrep : exists lo hi,
    lower = Some lo /\ upper = Some hi /\ exact_eighth lo /\ exact_eighth hi).
  { destruct (numeric_values (dropna s)) as [xs|e] eqn:Hxs;
      [|by unfold calculate_iqr_bounds, quantile in Hb; rewrite Hxs in Hb].
    apply (iqr_bounds_exact (dropna s) xs); [|done| |done].
    - unfold dropna. simpl. by apply filter_keeps_Forall.
    - assert (Hnum : numbers (values (dropna s)) = Ok xs).
      { unfold numeric_values in Hxs. by destruct (dtype_of (dropna s)). }
      apply (numbers_not_nil _ xs q Hnum). unfold dropna. simpl.
      by apply list_elem_of_filter. }
  assert (Hex : exists c, c ∈ values s /\ within_bounds lower upper c = true).
  { unfold calculate_iqr_bounds in Hb.
    destruct (numeric_values (dropna s)) as [xs|e] eqn:Hxs;
      [|by unfold quantile in Hb; rewrite Hxs in Hb].
    rewrite !(quantile_of_numbers _ _ xs Hxs) in Hb. simpl in Hb.
    assert (Hnum : numbers (values (dropna s)) = Ok xs).
    { unfold numeric_values in Hxs. by destruct (dtype_of (dropna s)). }
    assert (Hne : xs <> []).
    { apply (numbers_not_nil _ xs q Hnum). unfold dropna. simpl.
      by apply list_elem_of_filter. }
    pose proof (sort_Q_sorted xs) as Hs.
    destruct (sort_Q xs) as [|y t] eqn:Hsort.
    { destruct xs as [|x xs]; [done|]. by apply insert_sorted_not_nil in Hsort. }
    rewrite !quantile_sorted_cons in Hb. simpl in Hb. injection Hb as <- <-.
    destruct (interquartile_element y t Hs) as (e & He & Hlo & Hhi).
    exists (Num e). split.
    - assert (Hin : Num e ∈ values (dropna s)).
      { apply (numbers_elem_of _ xs e Hnum). apply elem_of_sort_Q.
        by rewrite Hsort. }
      unfold dropna in Hin. simpl in Hin. by apply list_elem_of_filter in Hin as [_ ?].
    - simpl. unfold Qge_bool. apply andb_true_iff.
      rewrite !Qle_bool_iff, !Qred_correct.
      set (q1 := interpolate (1 # 4) (y :: t) y) in *.
      set (q3 := interpolate (3 # 4) (y :: t) y) in *.
      clearbody q1 q3. split; lra. }
  split; [done|]. split; [done|]. destruct Hex as (c & Hc & Hw). intros Hnil.
  assert (Hin : c ∈ filter (fun c => within_bounds lower upper c = true) (values s))
    by by apply list_elem_of_filter.
  rewrite Hnil in Hin. by apply elem_of_nil in Hin.
Qed.

Lemma iqr_bounds_keep_a_value_witness :
  let s := {| dtype_of := Float64; values := [Num 1000; NA; Num 1] |} in
  (exists lo hi,
     Some (-997 # 2) = Some lo /\ Some (2999 # 2) = Some hi
     /\ exact_eighth lo /\ exact_eighth hi)
  /\ (exists c, c ∈ values s /\ within_bounds (Some (-997 # 2)) (Some (2999 # 2)) c = true)
  /\ filter (fun c => within_bounds (Some (-997 # 2)) (Some (2999 # 2)) c = true)
       (values s) <> [].
Proof.
  intros s. apply (iqr_bounds_keep_a_value s _ _ 1000).
  - repeat (apply List.Forall_cons; [reflexivity|]). apply List.Forall_nil.
  - reflexivity.
  - left.
Defined.

(** ** The global phase as a whole *)

Lemma drop_duplicates_standardized (df : DataFrame) :
  drop_duplicates (standardized df) = standardized (drop_duplicates df).
Proof.
  unfold drop_duplicates, empty, len, standardized. simpl. rewrite length_map.
  by destruct (_ || _).
Qed.

Section GlobalPhase.
Context `{Pandas}.

(** X21: With no column rules, the engine returns the caller's frame
    after the global rules that are switched on, names first and
    duplicates second, with one audit entry per rule in that order (none
    and an equal copy when both are off).  The returned frame does not
    depend on that order: removing duplicates and standardizing names
    commute. *)
Theorem run_global_rules_only (h : gmap loc DataFrame) (r : loc) (df : DataFrame)
    (rules : RuleSet) (g : GlobalRules) :
  h !! r = Some df ->
  global_rules rules = Some g ->
  default [] (rule_columns rules) = [] ->
  let df1 := if truthy (g_standardize_column_names g) then standardized df else df in
  let df2 := if truthy (g_drop_duplicates g) then drop_duplicates df1 else df1 in
  returned (run h r rules)
  = Some (df2,
          (if truthy (g_standardize_column_names g)
           then ["Standardized column names"] else [])
          ++ (if truthy (g_drop_duplicates g)
              then ["Dropped " +:+ pretty (len df - len df2) +:+ " duplicate rows"]
              else []))
  /\ drop_duplicates (standardized df) = standardized (drop_duplicates df).
Proof.
  intros Hr Hg Hc df1 df2. split; [|apply drop_duplicates_standardized].
  unfold run, apply, _apply_global_rules, returned.
  rewrite Hg, Hc. unfold __init__. exec. unfold df2, df1.
  destruct (truthy (g_standardize_column_names g));
    destruct (truthy (g_drop_duplicates g)); simpl;
    by rewrite !lookup_total_insert_eq, ?(lookup_total_correct _ _ _ Hr).
Qed.

End GlobalPhase.

Lemma run_global_rules_only_witness :
  let df := {| schema := [("First Name", Object)];
               rows := [[Str "Ann"]; [Str "Bob"]; [Str "Ann"]] |} in
  let g := {| g_standardize_column_names := Some true; g_drop_duplicates := Some true |} in
  let rules := {| global_rules := Some g; rule_columns := Some [] |} in
  returned (@run Text.pandas {[ 1%positive := df ]} 1%positive rules)
  = Some ({| schema := [("first_name", Object)]; rows := [[Str "Ann"]; [Str "Bob"]] |},
          ["Standardized column names"; "Dropped 1 duplicate rows"]).
Proof.
  intros df g rules.
  refine (proj1 (@run_global_rules_only Text.pandas {[ 1%positive := df ]} 1%positive df
                   rules g _ _ _)); reflexivity.
Defined.

(** ** Rulesets that only drop columns *)

Lemma filter_absent_label (col : string) (l : list string) :
  existsb (String.eqb col) l = false ->
  filter (fun c => String.eqb col c = false) l = l.
Proof.
  induction l as [|c l IH]; [done|]. simpl.
  intros [Hc Hl]%orb_false_iff. rewrite filter_cons, Hc. simpl. by rewrite IH.
Qed.

Lemma filter_all_kept {A} (P : A -> Prop) `{!forall x, Decision (P x)} (l : list A) :
  (forall x, P x) -> filter P l = l.
Proof.
  intros HP. induction l as [|x l IH]; [done|].
  by rewrite filter_cons_True, IH.
Qed.

Section DropRules.
Context `{Pandas}.

Lemma apply_column_drop_step (col : string) (rule : Rule) (st : State) :
  r_drop rule = Some true ->
  exists st',
    apply_column (col, rule) st = (st', Ok ())
    /\ columns (current st')
       = filter (fun c => String.eqb col c = false) (columns (current st))
    /\ len (current st') = len (current st).
Proof.
  intros Hdrop. unfold apply_column, current. exec.
  destruct (has_column (heap st !!! self_df st) col) eqn:Hcol; simpl.
  - rewrite Hdrop. simpl. eexists. split; [reflexivity|]. simpl.
    rewrite lookup_total_insert_eq. split; [apply columns_drop_column|].
    unfold drop_column, len. simpl. by rewrite length_map.
  - exists st. split; [done|]. split; [|done].
    symmetry. by apply filter_absent_label.
Qed.

(** X22: A list of rules that all carry [drop: true] never raises:
    afterwards the frame has exactly the columns that are not named by
    a rule, in their order, and all its rows. *)
Theorem drop_rules_remove_listed_columns (entries : list (string * Rule)) (st : State) :
  Forall (fun e => r_drop e.2 = Some true) entries ->
  exists st',
    for_each entries apply_column st = (st', Ok ())
    /\ columns (current st')
       = filter (fun c => c ∉ entries.*1) (columns (current st))
    /\ len (current st') = len (current st).
Proof.
  intros Hall. revert st.
  induction Hall as [|[col rule] entries Hdrop Hrest IH]; intros st.
  - exists st. split; [done|]. split; [|done].
    symmetry. apply filter_all_kept. intros c. apply not_elem_of_nil.
  - destruct (apply_column_drop_step col rule st Hdrop) as (st1 & Hstep & Hcols & Hlen).
    destruct (IH st1) as (st' & Hloop & Hcols' & Hlen').
    exists st'. split; [|split; [|congruence]].
    + change (for_each ((col, rule) :: entries) apply_column st)
        with ((apply_column (col, rule) ≫= fun _ => for_each entries apply_column) st).
      unfold mbind at 1. unfold M_bind at 1. by rewrite Hstep.
    + rewrite Hcols', Hcols, list_filter_filter. apply list_filter_iff.
      intros c. simpl. rewrite not_elem_of_cons, String.eqb_neq. intuition congruence.
Qed.

End DropRules.

Lemma drop_rules_remove_listed_columns_witness :
  let df := {| schema := [("a", Int64); ("b", Object); ("c", Float64)];
               rows := [[Num 1; Str "x"; NA]; [Num 2; Str "y"; Num 3]] |} in
  let st := {| heap := {[ 1%positive := df ]}; self_df := 1%positive;
               self_audit_log := [] |} in
  let entries := [("c", drop_only); ("zz", drop_only); ("a", drop_only)] in
  exists st',
    for_each entries (@apply_column Text.pandas) st = (st', Ok ())
    /\ columns (current st') = filter (fun c => c ∉ entries.*1) (columns (current st))
    /\ len (current st') = len (current st).
Proof.
  intros df st entries.
  apply (@drop_rules_remove_listed_columns Text.pandas entries st).
  repeat (apply List.Forall_cons; [reflexivity|]). apply List.Forall_nil.
Defined.

(** ** What a dropped column leaves of the others *)

Lemma bool_index_kept_position (col col' : string) (l : list string) :
  col <> col' ->
  let keep := map (fun c => negb (String.eqb col c)) l in
  match index_of col' l with
  | None => index_of col' (bool_index l keep) = None
  | Some j =>
      exists j', index_of col' (bool_index l keep) = Some j'
        /\ forall (A : Type) (xs : list A),
             length xs = length l -> bool_index xs keep !! j' = xs !! j
  end.
Proof.
  intros Hne. induction l as [|c l IH]; simpl; [done|].
  destruct (String.eqb col' c) eqn:E'.
  - apply String.eqb_eq in E' as <-.
    apply String.eqb_neq in Hne as ->. simpl. rewrite String.eqb_refl.
    exists 0. split; [done|]. by intros A [|x xs] Hlen.
  - simpl in IH. destruct (index_of col' l) as [j|]; simpl.
    + destruct IH as (j' & Hj' & Hread).
      destruct (String.eqb col c); simpl.
      * exists j'. split; [done|]. intros A [|x xs] Hlen; [done|].
        simpl. apply Hread. simpl in Hlen. lia.
      * rewrite E', Hj'. exists (S j'). split; [done|].
        intros A [|x xs] Hlen; [done|]. simpl. apply Hread. simpl in Hlen. lia.
    + destruct (String.eqb col c); simpl; [done|]. by rewrite E', IH.
Qed.

Lemma count_label_other_dropped (col col' : string) (l : list string) :
  col <> col' ->
  count_label col' (bool_index l (map (fun c => negb (String.eqb col c)) l))
  = count_label col' l.
Proof.
  intros Hne. unfold count_label. induction l as [|c l IH]; [done|].
  simpl. rewrite filter_cons. destruct (String.eqb col c) eqn:E; simpl.
  - apply String.eqb_eq in E as <-. apply String.eqb_neq in Hne.
    rewrite String.eqb_sym in Hne. rewrite Hne. simpl. exact IH.
  - rewrite filter_cons. destruct (String.eqb col' c); simpl; by rewrite IH.
Qed.

Lemma columns_drop_column_mask (col : string) (df : DataFrame) :
  columns (drop_column col df)
  = bool_index (columns df) (map (fun c => negb (String.eqb col c)) (columns df)).
Proof. unfold drop_column, columns. simpl. apply bool_index_fst. Qed.

Lemma get_column_drop_column_other (df : DataFrame) (col col' : string) :
  rectangular df -> col <> col' ->
  get_column (drop_column col df) col' = get_column df col'.
Proof.
  intros Hrect Hne. unfold get_column.
  rewrite columns_drop_column_mask, count_label_other_dropped by done.
  pose proof (bool_index_kept_position col col' (columns df) Hne) as Hpos.
  simpl in Hpos.
  destruct (index_of col' (columns df)) as [j|].
  - destruct Hpos as (j' & -> & Hread).
    destruct (Nat.eqb _ 1); [|done]. f_equal. unfold drop_column. simpl.
    assert (Hlen : length (schema df) = length (columns df))
      by (unfold columns; by rewrite length_fmap).
    rewrite (Hread _ (schema df) Hlen). f_equal.
    rewrite map_map. apply map_ext_Forall.
    eapply Forall_impl; [exact Hrect|]. intros r Hr. simpl.
    rewrite !nth_lookup, Hread; [done|]. by rewrite Hr.
  - by rewrite Hpos.
Qed.

Section DropFrame.
Context `{Pandas}.

(** X23: A rule with [drop: true] leaves every other column as it was:
    on a frame whose rows have one cell per column, reading any other
    label after the rule gives what it gave before (the same series,
    or the same error). *)
Theorem drop_rule_keeps_other_columns (col col' : string) (rule : Rule)
    (st st' : State) :
  r_drop rule = Some true ->
  rectangular (current st) ->
  col <> col' ->
  apply_column (col, rule) st = (st', Ok ()) ->
  get_column (current st') col' = get_column (current st) col'.
Proof.
  intros Hdrop Hrect Hne. unfold apply_column, current in *. exec.
  destruct (has_column (heap st !!! self_df st) col) eqn:Hcol; simpl.
  - rewrite Hdrop. simpl. intros [= <-]. simpl.
    rewrite lookup_total_insert_eq. by apply get_column_drop_column_other.
  - by intros [= <-].
Qed.

End DropFrame.

Lemma drop_rule_keeps_other_columns_witness :
  let df := {| schema := [("a", Int64); ("b", Object); ("c", Float64)];
               rows := [[Num 1; Str "x"; NA]; [Num 2; Str "y"; Num 3]] |} in
  let st := {| heap := {[ 1%positive := df ]}; self_df := 1%positive;
               self_audit_log := [] |} in
  let st' := fst (@apply_column Text.pandas ("b", drop_only) st) in
  get_column (current st') "c" = get_column (current st) "c".
Proof.
  intros df st st'.
  apply (@drop_rule_keeps_other_columns Text.pandas "b" "c" drop_only st st').
  - reflexivity.
  - repeat (apply List.Forall_cons; [reflexivity|]). apply List.Forall_nil.
  - discriminate.
  - reflexivity.
Defined.
